(** * table-renderer: pagination, sort links and query-string handling

    A shallow embedding of the database-paginated renderer of
    [tablerenderer] (calculatePagination, generatePaginationHTML,
    generateSortLinks, parseQueryParams, ParsePageFromQuery,
    ParseSortFromQuery, extractHeadersFromStruct, convertStructSliceToRows
    and the header resolution of RenderHTML), with the properties the
    specification states about them.

    Conventions.
    - Go [int] is the 64-bit two's-complement integer: a [Z] in
      [int_min .. int_max], every arithmetic result passed through [wrap].
    - Go [string] is a byte string: [string] of the Standard Library.
    - Go [map[string]string] is [gmap string string].  The order in which a
      [range] loop visits a map is not specified by the language, so every
      function that ranges over a map takes the visiting order(s) as an
      argument, and theorems quantify over all orders that enumerate the
      map. *)

From Stdlib Require Import ZArith Lia Ascii String List DecimalString DecimalPos.
From stdpp Require Import base option list gmap strings fin_maps.

Local Open Scope string_scope.
Local Open Scope Z_scope.

(** ** Go's [int] *)

Module GoInt.

Definition int_min : Z := - 2 ^ 63.
Definition int_max : Z := 2 ^ 63 - 1.

Definition is_int (z : Z) : Prop := int_min <= z <= int_max.

(** Two's-complement wrap-around of a mathematical result. *)
Definition wrap (z : Z) : Z := (z + 2 ^ 63) mod 2 ^ 64 - 2 ^ 63.

Definition add (a b : Z) : Z := wrap (a + b).
Definition sub (a b : Z) : Z := wrap (a - b).
Definition mul (a b : Z) : Z := wrap (a * b).
(** Go's [/] truncates toward zero ([Z.quot]); the divisor is never 0
    where the program divides. *)
Definition div (a b : Z) : Z := wrap (Z.quot a b).

End GoInt.

Import GoInt.

(** ** The Go library functions the program calls

    [strings], [strconv] and [fmt] belong to Go's standard library, not to
    this repository; they are modelled from their documented behaviour.
    Every separator the program passes is a single byte, so separators are
    [ascii] values here. *)

Module strings.

(** [strings.Contains(s, sep)] *)
Fixpoint Contains (s : string) (sep : ascii) : bool :=
  match s with
  | EmptyString => false
  | String a s' => if Ascii.eqb a sep then true else Contains s' sep
  end.

(** [strings.Split(s, sep)]: all pieces between separators; one more piece
    than there are separators, so never empty. *)
Fixpoint Split (s : string) (sep : ascii) : list string :=
  match s with
  | EmptyString => [EmptyString]
  | String a s' =>
      if Ascii.eqb a sep then EmptyString :: Split s' sep
      else match Split s' sep with
           | piece :: pieces => String a piece :: pieces
           | [] => [String a EmptyString]
           end
  end.

(** Cutting at the first separator, [None] when there is none. *)
Fixpoint cut (s : string) (sep : ascii) : option (string * string) :=
  match s with
  | EmptyString => None
  | String a s' =>
      if Ascii.eqb a sep then Some (EmptyString, s')
      else match cut s' sep with
           | Some (before, after) => Some (String a before, after)
           | None => None
           end
  end.

(** [strings.SplitN(s, sep, 2)]: at most two pieces, the second one the
    unsplit remainder. *)
Definition SplitN2 (s : string) (sep : ascii) : list string :=
  match cut s sep with
  | Some (before, after) => [before; after]
  | None => [s]
  end.

(** [strings.TrimPrefix(s, prefix)] for a one-byte prefix. *)
Definition TrimPrefix (s : string) (prefix : ascii) : string :=
  match s with
  | String a s' => if Ascii.eqb a prefix then s' else s
  | EmptyString => s
  end.

(** [strings.Join(elems, sep)] *)
Definition Join (elems : list string) (sep : string) : string :=
  String.concat sep elems.

End strings.

Module strconv.

Definition digit (a : ascii) : option Z :=
  let n := Z.of_N (N_of_ascii a) in
  if (48 <=? n) && (n <=? 57) then Some (n - 48) else None.

Fixpoint digits (acc : Z) (s : string) : option Z :=
  match s with
  | EmptyString => Some acc
  | String a s' =>
      match digit a with
      | Some d => digits (10 * acc + d) s'
      | None => None
      end
  end.

(** [strconv.Atoi(s)]: an optional sign and at least one decimal digit,
    nothing else; [None] stands for a non-nil error, which Atoi also
    returns when the value does not fit an [int]. *)
Definition Atoi (s : string) : option Z :=
  let '(neg, body) :=
    match s with
    | String "+" r => (false, r)
    | String "-" r => (true, r)
    | _ => (false, s)
    end in
  match body with
  | EmptyString => None
  | _ =>
      match digits 0 body with
      | Some n =>
          let v := if neg then - n else n in
          if (int_min <=? v) && (v <=? int_max) then Some v else None
      | None => None
      end
  end.

End strconv.

Module fmt.

(** [fmt.Sprintf("%d", n)] *)
Definition Sprintd (n : Z) : string :=
  DecimalString.NilZero.string_of_int (Z.to_int n).

(** [fmt.Sprintf("%s=%s", key, value)] *)
Definition Sprint_pair (key value : string) : string :=
  key ++ "=" ++ value.

(** [fmt.Sprintf("%s=%d", key, n)] *)
Definition Sprint_pair_d (key : string) (n : Z) : string :=
  key ++ "=" ++ Sprintd n.

End fmt.

(** The one-byte separators of the program. *)
Definition amp : ascii := "&"%char.
Definition eq_sign : ascii := "="%char.
Definition qmark : ascii := "?"%char.
Definition comma : ascii := ","%char.

(** ** Configuration records *)

Module Pagination.
Record t := mk {
    Enabled : bool;
    PageSize : Z;
    CurrentPage : Z;
    ShowControls : bool;
    ShowInfo : bool;
    ShowPageSizer : bool;
    PageSizeOptions : list Z;
    BaseURL : string;
    QueryParam : string;
    PreserveQuery : bool;
    TotalCount : Z
}.
End Pagination.

Module Sorting.
Record t := mk {
    Enabled : bool;
    SortBy : string;
    SortOrder : string;
    BaseURL : string;
    QueryParam : string;
    OrderParam : string
}.
End Sorting.

Module PaginationInfo.
Record t := mk {
    CurrentPage : Z;
    TotalPages : Z;
    TotalRows : Z;
    PageSize : Z;
    StartRow : Z;
    EndRow : Z
}.
End PaginationInfo.

(** ** calculatePagination *)

(** [pagination] is a pointer in the source: [None] is [nil]. *)
Definition calculatePagination (currentPageDataCount : Z)
    (pagination : option Pagination.t) : PaginationInfo.t :=
  match pagination with
  | None =>
      PaginationInfo.mk 1 1 currentPageDataCount currentPageDataCount
                        1 currentPageDataCount
  | Some p =>
      if negb (Pagination.Enabled p) || (Pagination.PageSize p <=? 0) then
        PaginationInfo.mk 1 1 currentPageDataCount currentPageDataCount
                          1 currentPageDataCount
      else
        let totalRows := Pagination.TotalCount p in
        let totalRows :=
          if totalRows =? 0 then currentPageDataCount else totalRows in
        let currentPage := Pagination.CurrentPage p in
        let currentPage := if currentPage <? 1 then 1 else currentPage in
        let totalPages :=
          div (sub (add totalRows (Pagination.PageSize p)) 1)
              (Pagination.PageSize p) in
        let currentPage :=
          if currentPage >? totalPages then totalPages else currentPage in
        let startRow :=
          add (mul (sub currentPage 1) (Pagination.PageSize p)) 1 in
        let endRow := mul currentPage (Pagination.PageSize p) in
        let endRow := if endRow >? totalRows then totalRows else endRow in
        PaginationInfo.mk currentPage totalPages totalRows
                          (Pagination.PageSize p) startRow endRow
  end.

(** The row count the enabled branch works with: the configured
    [TotalCount], or the size of the current page when that is 0. *)
Definition effectiveTotalRows (currentPageDataCount : Z)
    (p : Pagination.t) : Z :=
  if Pagination.TotalCount p =? 0 then currentPageDataCount
  else Pagination.TotalCount p.

(** Integer ceiling of [n / d] for [d > 0], as the specification words it:
    the quotient rounded up. *)
Definition ceil_div (n d : Z) : Z :=
  n / d + (if n mod d =? 0 then 0 else 1).

(** A plain enabled configuration, used for concrete evaluations. *)
Definition pagination_of (pageSize currentPage totalCount : Z)
    : Pagination.t :=
  Pagination.mk true pageSize currentPage true true false [] "" "" true
                totalCount.

(** ** URL assembly shared by every link builder

    The source repeats these three cases inline in each closure. *)
Definition composeURL (baseURL queryString : string) : string :=
  if String.eqb baseURL "" then "?" ++ queryString
  else if strings.Contains baseURL qmark then baseURL ++ "&" ++ queryString
  else baseURL ++ "?" ++ queryString.

(** The body of a [for key, value := range currentQueryParams] loop that
    appends ["key=value"] for every key the predicate keeps; [visit] is the
    order in which this execution of the loop meets the entries. *)
Definition appendPreserved (keep : string -> bool)
    (visit : list (string * string)) (params : list string) : list string :=
  fold_left
    (fun params kv =>
       if keep (fst kv)
       then (params ++ [fmt.Sprint_pair (fst kv) (snd kv)])%list
       else params)
    visit params.

(** A family of visiting orders: [order k l] is the order in which the
    [k]-th execution of a range loop meets the entries [l] of the map. *)
Definition RangeOrder : Type :=
  nat -> list (string * string) -> list (string * string).

Definition range_ok (order : RangeOrder) : Prop :=
  forall k l, order k l ≡ₚ l.

(** Two concrete families: always the listed order, always its reverse. *)
Definition listedOrder : RangeOrder := fun _ l => l.
Definition reversedOrder : RangeOrder := fun _ l => rev l.

(** ["&key=value"], the text a preserved entry adds to a query string. *)
Definition ampPair (kv : string * string) : string :=
  "&" ++ fmt.Sprint_pair (fst kv) (snd kv).

(** [url] carries the pair [key=value] as one of the [&]-separated pieces
    that follow its first parameter. *)
Definition carriesPair (url key value : string) : Prop :=
  exists before after : string,
    url = before ++ ampPair (key, value) ++ after /\
    (after = "" \/ exists rest : string, after = "&" ++ rest).

(** ** generatePaginationHTML *)

Definition pageParam (pagination : Pagination.t) : string :=
  if String.eqb (Pagination.QueryParam pagination) "" then "page"
  else Pagination.QueryParam pagination.

(** The closure [generateURL] of generatePaginationHTML. *)
Definition generateURL (baseURL queryParam : string)
    (visit : list (string * string)) (page : Z) : string :=
  let params := [fmt.Sprint_pair_d queryParam page] in
  let params :=
    appendPreserved (fun key => negb (String.eqb key queryParam))
                    visit params in
  composeURL baseURL (strings.Join params "&").

(** What generatePaginationHTML writes between [<ul>] and [</ul>], one
    constructor per [WriteString]. *)
Inductive NavItem : Type :=
| PrevLink (url : string)
| PrevDisabled
| PageActive (i : Z)
| PageLink (url : string) (i : Z)
| NextLink (url : string)
| NextDisabled.

(** The window [start, end] of page numbers. *)
Definition pageWindow (info : PaginationInfo.t) : Z * Z :=
  let start := 1 in
  let end_ := PaginationInfo.TotalPages info in
  if PaginationInfo.TotalPages info >? 5 then
    let start := sub (PaginationInfo.CurrentPage info) 2 in
    let start := if start <? 1 then 1 else start in
    let end_ := add start 4 in
    if end_ >? PaginationInfo.TotalPages info then
      let end_ := PaginationInfo.TotalPages info in
      let start := sub end_ 4 in
      let start := if start <? 1 then 1 else start in
      (start, end_)
    else (start, end_)
  else (start, end_).

(** [for i := start; i <= end; i++]: [fuel] bounds the iterations ([None]
    when it runs out); [k] counts the calls of [generateURL] so far. *)
Fixpoint pageLoop (fuel : nat) (url : nat -> Z -> string)
    (currentPage i end_ : Z) (k : nat) : option (list NavItem * nat) :=
  match fuel with
  | O => None
  | S fuel' =>
      if i <=? end_ then
        let '(item, k') :=
          if i =? currentPage then (PageActive i, k)
          else (PageLink (url k i) i, S k) in
        match pageLoop fuel' url currentPage (add i 1) end_ k' with
        | Some (items, k'') => Some (item :: items, k'')
        | None => None
        end
      else Some ([], k)
  end.

Section PaginationHTML.

Variable order : RangeOrder.

Definition generatePaginationItems (fuel : nat) (info : PaginationInfo.t)
    (pagination : Pagination.t) (currentQueryParams : gmap string string)
    : option (list NavItem) :=
  let baseURL := Pagination.BaseURL pagination in
  let queryParam := pageParam pagination in
  let url (k : nat) (page : Z) :=
    generateURL baseURL queryParam
                (order k (map_to_list currentQueryParams)) page in
  let '(prev, k) :=
    if PaginationInfo.CurrentPage info >? 1
    then (PrevLink (url O (sub (PaginationInfo.CurrentPage info) 1)), 1%nat)
    else (PrevDisabled, O) in
  let '(start, end_) := pageWindow info in
  match pageLoop fuel url (PaginationInfo.CurrentPage info) start end_ k with
  | None => None
  | Some (pages, k) =>
      let next :=
        if PaginationInfo.CurrentPage info <? PaginationInfo.TotalPages info
        then NextLink (url k (add (PaginationInfo.CurrentPage info) 1))
        else NextDisabled in
      Some (prev :: pages ++ [next])%list
  end.

End PaginationHTML.

(** The double-quote byte of the HTML literals. *)
Definition dq : string := String (ascii_of_nat 34) EmptyString.

Definition li_open (classes : string) : string :=
  "<li class=" ++ dq ++ classes ++ dq ++ ">".

Definition page_anchor (url label : string) : string :=
  li_open "page-item" ++ "<a class=" ++ dq ++ "page-link" ++ dq
    ++ " href=" ++ dq ++ url ++ dq ++ ">" ++ label ++ "</a></li>".

Definition page_span (classes label : string) : string :=
  li_open classes ++ "<span class=" ++ dq ++ "page-link" ++ dq ++ ">"
    ++ label ++ "</span></li>".

Definition renderNavItem (item : NavItem) : string :=
  match item with
  | PrevLink url => page_anchor url "Previous"
  | PrevDisabled => page_span "page-item disabled" "Previous"
  | PageActive i => page_span "page-item active" (fmt.Sprintd i)
  | PageLink url i => page_anchor url (fmt.Sprintd i)
  | NextLink url => page_anchor url "Next"
  | NextDisabled => page_span "page-item disabled" "Next"
  end.

Definition navHTML (items : list NavItem) : string :=
  "<nav aria-label=" ++ dq ++ "Table pagination" ++ dq ++ ">"
    ++ "<ul class=" ++ dq ++ "pagination" ++ dq ++ ">"
    ++ String.concat "" (List.map renderNavItem items)
    ++ "</ul>" ++ "</nav>".

(** generatePaginationHTML: [None] when the page loop does not end within
    [fuel] iterations.  The source dereferences [pagination] without a nil
    test; RenderHTML only calls it with a non-nil pointer. *)
Definition generatePaginationHTML (order : RangeOrder) (fuel : nat)
    (paginationInfo : PaginationInfo.t) (pagination : Pagination.t)
    (currentQueryParams : gmap string string) : option string :=
  if PaginationInfo.TotalPages paginationInfo <=? 1 then Some ""
  else
    match generatePaginationItems order fuel paginationInfo pagination
                                  currentQueryParams with
    | None => None
    | Some items => Some (navHTML items)
    end.

(** The URLs and the page numbers among the written items. *)
Definition navURLs (items : list NavItem) : list string :=
  flat_map
    (fun item =>
       match item with
       | PrevLink url | PageLink url _ | NextLink url => [url]
       | _ => []
       end)
    items.

Definition pageNumbers (items : list NavItem) : list Z :=
  flat_map
    (fun item =>
       match item with
       | PageActive i | PageLink _ i => [i]
       | _ => []
       end)
    items.

(** ** generateSortLinks *)

Definition sortParamOf (sorting : Sorting.t) : string :=
  if String.eqb (Sorting.QueryParam sorting) "" then "sort_by"
  else Sorting.QueryParam sorting.

Definition orderParamOf (sorting : Sorting.t) : string :=
  if String.eqb (Sorting.OrderParam sorting) "" then "sort_order"
  else Sorting.OrderParam sorting.

(** The order the link of column [header] asks for. *)
Definition toggledOrder (sorting : Sorting.t) (header : string) : string :=
  let sortOrder := "asc" in
  if String.eqb (Sorting.SortBy sorting) header
     && String.eqb (Sorting.SortOrder sorting) "asc"
  then "desc" else sortOrder.

(** The [queryString] built in one iteration of the loop over headers. *)
Definition sortQueryString (sorting : Sorting.t) (header : string)
    (visit : list (string * string)) : string :=
  let sortParam := sortParamOf sorting in
  let orderParam := orderParamOf sorting in
  let params := [] in
  let params := (params ++ [fmt.Sprint_pair sortParam header])%list in
  let params :=
    (params ++ [fmt.Sprint_pair orderParam (toggledOrder sorting header)])%list in
  let params :=
    appendPreserved
      (fun key => negb (String.eqb key sortParam)
                  && negb (String.eqb key orderParam)
                  && negb (String.eqb key "page"))
      visit params in
  strings.Join params "&".

Section SortLinks.

Variable order : RangeOrder.

(** [for i, header := range headers { ... sortLinks[i] = ... }] *)
Fixpoint sortLinksLoop (sorting : Sorting.t)
    (currentQueryParams : gmap string string) (i : nat)
    (headers : list string) (sortLinks : list string) : list string :=
  match headers with
  | [] => sortLinks
  | header :: rest =>
      let queryString :=
        sortQueryString sorting header
                        (order i (map_to_list currentQueryParams)) in
      sortLinksLoop sorting currentQueryParams (S i) rest
        (<[i := composeURL (Sorting.BaseURL sorting) queryString]> sortLinks)
  end.

(** [sorting] is a pointer in the source: [None] is [nil];
    [make([]string, n)] is [n] empty strings. *)
Definition generateSortLinks (headers : list string)
    (sorting : option Sorting.t) (currentQueryParams : gmap string string)
    : list string :=
  match sorting with
  | None => replicate (length headers) ""
  | Some s =>
      if negb (Sorting.Enabled s) then replicate (length headers) ""
      else
        sortLinksLoop s currentQueryParams O headers
                      (replicate (length headers) "")
  end.

End SortLinks.

(** ** Query-string parsing *)

(** [parts := strings.SplitN(pair, "=", 2)] guarded by
    [strings.Contains(pair, "=")] and [len(parts) == 2]: the key and the
    value of a pair, [None] when the loop body skips the pair. *)
Definition keyValue (pair : string) : option (string * string) :=
  if strings.Contains pair eq_sign then
    match strings.SplitN2 pair eq_sign with
    | [key; value] => Some (key, value)
    | _ => None
    end
  else None.

Definition parseQueryParams (urlOrQuery : string) : gmap string string :=
  let params : gmap string string := ∅ in
  if String.eqb urlOrQuery "" then params
  else
    let queryString := urlOrQuery in
    let queryString :=
      if strings.Contains urlOrQuery qmark then
        match strings.Split urlOrQuery qmark with
        | _ :: part1 :: _ => part1
        | _ => queryString
        end
      else queryString in
    let queryString := strings.TrimPrefix queryString qmark in
    if String.eqb queryString "" then params
    else
      fold_left
        (fun params pair =>
           match keyValue pair with
           | Some (key, value) => <[key := value]> params
           | None => params
           end)
        (strings.Split queryString amp) params.

(** The loop of ParsePageFromQuery, which returns at the first pair that
    names the parameter and holds a positive number. *)
Fixpoint firstPage (paramName : string) (params : list string) : Z :=
  match params with
  | [] => 1
  | param :: rest =>
      match keyValue param with
      | Some (key, value) =>
          if String.eqb key paramName then
            match strconv.Atoi value with
            | Some page => if page >? 0 then page
                           else firstPage paramName rest
            | None => firstPage paramName rest
            end
          else firstPage paramName rest
      | None => firstPage paramName rest
      end
  end.

Definition ParsePageFromQuery (queryString paramName : string) : Z :=
  let paramName := if String.eqb paramName "" then "page" else paramName in
  if String.eqb queryString "" then 1
  else
    let queryString := strings.TrimPrefix queryString qmark in
    firstPage paramName (strings.Split queryString amp).

(** One iteration of the loop of ParseSortFromQuery on the pair
    [(sortBy, sortOrder)]. *)
Definition sortStep (sortParam orderParam : string)
    (state : string * string) (param : string) : string * string :=
  let '(sortBy, sortOrder) := state in
  match keyValue param with
  | Some (key, value) =>
      if String.eqb key sortParam then (value, sortOrder)
      else if String.eqb key orderParam then
        if String.eqb value "desc" then (sortBy, "desc")
        else (sortBy, sortOrder)
      else (sortBy, sortOrder)
  | None => (sortBy, sortOrder)
  end.

Definition ParseSortFromQuery (queryString sortParam orderParam : string)
    : string * string :=
  let sortParam := if String.eqb sortParam "" then "sort_by" else sortParam in
  let orderParam :=
    if String.eqb orderParam "" then "sort_order" else orderParam in
  if String.eqb queryString "" then ("", "asc")
  else
    let queryString := strings.TrimPrefix queryString qmark in
    fold_left (sortStep sortParam orderParam)
              (strings.Split queryString amp) ("", "asc").

(** What the claim about parseQueryParams describes, in its own words:
    strip everything up to and including the first [?], parse the entire
    remainder. *)
Definition afterFirstQmark (s : string) : string :=
  match strings.cut s qmark with
  | Some (_, remainder) => remainder
  | None => s
  end.

Definition parse_as_specified (urlOrQuery : string) : gmap string string :=
  fold_left
    (fun params pair =>
       match strings.cut pair eq_sign with
       | Some (key, value) => <[key := value]> params
       | None => params
       end)
    (strings.Split (afterFirstQmark urlOrQuery) amp) ∅.

(** ** Struct slices seen through [reflect] *)

(** A struct field as [reflect.StructField] shows it: its name, the value
    of [Tag.Get("json")] (empty when the tag has no json key) and whether
    it is exported. *)
Record StructField := mkField {
  Name : string;
  jsonTag : string;
  Exported : bool
}.

(** A run-time value as far as convertStructSliceToRows inspects it. *)
#[local] Set Warnings "-register-all".
Inductive Value : Type :=
| VInvalid
| VPtr (target : option Value)
| VSlice (elems : list Value)
| VStruct (fields : list StructField) (values : list Value)
| VOther (shown : string).

#[local] Set Warnings "+register-all".

Inductive Kind : Type := Invalid | Ptr | Slice | Struct | Other.

Definition kindOf (v : Value) : Kind :=
  match v with
  | VInvalid => Invalid
  | VPtr _ => Ptr
  | VSlice _ => Slice
  | VStruct _ _ => Struct
  | VOther _ => Other
  end.

(** [v.Elem()] of a pointer; a nil pointer gives the zero Value. *)
Definition Elem (v : Value) : Value :=
  match v with
  | VPtr (Some target) => target
  | _ => VInvalid
  end.

Definition derefIfPtr (v : Value) : Value :=
  match kindOf v with Ptr => Elem v | _ => v end.

(** The outcome of a call that may return an error or panic. *)
Inductive Result (A : Type) : Type :=
| Ok (a : A)
| Err (msg : string)
| Panicked.
Arguments Ok {A} a.
Arguments Err {A} msg.
Arguments Panicked {A}.

Definition extractHeadersFromStruct (structType : list StructField)
    : list string :=
  fold_left
    (fun headers field =>
       let tag := jsonTag field in
       if negb (String.eqb tag "") && negb (String.eqb tag "-") then
         let tagName :=
           match strings.Split tag comma with
           | first :: _ => first
           | [] => ""
           end in
         if negb (String.eqb tagName "") then (headers ++ [tagName])%list
         else (headers ++ [Name field])%list
       else (headers ++ [Name field])%list)
    structType [].

(** One row: [elem.NumField()] panics unless [elem] is a struct, and
    [elem.Field(j).Interface()] panics on an unexported field. *)
Definition rowOf (elem : Value) : option (list Value) :=
  match derefIfPtr elem with
  | VStruct fields values =>
      if forallb Exported fields then Some values else None
  | _ => None
  end.

Fixpoint rowsOf (elems : list Value) : option (list (list Value)) :=
  match elems with
  | [] => Some []
  | elem :: rest =>
      match rowOf elem with
      | Some row =>
          match rowsOf rest with
          | Some rows => Some (row :: rows)
          | None => None
          end
      | None => None
      end
  end.

Definition convertStructSliceToRows (data : Value)
    : Result (list string * list (list Value)) :=
  let v := derefIfPtr data in
  match v with
  | VSlice elems =>
      match elems with
      | [] => Ok ([], [])
      | first :: _ =>
          match derefIfPtr first with
          | VStruct structType _ =>
              let headers := extractHeadersFromStruct structType in
              match rowsOf elems with
              | Some rows => Ok (headers, rows)
              | None => Panicked
              end
          | _ => Err "slice elements must be structs"
          end
      end
  | _ => Err "data must be a slice of structs"
  end.

(** ** RenderHTML: the parts that decide headers and link parameters *)

Module Search.
Record t := mk {
  Enabled : bool;
  SearchTerm : string;
  Placeholder : string;
  SearchColumns : list string;
  CaseSensitive : bool;
  BaseURL : string;
  QueryParam : string;
  MinLength : Z
}.
End Search.

Record TableOptions := mkOptions {
  CSSClass : string;
  ID : string;
  Striped : bool;
  Bordered : bool;
  Responsive : bool;
  Style : string;
  Pagination : option Pagination.t;
  Sorting : option Sorting.t;
  Search : option Search.t
}.

(** [Data] is an [interface{}]: [None] is the nil interface. *)
Record DatabasePaginatedData := mkData {
  Headers : list string;
  Rows : list (list Value);
  Data : option Value;
  TotalCount : Z;
  Options : TableOptions
}.

(** Lines that settle [headers] and [rows] at the top of RenderHTML. *)
Definition RenderHTML_source (data : DatabasePaginatedData)
    : Result (list string * list (list Value)) :=
  match Data data with
  | Some d =>
      match convertStructSliceToRows d with
      | Ok (headers, rows) =>
          let headers :=
            if (0 <? length (Headers data))%nat then Headers data
            else headers in
          Ok (headers, rows)
      | Err msg => Err ("failed to convert struct data: " ++ msg)
      | Panicked => Panicked
      end
  | None => Ok (Headers data, Rows data)
  end.

(** [currentParams] as RenderHTML fills it before it calls
    generatePaginationHTML. *)
Definition searchParamOf (search : Search.t) : string :=
  if String.eqb (Search.QueryParam search) "" then "search"
  else Search.QueryParam search.

Definition withSearch (options : TableOptions)
    (currentParams : gmap string string) : gmap string string :=
  match Search options with
  | Some search =>
      if Search.Enabled search
         && negb (String.eqb (Search.SearchTerm search) "")
      then <[searchParamOf search := Search.SearchTerm search]> currentParams
      else currentParams
  | None => currentParams
  end.

Definition RenderHTML_paginationParams (options : TableOptions)
    (pagination : Pagination.t) (paginationInfo : PaginationInfo.t)
    : gmap string string :=
  let currentParams := parseQueryParams (Pagination.BaseURL pagination) in
  let currentParams :=
    match Sorting options with
    | Some sorting =>
        if Sorting.Enabled sorting then
          let currentParams :=
            if negb (String.eqb (Sorting.SortBy sorting) "")
            then <["sort_by" := Sorting.SortBy sorting]> currentParams
            else currentParams in
          if negb (String.eqb (Sorting.SortOrder sorting) "")
          then <["sort_order" := Sorting.SortOrder sorting]> currentParams
          else currentParams
        else currentParams
    | None => currentParams
    end in
  let currentParams :=
    if PaginationInfo.PageSize paginationInfo >? 0
    then <["page_size" := fmt.Sprintd (PaginationInfo.PageSize paginationInfo)]>
           currentParams
    else currentParams in
  withSearch options currentParams.

(** [sortLinks] as RenderHTML hands it to the template, whose header row
    evaluates [index $.SortLinks $index] at every position of [headers]
    when sorting is enabled. *)
Definition RenderHTML_sortLinks (order : RangeOrder) (headers : list string)
    (options : TableOptions) (paginationInfo : PaginationInfo.t)
    : list string :=
  match Sorting options with
  | Some sorting =>
      if Sorting.Enabled sorting then
        let currentParams := parseQueryParams (Sorting.BaseURL sorting) in
        let currentParams :=
          match Pagination options with
          | Some pagination =>
              if Pagination.Enabled pagination then
                let currentParams :=
                  <["page" := fmt.Sprintd (Pagination.CurrentPage pagination)]>
                    currentParams in
                if PaginationInfo.PageSize paginationInfo >? 0
                then <["page_size" :=
                         fmt.Sprintd (PaginationInfo.PageSize paginationInfo)]>
                       currentParams
                else currentParams
              else currentParams
          | None => currentParams
          end in
        let currentParams := withSearch options currentParams in
        generateSortLinks order headers (Some sorting) currentParams
      else replicate (length headers) ""
  | None => replicate (length headers) ""
  end.

(** ** Vocabulary of the statements *)

(** The pairs the loops of ParsePageFromQuery and ParseSortFromQuery run
    over: none for the empty query string, which both answer at once. *)
Definition queryPairs (queryString : string) : list string :=
  if String.eqb queryString "" then []
  else strings.Split (strings.TrimPrefix queryString qmark) amp.

(** The values the query string gives to parameter [name], in order. *)
Definition paramValues (name queryString : string) : list string :=
  flat_map
    (fun pair =>
       match keyValue pair with
       | Some (key, value) => if String.eqb key name then [value] else []
       | None => []
       end)
    (queryPairs queryString).

(** A value that does not make a page number: not a number for
    [strconv.Atoi], or one that is zero or negative. *)
Definition notAPage (value : string) : Prop :=
  match strconv.Atoi value with
  | Some page => page <= 0
  | None => True
  end.

(** The header the specification gives a field: the name in its json tag
    (the text before the first comma) when the tag is present, is not [-]
    and names something; the field's own name otherwise. *)
Definition tagName (tag : string) : string :=
  match strings.cut tag comma with
  | Some (name, _) => name
  | None => tag
  end.

Definition fieldHeader (field : StructField) : string :=
  if String.eqb (jsonTag field) "" || String.eqb (jsonTag field) "-"
     || String.eqb (tagName (jsonTag field)) ""
  then Name field
  else tagName (jsonTag field).

(** A slice of structs of one type, elements held directly or through
    pointers, as [[]T] and [[]*T] give. *)
Definition structsOf (structType : list StructField) (elems : list Value)
    : Prop :=
  Forall (fun elem => exists values,
            derefIfPtr elem = VStruct structType values) elems.

(** Following a sort link: the server reads the sort state with
    ParseSortFromQuery from the text behind the first [?] of the link,
    taken literally (the program neither escapes nor unescapes), with the
    parameter names of the configuration. *)
Definition followSortLink (sorting : Sorting.t) (link : string)
    : string * string :=
  ParseSortFromQuery (afterFirstQmark link)
                     (Sorting.QueryParam sorting) (Sorting.OrderParam sorting).

(** The configuration of the next render, with the sort state read from
    the request. *)
Definition withSortState (sorting : Sorting.t) (state : string * string)
    : Sorting.t :=
  Sorting.mk (Sorting.Enabled sorting) (fst state) (snd state)
             (Sorting.BaseURL sorting) (Sorting.QueryParam sorting)
             (Sorting.OrderParam sorting).

(** [s] holds none of the URL delimiters [&], [=] and [?]. *)
Definition plainName (s : string) : Prop :=
  strings.Contains s amp = false /\
  strings.Contains s eq_sign = false /\
  strings.Contains s qmark = false.

Definition ampFree (s : string) : Prop := strings.Contains s amp = false.

(** Options with every field at its zero value. *)
Definition zeroOptions : TableOptions :=
  mkOptions "" "" false false false "" None None None.

(** ** Database paging helpers *)

Definition CalculateDatabaseOffset (page pageSize : Z) : Z :=
  let page := if page <? 1 then 1 else page in
  mul (sub page 1) pageSize.

Definition CalculateDatabaseLimit (pageSize : Z) : Z :=
  if pageSize <=? 0 then 10 else pageSize.

(** ** The other query-string readers *)

(** The loop of ParsePageSizeFromQuery; the parameter name is fixed. *)
Fixpoint firstPageSize (defaultPageSize : Z) (params : list string) : Z :=
  match params with
  | [] => defaultPageSize
  | param :: rest =>
      match keyValue param with
      | Some (key, value) =>
          if String.eqb key "page_size" then
            match strconv.Atoi value with
            | Some pageSize => if pageSize >? 0 then pageSize
                               else firstPageSize defaultPageSize rest
            | None => firstPageSize defaultPageSize rest
            end
          else firstPageSize defaultPageSize rest
      | None => firstPageSize defaultPageSize rest
      end
  end.

Definition ParsePageSizeFromQuery (queryString : string)
    (defaultPageSize : Z) : Z :=
  if String.eqb queryString "" then defaultPageSize
  else
    let queryString := strings.TrimPrefix queryString qmark in
    firstPageSize defaultPageSize (strings.Split queryString amp).

(** [strings.Replace(s, old, new, -1)] for one-byte [old] and [new]. *)
Fixpoint ReplaceAll (s : string) (old new : ascii) : string :=
  match s with
  | EmptyString => EmptyString
  | String a s' =>
      String (if Ascii.eqb a old then new else a) (ReplaceAll s' old new)
  end.

(** The loop of ParseSearchFromQuery, which returns at the first pair that
    names the parameter. *)
Fixpoint firstSearch (searchParam : string) (params : list string) : string :=
  match params with
  | [] => ""
  | param :: rest =>
      match keyValue param with
      | Some (key, value) =>
          if String.eqb key searchParam
          then ReplaceAll value "+"%char " "%char
          else firstSearch searchParam rest
      | None => firstSearch searchParam rest
      end
  end.

(** Unlike the other readers, this one does not strip a leading [?]. *)
Definition ParseSearchFromQuery (rawQuery defaultSearchParam : string)
    : string :=
  if String.eqb rawQuery "" then ""
  else
    let searchParam :=
      if String.eqb defaultSearchParam "" then "search"
      else defaultSearchParam in
    firstSearch searchParam (strings.Split rawQuery amp).

(** ** generatePaginationInfoHTML *)

Definition generatePaginationInfoHTML (paginationInfo : PaginationInfo.t)
    : string :=
  if PaginationInfo.TotalRows paginationInfo =? 0 then
    "<div class=" ++ dq ++ "pagination-info" ++ dq
      ++ ">No records found</div>"
  else
    "<div class=" ++ dq ++ "pagination-info" ++ dq ++ ">Showing "
      ++ fmt.Sprintd (PaginationInfo.StartRow paginationInfo) ++ " to "
      ++ fmt.Sprintd (PaginationInfo.EndRow paginationInfo) ++ " of "
      ++ fmt.Sprintd (PaginationInfo.TotalRows paginationInfo)
      ++ " entries</div>".

(** ** generatePageSizeHTML *)

(** The closure [generateURL] of generatePageSizeHTML. *)
Definition pageSizeURL (baseURL : string) (visit : list (string * string))
    (pageSize : Z) : string :=
  let params := [] in
  let params :=
    (params ++ [("page_size=" ++ fmt.Sprintd pageSize)%string])%list in
  let params := (params ++ ["page=1"])%list in
  let params :=
    appendPreserved
      (fun key => negb (String.eqb key "page")
                  && negb (String.eqb key "page_size"))
      visit params in
  composeURL baseURL (strings.Join params "&").

Definition pageSizeOptionsOf (pagination : Pagination.t) : list Z :=
  if (length (Pagination.PageSizeOptions pagination) =? 0)%nat
  then [10; 25; 50; 100]
  else Pagination.PageSizeOptions pagination.

(** One [<option>] per size: its URL, whether it is selected, the size.
    [k] is the position of the option, which is also the number of the
    range loop its URL runs. *)
Fixpoint pageSizeItems (order : RangeOrder) (pagination : Pagination.t)
    (currentQueryParams : gmap string string) (k : nat) (options : list Z)
    : list (string * bool * Z) :=
  match options with
  | [] => []
  | size :: rest =>
      (pageSizeURL (Pagination.BaseURL pagination)
                   (order k (map_to_list currentQueryParams)) size,
       size =? Pagination.PageSize pagination, size)
      :: pageSizeItems order pagination currentQueryParams (S k) rest
  end.

Definition renderPageSizeItem (item : string * bool * Z) : string :=
  let '(url, selected, size) := item in
  "<option value=" ++ dq ++ url ++ dq
    ++ (if selected then " selected" else "") ++ ">"
    ++ fmt.Sprintd size ++ " entries</option>".

Definition generatePageSizeHTML (order : RangeOrder)
    (pagination : option Pagination.t)
    (currentQueryParams : gmap string string) : string :=
  match pagination with
  | None => ""
  | Some p =>
      if negb (Pagination.ShowPageSizer p) then ""
      else
        "<div class=" ++ dq
          ++ "page-size-control d-flex align-items-center mb-3" ++ dq ++ ">"
          ++ "<label for=" ++ dq ++ "page-size-select" ++ dq ++ " class="
          ++ dq ++ "form-label me-2 mb-0" ++ dq ++ ">Show:</label>"
          ++ "<select id=" ++ dq ++ "page-size-select" ++ dq ++ " class="
          ++ dq ++ "form-select form-select-sm" ++ dq ++ " style=" ++ dq
          ++ "width: auto;" ++ dq ++ " onchange=" ++ dq
          ++ "window.location.href=this.value" ++ dq ++ ">"
          ++ String.concat ""
               (List.map renderPageSizeItem
                  (pageSizeItems order p currentQueryParams O
                                 (pageSizeOptionsOf p)))
          ++ "</select>" ++ "</div>"
  end.

(** ** generateSearchHTML *)

(** [strings.TrimSuffix(s, suffix)] for a one-byte suffix. *)
Fixpoint TrimSuffix (s : string) (suffix : ascii) : string :=
  match s with
  | EmptyString => EmptyString
  | String a EmptyString => if Ascii.eqb a suffix then EmptyString else s
  | String a s' => String a (TrimSuffix s' suffix)
  end.

(** The keys the search form carries along: all but the search parameter
    and [page]. *)
Definition searchKeeps (queryParam key : string) : bool :=
  negb (String.eqb key queryParam) && negb (String.eqb key "page").

Definition searchActionURL (search : Search.t)
    (visit : list (string * string)) : string :=
  let queryParam := searchParamOf search in
  let baseURL := Search.BaseURL search in
  let actionParams := appendPreserved (searchKeeps queryParam) visit [] in
  if (0 <? length actionParams)%nat then
    composeURL baseURL (strings.Join actionParams "&")
  else baseURL.

Definition searchClearURL (search : Search.t) (actionURL : string)
    (visit : list (string * string)) : string :=
  let queryParam := searchParamOf search in
  let clearURL := actionURL in
  let clearURL :=
    if String.eqb clearURL "" then "?"
    else if negb (strings.Contains clearURL qmark) then clearURL ++ "?"
    else clearURL ++ "&" in
  let clearParams := appendPreserved (searchKeeps queryParam) visit [] in
  if (0 <? length clearParams)%nat then
    clearURL ++ strings.Join clearParams "&"
  else
    let clearURL := TrimSuffix clearURL qmark in
    let clearURL := TrimSuffix clearURL amp in
    if String.eqb clearURL "" then "/" else clearURL.

Definition hiddenInput (kv : string * string) : string :=
  "<input type=" ++ dq ++ "hidden" ++ dq ++ " name=" ++ dq ++ fst kv ++ dq
    ++ " value=" ++ dq ++ snd kv ++ dq ++ ">".

(** The three range loops over the map are executions 0, 1 and 2. *)
Definition generateSearchHTML (order : RangeOrder) (search : option Search.t)
    (currentQueryParams : gmap string string) : string :=
  match search with
  | None => ""
  | Some s =>
      if negb (Search.Enabled s) then ""
      else
        let placeholder :=
          if String.eqb (Search.Placeholder s) "" then "Search all columns..."
          else Search.Placeholder s in
        let queryParam := searchParamOf s in
        let searchTerm := Search.SearchTerm s in
        let entries := map_to_list currentQueryParams in
        let actionURL := searchActionURL s (order 0%nat entries) in
        "<div class=" ++ dq ++ "search-control mb-3" ++ dq ++ ">"
          ++ "<form method=" ++ dq ++ "GET" ++ dq ++ " action=" ++ dq
          ++ actionURL ++ dq ++ " class=" ++ dq
          ++ "d-flex align-items-center" ++ dq ++ ">"
          ++ String.concat ""
               (List.map hiddenInput
                  (List.filter (fun kv => searchKeeps queryParam (fst kv))
                               (order 1%nat entries)))
          ++ "<div class=" ++ dq ++ "input-group" ++ dq ++ " style=" ++ dq
          ++ "max-width: 300px;" ++ dq ++ ">"
          ++ "<input type=" ++ dq ++ "text" ++ dq ++ " name=" ++ dq
          ++ queryParam ++ dq ++ " class=" ++ dq ++ "form-control" ++ dq
          ++ " placeholder=" ++ dq ++ placeholder ++ dq ++ " value=" ++ dq
          ++ searchTerm ++ dq ++ ">"
          ++ "<button class=" ++ dq ++ "btn btn-outline-secondary" ++ dq
          ++ " type=" ++ dq ++ "submit" ++ dq ++ ">"
          ++ "<i class=" ++ dq ++ "fas fa-search" ++ dq ++ "></i> Search"
          ++ "</button>"
          ++ (if negb (String.eqb searchTerm "") then
                "<a href=" ++ dq
                  ++ searchClearURL s actionURL (order 2%nat entries) ++ dq
                  ++ " class=" ++ dq ++ "btn btn-outline-danger" ++ dq
                  ++ " title=" ++ dq ++ "Clear search" ++ dq ++ ">"
                  ++ "<i class=" ++ dq ++ "fas fa-times" ++ dq ++ "></i>"
                  ++ "</a>"
              else "")
          ++ "</div>" ++ "</form>" ++ "</div>"
  end.

(** ** The constructors of render inputs *)

Definition CreatePaginatedData (data : option Value) (totalCount : Z)
    (baseURL queryString : string) (pageSize : Z) : DatabasePaginatedData :=
  let currentPage := ParsePageFromQuery queryString "page" in
  mkData [] [] data totalCount
    (mkOptions "" "" true true true ""
       (Some (Pagination.mk true pageSize currentPage true true false []
                            baseURL "page" true totalCount))
       None None).

Definition CreatePaginatedDataWithSorting (data : option Value)
    (totalCount : Z) (baseURL queryString : string) (pageSize : Z)
    (enableSorting : bool) : DatabasePaginatedData :=
  let currentPage := ParsePageFromQuery queryString "page" in
  let '(sortBy, sortOrder) :=
    ParseSortFromQuery queryString "sort_by" "sort_order" in
  mkData [] [] data totalCount
    (mkOptions "" "" true true true ""
       (Some (Pagination.mk true pageSize currentPage true true true
                            [10; 25; 50; 100] baseURL "page" true totalCount))
       (if enableSorting
        then Some (Sorting.mk true sortBy sortOrder baseURL
                              "sort_by" "sort_order")
        else None)
       None).

Definition CreatePaginatedDataWithSortingAndSearch (data : option Value)
    (totalCount : Z) (baseURL queryString : string) (pageSize : Z)
    (enableSorting enableSearch : bool) (searchTerm : string)
    : DatabasePaginatedData :=
  let currentPage := ParsePageFromQuery queryString "page" in
  let '(sortBy, sortOrder) :=
    ParseSortFromQuery queryString "sort_by" "sort_order" in
  mkData [] [] data totalCount
    (mkOptions "" "" true true true ""
       (Some (Pagination.mk true pageSize currentPage true true true
                            [10; 25; 50; 100] baseURL "page" true totalCount))
       (if enableSorting
        then Some (Sorting.mk true sortBy sortOrder baseURL
                              "sort_by" "sort_order")
        else None)
       (if enableSearch
        then Some (Search.mk true searchTerm "Search all columns..." []
                             false baseURL "search" 1)
        else None)).

(** The pagination pieces RenderHTML computes for the template:
    [paginationInfo], then the controls and the info line when the
    configuration asks for them ([None]: the page loop did not end). *)
Definition RenderHTML_pagination (order : RangeOrder) (fuel : nat)
    (rowCount : Z) (options : TableOptions)
    : option (PaginationInfo.t * string * string) :=
  let paginationInfo := calculatePagination rowCount (Pagination options) in
  match Pagination options with
  | Some pagination =>
      if Pagination.Enabled pagination then
        let info :=
          if Pagination.ShowInfo pagination
          then generatePaginationInfoHTML paginationInfo else "" in
        if Pagination.ShowControls pagination then
          match generatePaginationHTML order fuel paginationInfo pagination
                  (RenderHTML_paginationParams options pagination
                                               paginationInfo) with
          | Some controls => Some (paginationInfo, controls, info)
          | None => None
          end
        else Some (paginationInfo, "", info)
      else Some (paginationInfo, "", "")
  | None => Some (paginationInfo, "", "")
  end.

(** ** The in-memory renderer ([tablerenderer.go])

    It shares the names of the database-paginated one; its [Pagination]
    has no [TotalCount], [ShowPageSizer] or [PageSizeOptions], which the
    functions below never read. *)

Module InMemory.

Definition calculatePagination (totalRows : Z)
    (pagination : option Pagination.t) : PaginationInfo.t :=
  match pagination with
  | None => PaginationInfo.mk 1 1 totalRows totalRows 1 totalRows
  | Some p =>
      if negb (Pagination.Enabled p) || (Pagination.PageSize p <=? 0) then
        PaginationInfo.mk 1 1 totalRows totalRows 1 totalRows
      else
        let currentPage := Pagination.CurrentPage p in
        let currentPage := if currentPage <? 1 then 1 else currentPage in
        let totalPages :=
          div (sub (add totalRows (Pagination.PageSize p)) 1)
              (Pagination.PageSize p) in
        let currentPage :=
          if currentPage >? totalPages then totalPages else currentPage in
        let startRow :=
          add (mul (sub currentPage 1) (Pagination.PageSize p)) 1 in
        let endRow := mul currentPage (Pagination.PageSize p) in
        let endRow := if endRow >? totalRows then totalRows else endRow in
        PaginationInfo.mk currentPage totalPages totalRows
                          (Pagination.PageSize p) startRow endRow
  end.

(** [rows[lo:hi]]: a run-time panic unless [0 <= lo <= hi <= len(rows)]
    (the upper limit of a slice expression is the capacity; where the
    program slices, [hi] has been clamped to the length before). *)
Definition slice {A : Type} (rows : list A) (lo hi : Z) : Result (list A) :=
  if (0 <=? lo) && (lo <=? hi) && (hi <=? Z.of_nat (length rows))
  then Ok (take (Z.to_nat (hi - lo)) (drop (Z.to_nat lo) rows))
  else Panicked.

Definition paginateRows {A : Type} (rows : list A)
    (pagination : option Pagination.t) : Result (list A) :=
  match pagination with
  | None => Ok rows
  | Some p =>
      if negb (Pagination.Enabled p) || (Pagination.PageSize p <=? 0)
      then Ok rows
      else
        let totalRows := Z.of_nat (length rows) in
        let paginationInfo := calculatePagination totalRows pagination in
        let startIndex := sub (PaginationInfo.StartRow paginationInfo) 1 in
        let endIndex := PaginationInfo.EndRow paginationInfo in
        if startIndex >=? totalRows then Ok []
        else
          let endIndex :=
            if endIndex >? totalRows then totalRows else endIndex in
          slice rows startIndex endIndex
  end.

(** The closure [generateURL] of the in-memory generatePaginationHTML. *)
Definition generateURL (baseURL queryParam : string) (page : Z) : string :=
  if String.eqb baseURL "" then "?" ++ queryParam ++ "=" ++ fmt.Sprintd page
  else if strings.Contains baseURL qmark
  then baseURL ++ "&" ++ queryParam ++ "=" ++ fmt.Sprintd page
  else baseURL ++ "?" ++ queryParam ++ "=" ++ fmt.Sprintd page.

Definition NewPagination (pageSize currentPage : Z) : Pagination.t :=
  let pageSize := if pageSize <=? 0 then 10 else pageSize in
  let currentPage := if currentPage <=? 0 then 1 else currentPage in
  Pagination.mk true pageSize currentPage true true false [] "" "page" true 0.

Definition NewPaginationWithURL (pageSize currentPage : Z)
    (baseURL queryParam : string) : Pagination.t :=
  let pagination := NewPagination pageSize currentPage in
  Pagination.mk (Pagination.Enabled pagination)
    (Pagination.PageSize pagination) (Pagination.CurrentPage pagination)
    (Pagination.ShowControls pagination) (Pagination.ShowInfo pagination)
    (Pagination.ShowPageSizer pagination)
    (Pagination.PageSizeOptions pagination) baseURL
    (if negb (String.eqb queryParam "") then queryParam
     else Pagination.QueryParam pagination)
    (Pagination.PreserveQuery pagination) (Pagination.TotalCount pagination).

Record TableData := mkTable {
  Headers : list string;
  Rows : list (list Value);
  Data : option Value;
  Options : TableOptions
}.

Definition SetPage (data : TableData) (page : Z) : TableData :=
  match Pagination (Options data) with
  | Some p =>
      let newPagination :=
        Pagination.mk (Pagination.Enabled p) (Pagination.PageSize p) page
          (Pagination.ShowControls p) (Pagination.ShowInfo p)
          (Pagination.ShowPageSizer p) (Pagination.PageSizeOptions p)
          (Pagination.BaseURL p) (Pagination.QueryParam p)
          (Pagination.PreserveQuery p) (Pagination.TotalCount p) in
      mkTable (Headers data) (Rows data) (Data data)
        (mkOptions (CSSClass (Options data)) (ID (Options data))
           (Striped (Options data)) (Bordered (Options data))
           (Responsive (Options data)) (Style (Options data))
           (Some newPagination) (Sorting (Options data))
           (Search (Options data)))
  | None => data
  end.

Definition CreatePaginatedData (data : option Value)
    (baseURL queryString : string) (pageSize : Z) : TableData :=
  let currentPage := ParsePageFromQuery queryString "page" in
  mkTable [] [] data
    (mkOptions "" "" true true true ""
       (Some (Pagination.mk true pageSize currentPage true true false []
                            baseURL "page" true 0))
       None None).

(** RenderHTML up to the rows it hands to the template: the headers and
    rows as resolved from [Data] or the explicit fields, then the page of
    rows that paginateRows cuts out. *)
Definition RenderHTML_rows (data : TableData)
    : Result (list string * list (list Value)) :=
  let resolved :=
    match Data data with
    | Some d =>
        match convertStructSliceToRows d with
        | Ok (headers, rows) =>
            Ok (if (0 <? length (Headers data))%nat then Headers data
                else headers, rows)
        | Err msg => Err ("failed to convert struct data: " ++ msg)
        | Panicked => Panicked
        end
    | None => Ok (Headers data, Rows data)
    end in
  match resolved with
  | Ok (headers, rows) =>
      match paginateRows rows (Pagination (Options data)) with
      | Ok paginatedRows => Ok (headers, paginatedRows)
      | Err msg => Err msg
      | Panicked => Panicked
      end
  | Err msg => Err msg
  | Panicked => Panicked
  end.

End InMemory.

(** ** Vocabulary of the further properties *)

(** Following a page link: the server reads the page with
    ParsePageFromQuery from the text behind the first [?] of the link. *)
Definition followPageLink (pagination : Pagination.t) (url : string) : Z :=
  ParsePageFromQuery (afterFirstQmark url) (Pagination.QueryParam pagination).

(** What an item of the pagination controls has to do, for a current page
    and a number of pages. *)
Definition navItemLeads (pagination : Pagination.t)
    (currentPage totalPages : Z) (item : NavItem) : Prop :=
  match item with
  | PrevLink url =>
      1 < currentPage /\ followPageLink pagination url = currentPage - 1
  | PrevDisabled => currentPage <= 1
  | PageActive i => i = currentPage
  | PageLink url i =>
      i <> currentPage /\ 1 <= i <= totalPages /\
      followPageLink pagination url = i
  | NextLink url =>
      currentPage < totalPages /\
      followPageLink pagination url = currentPage + 1
  | NextDisabled => totalPages <= currentPage
  end.

(** Parameters a link can carry without damage: keys free of [&], [=] and
    [?], values free of [&] and [?]. *)
Definition carriedIntact (m : gmap string string) : Prop :=
  forall key value,
    m !! key = Some value ->
    plainName key /\ ampFree value /\ strings.Contains value qmark = false.

(** What RenderHTML owes a request for [queryString] over [totalCount]
    rows in pages of [pageSize]: pagination pieces for the requested page,
    or for the last page when the request lies behind it. *)
Definition rendersPage (queryString : string) (totalCount pageSize : Z)
    (rendered : option (PaginationInfo.t * string * string)) : Prop :=
  exists info controls infoHTML,
    rendered = Some (info, controls, infoHTML) /\
    PaginationInfo.TotalRows info = totalCount /\
    PaginationInfo.TotalPages info = ceil_div totalCount pageSize /\
    PaginationInfo.CurrentPage info
    = Z.min (ParsePageFromQuery queryString "page")
            (PaginationInfo.TotalPages info) /\
    1 <= PaginationInfo.CurrentPage info <= PaginationInfo.TotalPages info.

(** * Properties *)

(** ** Integers *)

Lemma wrap_id z : is_int z -> wrap z = z.
Proof.
  unfold is_int, wrap, int_min, int_max. intros H.
  rewrite Z.mod_small; lia.
Qed.

Lemma wrap_is_int z : is_int (wrap z).
Proof.
  unfold is_int, wrap, int_min, int_max.
  pose proof (Z.mod_pos_bound (z + 2 ^ 63) (2 ^ 64) ltac:(lia)). lia.
Qed.

(** Intermediate results may wrap as long as the final one fits. *)
Lemma wrap_add_l a b : wrap (wrap a + b) = wrap (a + b).
Proof.
  unfold wrap. f_equal.
  replace ((a + 2 ^ 63) mod 2 ^ 64 - 2 ^ 63 + b + 2 ^ 63)
    with ((a + 2 ^ 63) mod 2 ^ 64 + b) by lia.
  rewrite Z.add_mod_idemp_l by lia. f_equal. lia.
Qed.

(** [ceil_div n d] is the least [q] with [n <= q * d]. *)
Lemma ceil_div_spec n d :
  0 < d -> (ceil_div n d - 1) * d < n <= ceil_div n d * d.
Proof.
  intros Hd. unfold ceil_div.
  pose proof (Z.div_mod n d ltac:(lia)) as Hdm.
  pose proof (Z.mod_pos_bound n d Hd) as Hr.
  destruct (Z.eqb_spec (n mod d) 0); nia.
Qed.

Lemma ceil_div_unique n d q :
  0 < d -> (q - 1) * d < n <= q * d -> ceil_div n d = q.
Proof.
  intros Hd Hq. pose proof (ceil_div_spec n d Hd). nia.
Qed.

(** The program's [(n + d - 1) / d] is the ceiling when nothing wraps. *)
Lemma quot_ceiling n d :
  0 <= n -> 0 < d -> Z.quot (n + d - 1) d = ceil_div n d.
Proof.
  intros Hn Hd. rewrite Z.quot_div_nonneg by lia.
  symmetry. apply ceil_div_unique; [lia |].
  pose proof (Z.div_mod (n + d - 1) d ltac:(lia)).
  pose proof (Z.mod_pos_bound (n + d - 1) d Hd). nia.
Qed.

Lemma ceil_div_pos n d : 1 <= n -> 0 < d -> 1 <= ceil_div n d.
Proof.
  intros Hn Hd. pose proof (ceil_div_spec n d Hd). nia.
Qed.

Lemma ceil_div_le n d : 0 <= n -> 0 < d -> ceil_div n d <= n.
Proof.
  intros Hn Hd. pose proof (ceil_div_spec n d Hd). nia.
Qed.

(** ** calculatePagination *)

Lemma totalPages_no_wrap n d :
  0 <= n -> 1 <= d -> n + d - 1 <= int_max ->
  div (sub (add n d) 1) d = ceil_div n d.
Proof.
  intros Hn Hd Hmax. unfold div, sub, add.
  assert (Hb : int_max = 2 ^ 63 - 1) by reflexivity.
  assert (Hm : int_min = - 2 ^ 63) by reflexivity.
  replace (wrap (n + d) - 1) with (wrap (n + d) + -1) by lia.
  rewrite wrap_add_l.
  replace (n + d + -1) with (n + d - 1) by lia.
  rewrite (wrap_id (n + d - 1)) by (unfold is_int; lia).
  rewrite quot_ceiling by lia.
  apply wrap_id. unfold is_int.
  pose proof (ceil_div_le n d Hn ltac:(lia)).
  pose proof (ceil_div_spec n d ltac:(lia)).
  assert (0 <= ceil_div n d) by nia. lia.
Qed.

Lemma calculatePagination_enabled cnt p :
  Pagination.Enabled p = true -> 1 <= Pagination.PageSize p ->
  let rows := effectiveTotalRows cnt p in
  let pages :=
    div (sub (add rows (Pagination.PageSize p)) 1) (Pagination.PageSize p) in
  PaginationInfo.TotalRows (calculatePagination cnt (Some p)) = rows /\
  PaginationInfo.TotalPages (calculatePagination cnt (Some p)) = pages /\
  PaginationInfo.CurrentPage (calculatePagination cnt (Some p)) =
    Z.min (Z.max 1 (Pagination.CurrentPage p)) pages.
Proof.
  intros He Hps. unfold calculatePagination, effectiveTotalRows.
  rewrite He. destruct (Z.leb_spec (Pagination.PageSize p) 0); [lia |].
  cbn [negb orb PaginationInfo.TotalRows PaginationInfo.TotalPages
       PaginationInfo.CurrentPage].
  repeat split.
  destruct (Z.ltb_spec (Pagination.CurrentPage p) 1);
    match goal with |- context [?a >? ?b] =>
      destruct (Z.gtb_spec a b) end; lia.
Qed.

(** C1 (as amended).  With pagination enabled, [pageSize >= 1], at least
    one row and [totalRows + pageSize - 1] within the range of [int],
    [TotalPages] is the integer ceiling of [totalRows / pageSize] and is at
    least 1; [totalRows] is [TotalCount], or the size of the current page
    when [TotalCount] is 0. *)
Theorem C1_totalPages_ceiling cnt p :
  Pagination.Enabled p = true ->
  1 <= Pagination.PageSize p ->
  1 <= effectiveTotalRows cnt p ->
  effectiveTotalRows cnt p + Pagination.PageSize p - 1 <= int_max ->
  PaginationInfo.TotalRows (calculatePagination cnt (Some p))
    = effectiveTotalRows cnt p /\
  PaginationInfo.TotalPages (calculatePagination cnt (Some p))
    = ceil_div (effectiveTotalRows cnt p) (Pagination.PageSize p) /\
  1 <= PaginationInfo.TotalPages (calculatePagination cnt (Some p)).
Proof.
  intros He Hps Hrows Hmax.
  destruct (calculatePagination_enabled cnt p He Hps) as (Hr & Hp & _).
  rewrite Hr, Hp, totalPages_no_wrap by lia.
  repeat split. apply ceil_div_pos; lia.
Qed.

Lemma C1_totalPages_ceiling_witness :
  let p := pagination_of 10 3 47 in
  (Pagination.Enabled p = true /\ 1 <= Pagination.PageSize p /\
   1 <= effectiveTotalRows 7 p /\
   effectiveTotalRows 7 p + Pagination.PageSize p - 1 <= int_max) /\
  PaginationInfo.TotalRows (calculatePagination 7 (Some p)) = 47 /\
  PaginationInfo.TotalPages (calculatePagination 7 (Some p)) = 5 /\
  1 <= PaginationInfo.TotalPages (calculatePagination 7 (Some p)).
Proof.
  cbv zeta. split; [vm_compute; repeat split; congruence |].
  apply (C1_totalPages_ceiling 7 (pagination_of 10 3 47));
    vm_compute; congruence.
Defined.

(** C1 as stated fails without rows: no rows and page size 10 give
    [TotalPages = 0], which is the ceiling of 0/10 but is not at least 1. *)
Lemma C1_zero_rows_counterexample :
  let p := pagination_of 10 1 0 in
  Pagination.Enabled p = true /\ 1 <= Pagination.PageSize p /\
  0 <= effectiveTotalRows 0 p /\
  PaginationInfo.TotalPages (calculatePagination 0 (Some p)) = 0 /\
  ~ (PaginationInfo.TotalPages (calculatePagination 0 (Some p))
       = ceil_div (effectiveTotalRows 0 p) (Pagination.PageSize p) /\
     1 <= PaginationInfo.TotalPages (calculatePagination 0 (Some p))).
Proof.
  vm_compute. repeat split; try congruence. intros [_ H]. apply H. reflexivity.
Qed.

(** The sum [totalRows + pageSize - 1] is formed in [int]: when it exceeds
    the range, the quotient is not the ceiling. *)
Lemma totalPages_wraps :
  let p := pagination_of 2 1 int_max in
  PaginationInfo.TotalPages (calculatePagination 0 (Some p)) = - 2 ^ 62 /\
  ceil_div (effectiveTotalRows 0 p) (Pagination.PageSize p) = 2 ^ 62.
Proof. vm_compute. split; reflexivity. Qed.

(** With at least one row and no wrap-around the requested page is clamped
    into [1 .. TotalPages]. *)
Lemma currentPage_clamped cnt p :
  Pagination.Enabled p = true ->
  1 <= Pagination.PageSize p ->
  1 <= effectiveTotalRows cnt p ->
  effectiveTotalRows cnt p + Pagination.PageSize p - 1 <= int_max ->
  1 <= PaginationInfo.CurrentPage (calculatePagination cnt (Some p))
    <= PaginationInfo.TotalPages (calculatePagination cnt (Some p)).
Proof.
  intros He Hps Hrows Hmax.
  destruct (calculatePagination_enabled cnt p He Hps) as (_ & Hp & Hc).
  rewrite Hc, Hp, totalPages_no_wrap by lia.
  pose proof (ceil_div_pos (effectiveTotalRows cnt p) (Pagination.PageSize p)
                ltac:(lia) ltac:(lia)).
  lia.
Qed.

(** C2 at the failing input.  An enabled configuration with page size 10,
    requested page 1 and no rows ([TotalCount = 0], empty current page):
    the lower clamp sets the page to 1, the upper clamp then lowers it to
    [TotalPages = 0], so [1 <= CurrentPage] does not hold. *)
Theorem C2_currentPage_zero_rows :
  let info := calculatePagination 0 (Some (pagination_of 10 1 0)) in
  PaginationInfo.CurrentPage info = 0 /\
  PaginationInfo.TotalPages info = 0 /\
  PaginationInfo.StartRow info = -9 /\
  ~ (1 <= PaginationInfo.CurrentPage info <= PaginationInfo.TotalPages info).
Proof.
  vm_compute. repeat split; try congruence. intros [H _]. apply H. reflexivity.
Qed.

(** ** The window of page numbers *)

Lemma pageWindow_small info :
  PaginationInfo.TotalPages info <= 5 ->
  pageWindow info = (1, PaginationInfo.TotalPages info).
Proof.
  intros H. unfold pageWindow.
  destruct (Z.gtb_spec (PaginationInfo.TotalPages info) 5); [lia | reflexivity].
Qed.

Lemma pageWindow_large info :
  5 < PaginationInfo.TotalPages info ->
  PaginationInfo.TotalPages info <= int_max ->
  int_min + 2 <= PaginationInfo.CurrentPage info <= int_max - 2 ->
  let start :=
    Z.min (Z.max (PaginationInfo.CurrentPage info - 2) 1)
          (PaginationInfo.TotalPages info - 4) in
  pageWindow info = (start, start + 4).
Proof.
  intros Htp Hmax Hcp.
  assert (Hb : int_max = 2 ^ 63 - 1) by reflexivity.
  assert (Hm : int_min = - 2 ^ 63) by reflexivity.
  assert (E1 : sub (PaginationInfo.CurrentPage info) 2
               = PaginationInfo.CurrentPage info - 2)
    by (apply wrap_id; unfold is_int; lia).
  assert (E2 : sub (PaginationInfo.TotalPages info) 4
               = PaginationInfo.TotalPages info - 4)
    by (apply wrap_id; unfold is_int; lia).
  unfold pageWindow. cbv zeta. rewrite !E1, !E2.
  destruct (Z.gtb_spec (PaginationInfo.TotalPages info) 5); [| lia].
  destruct (Z.ltb_spec (PaginationInfo.CurrentPage info - 2) 1).
  - assert (E3 : add 1 4 = 5) by reflexivity. rewrite E3.
    destruct (Z.gtb_spec 5 (PaginationInfo.TotalPages info)); [lia |].
    f_equal; lia.
  - assert (E3 : add (PaginationInfo.CurrentPage info - 2) 4
                 = PaginationInfo.CurrentPage info + 2)
      by (unfold add; rewrite wrap_id; unfold is_int; lia).
    rewrite E3.
    destruct (Z.gtb_spec (PaginationInfo.CurrentPage info + 2)
                         (PaginationInfo.TotalPages info)).
    + destruct (Z.ltb_spec (PaginationInfo.TotalPages info - 4) 1); [lia |].
      f_equal; lia.
    + f_equal; lia.
Qed.

(** The loop visits [i, i+1, .., end] when [end] is below the largest
    [int], and [end - i + 2] units of fuel are enough. *)
Lemma pageLoop_runs url cp end_ :
  end_ < int_max ->
  forall fuel i k,
    int_min <= i -> i <= end_ + 1 ->
    end_ - i + 1 < Z.of_nat fuel ->
    exists items k',
      pageLoop fuel url cp i end_ k = Some (items, k') /\
      pageNumbers items = seqZ i (end_ - i + 1).
Proof.
  intros Hend. induction fuel as [| fuel IH]; intros i k Hlo Hi Hfuel; [lia |].
  assert (Hb : int_max = 2 ^ 63 - 1) by reflexivity.
  assert (Hm : int_min = - 2 ^ 63) by reflexivity.
  cbn [pageLoop]. destruct (Z.leb_spec i end_) as [Hle | Hgt].
  - unfold add. rewrite (wrap_id (i + 1)) by (unfold is_int; lia).
    rewrite (seqZ_cons i) by lia.
    replace (Z.succ i) with (i + 1) by lia.
    replace (Z.pred (end_ - i + 1)) with (end_ - (i + 1) + 1) by lia.
    destruct (i =? cp).
    + destruct (IH (i + 1) k) as (items & k' & Hrun & Hnum); [lia .. |].
      rewrite Hrun. exists (PageActive i :: items), k'. split; [done |].
      cbn. by rewrite <- Hnum.
    + destruct (IH (i + 1) (S k)) as (items & k' & Hrun & Hnum); [lia .. |].
      rewrite Hrun. exists (PageLink (url k i) i :: items), k'.
      split; [done |]. cbn. by rewrite <- Hnum.
  - exists [], k. split; [done |]. by rewrite seqZ_nil by lia.
Qed.

Lemma generatePaginationItems_numbers order fuel info pagination m s e :
  pageWindow info = (s, e) ->
  e < int_max -> int_min <= s -> s <= e + 1 ->
  e - s + 1 < Z.of_nat fuel ->
  exists items,
    generatePaginationItems order fuel info pagination m = Some items /\
    pageNumbers items = seqZ s (e - s + 1).
Proof.
  intros Hw He Hs Hse Hfuel. unfold generatePaginationItems. rewrite Hw.
  destruct (PaginationInfo.CurrentPage info >? 1);
    match goal with |- context [pageLoop fuel ?u ?c s e ?k] =>
      destruct (pageLoop_runs u c e He fuel s k Hs Hse Hfuel)
        as (items & k' & Hrun & Hnum); rewrite Hrun end;
    eexists; (split; [reflexivity |]);
    unfold pageNumbers in *; cbn [flat_map app]; rewrite flat_map_app, Hnum;
    destruct (PaginationInfo.CurrentPage info <? PaginationInfo.TotalPages info);
    cbn [flat_map app]; apply app_nil_r.
Qed.

(** C5 (as amended).  For a PaginationInfo with [2 <= TotalPages]: with at
    most 5 pages the numbered items are exactly the pages 1 to TotalPages;
    with more than 5 pages, provided [CurrentPage - 2] and the window's end
    stay within [int] and the window does not end at the largest [int],
    they are exactly the 5 pages from
    [start = min (max (CurrentPage - 2) 1) (TotalPages - 4)]; six units of
    fuel always suffice, and generatePaginationHTML returns the markup of
    these items. *)
Theorem C5_page_window order fuel info pagination m :
  (6 <= fuel)%nat ->
  2 <= PaginationInfo.TotalPages info <= int_max ->
  (5 < PaginationInfo.TotalPages info ->
   int_min + 2 <= PaginationInfo.CurrentPage info <= int_max - 2 /\
   ~ (PaginationInfo.TotalPages info = int_max /\
      PaginationInfo.CurrentPage info = int_max - 2)) ->
  exists items,
    generatePaginationItems order fuel info pagination m = Some items /\
    generatePaginationHTML order fuel info pagination m
      = Some (navHTML items) /\
    pageNumbers items =
      if PaginationInfo.TotalPages info <=? 5
      then seqZ 1 (PaginationInfo.TotalPages info)
      else seqZ (Z.min (Z.max (PaginationInfo.CurrentPage info - 2) 1)
                       (PaginationInfo.TotalPages info - 4)) 5.
Proof.
  intros Hfuel [Htp Hmax] Hlarge.
  assert (Hb : int_max = 2 ^ 63 - 1) by reflexivity.
  assert (Hm : int_min = - 2 ^ 63) by reflexivity.
  assert (Hhtml : forall items,
    generatePaginationItems order fuel info pagination m = Some items ->
    generatePaginationHTML order fuel info pagination m = Some (navHTML items)).
  { intros items Hi. unfold generatePaginationHTML. rewrite Hi.
    destruct (Z.leb_spec (PaginationInfo.TotalPages info) 1); [lia | done]. }
  destruct (Z.leb_spec (PaginationInfo.TotalPages info) 5) as [Hsmall | Hbig].
  - destruct (generatePaginationItems_numbers order fuel info pagination m
                1 (PaginationInfo.TotalPages info)) as (items & Hi & Hn);
      [by apply pageWindow_small | lia .. |].
    exists items. split; [done |]. split; [by apply Hhtml |].
    rewrite Hn. f_equal. lia.
  - destruct (Hlarge Hbig) as [Hcp Hnot].
    pose proof (pageWindow_large info Hbig Hmax Hcp) as Hw. cbv zeta in Hw.
    set (s := Z.min (Z.max (PaginationInfo.CurrentPage info - 2) 1)
                    (PaginationInfo.TotalPages info - 4)) in *.
    destruct (generatePaginationItems_numbers order fuel info pagination m
                s (s + 4)) as (items & Hi & Hn); [done | lia .. |].
    exists items. split; [done |]. split; [by apply Hhtml |].
    rewrite Hn. f_equal. lia.
Qed.

Lemma C5_page_window_witness :
  (6 <= 6)%nat /\
  exists items,
    generatePaginationItems listedOrder 6
      (PaginationInfo.mk 1 12 120 10 1 10) (pagination_of 10 1 120) ∅
      = Some items /\
    generatePaginationHTML listedOrder 6
      (PaginationInfo.mk 1 12 120 10 1 10) (pagination_of 10 1 120) ∅
      = Some (navHTML items) /\
    pageNumbers items = [1; 2; 3; 4; 5].
Proof.
  split; [lia |].
  apply (C5_page_window listedOrder 6 (PaginationInfo.mk 1 12 120 10 1 10)
                        (pagination_of 10 1 120) ∅).
  - lia.
  - vm_compute. split; congruence.
  - intros _. vm_compute. repeat split; try congruence.
    intros [H _]. discriminate H.
Defined.

(** C5 as stated fails where the window arithmetic leaves the range of
    [int].  One row per page, [int_max] rows and the last page requested:
    calculatePagination returns [CurrentPage = TotalPages = int_max];
    [start + 4] wraps to a negative [end], the loop body never runs and no
    numbered item is written, where the claim asks for the five pages
    ending at [TotalPages]. *)
Lemma C5_window_wraps_counterexample :
  let p := pagination_of 1 int_max int_max in
  let info := calculatePagination 0 (Some p) in
  2 <= PaginationInfo.TotalPages info /\
  PaginationInfo.CurrentPage info = int_max /\
  PaginationInfo.TotalPages info = int_max /\
  pageWindow info = (int_max - 2, int_min + 1) /\
  generatePaginationItems listedOrder 6 info p ∅
    = Some [PrevLink "?page=9223372036854775806"; NextDisabled] /\
  pageNumbers [PrevLink "?page=9223372036854775806"; NextDisabled]
    <> seqZ (Z.min (Z.max (PaginationInfo.CurrentPage info - 2) 1)
                   (PaginationInfo.TotalPages info - 4)) 5.
Proof.
  vm_compute. repeat split; congruence.
Qed.

(** When the window ends at the largest [int] the loop counter wraps
    instead of passing [end]: no amount of fuel ends the loop. *)
Lemma pageLoop_diverges url cp fuel :
  forall i k, is_int i -> pageLoop fuel url cp i int_max k = None.
Proof.
  induction fuel as [| fuel IH]; intros i k Hi; [reflexivity |].
  cbn [pageLoop]. destruct (Z.leb_spec i int_max) as [_ | Hgt].
  - destruct (i =? cp); unfold add; by rewrite IH by apply wrap_is_int.
  - unfold is_int in Hi. lia.
Qed.

(** ** Strings *)

Lemma append_cons (a : ascii) (s t : string) :
  String a s ++ t = String a (s ++ t).
Proof. reflexivity. Qed.

Lemma append_nil_l (s : string) : "" ++ s = s.
Proof. reflexivity. Qed.

Lemma append_nil_r (s : string) : s ++ "" = s.
Proof. induction s as [| a s IH]; [done |]. by rewrite append_cons, IH. Qed.

Lemma append_assoc (s1 s2 s3 : string) : (s1 ++ s2) ++ s3 = s1 ++ s2 ++ s3.
Proof.
  induction s1 as [| a s1 IH]; [done |]. by rewrite !append_cons, IH.
Qed.

Lemma concat_nosep_app (xs ys : list string) :
  String.concat "" (xs ++ ys) = String.concat "" xs ++ String.concat "" ys.
Proof.
  induction xs as [| x xs IH]; [done |].
  destruct xs as [| x' xs].
  - cbn [app String.concat]. destruct ys as [| y ys].
    + by rewrite append_nil_r.
    + done.
  - change ((x :: x' :: xs) ++ ys)%list with (x :: (x' :: xs) ++ ys)%list.
    cbn [String.concat app] in *. rewrite IH. cbn [append].
    by rewrite append_assoc.
Qed.

Lemma concat_nosep_cons (x : string) (xs : list string) :
  String.concat "" (x :: xs) = x ++ String.concat "" xs.
Proof. apply (concat_nosep_app [x] xs). Qed.

(** [Join] of a non-empty list: the head, then every other element behind a
    separator. *)
Lemma Join_cons (x : string) (xs : list string) (sep : string) :
  strings.Join (x :: xs) sep
  = x ++ String.concat "" (List.map (fun y => sep ++ y) xs).
Proof.
  unfold strings.Join. revert x.
  induction xs as [| y ys IH]; intros x.
  - cbn. by rewrite append_nil_r.
  - change (String.concat sep (x :: y :: ys))
      with (x ++ sep ++ String.concat sep (y :: ys)).
    rewrite IH. cbn [List.map]. rewrite concat_nosep_cons.
    by rewrite append_assoc.
Qed.

Lemma appendPreserved_spec keep visit params :
  appendPreserved keep visit params
  = (params
     ++ List.map (fun kv => fmt.Sprint_pair (fst kv) (snd kv))
                 (List.filter (fun kv => keep (fst kv)) visit))%list.
Proof.
  unfold appendPreserved. revert params.
  induction visit as [| kv visit IH]; intros params; cbn.
  - by rewrite app_nil_r.
  - destruct (keep (fst kv)); rewrite IH; [| done].
    cbn. by rewrite <- app_assoc.
Qed.

(** A query string is its first pieces followed by ["&key=value"] for every
    preserved entry, in visiting order. *)
Lemma preserved_query keep visit (first : string) (others : list string) :
  strings.Join (appendPreserved keep visit (first :: others)) "&"
  = strings.Join (first :: others) "&"
    ++ String.concat ""
         (List.map ampPair (List.filter (fun kv => keep (fst kv)) visit)).
Proof.
  rewrite appendPreserved_spec. cbn [app]. rewrite !Join_cons.
  rewrite List.map_app, concat_nosep_app, List.map_map.
  by rewrite append_assoc.
Qed.

(** ** generateSortLinks *)

Lemma sortLinksLoop_length order s m hs :
  forall i links,
    length (sortLinksLoop order s m i hs links) = length links.
Proof.
  induction hs as [| h hs IH]; intros i links; [done |].
  cbn [sortLinksLoop]. by rewrite IH, length_insert.
Qed.

Lemma sortLinksLoop_before order s m hs :
  forall i links j,
    (j < i)%nat -> sortLinksLoop order s m i hs links !! j = links !! j.
Proof.
  induction hs as [| h hs IH]; intros i links j Hj; [done |].
  cbn [sortLinksLoop]. rewrite IH by lia.
  apply list_lookup_insert_ne. lia.
Qed.

(** Position [i + j] of the result holds the link of the [j]-th remaining
    header, built with the visiting order of that iteration. *)
Lemma sortLinksLoop_lookup order s m hs :
  forall i links j h,
    hs !! j = Some h ->
    (i + length hs <= length links)%nat ->
    sortLinksLoop order s m i hs links !! (i + j)%nat
    = Some (composeURL (Sorting.BaseURL s)
              (sortQueryString s h (order (i + j)%nat (map_to_list m)))).
Proof.
  induction hs as [| h0 hs IH]; intros i links j h Hj Hlen; [done |].
  cbn [sortLinksLoop length] in *. destruct j as [| j].
  - injection Hj as ->. rewrite Nat.add_0_r.
    rewrite sortLinksLoop_before by lia.
    apply list_lookup_insert_eq. lia.
  - replace (i + S j)%nat with (S i + j)%nat by lia.
    apply IH; [done |]. rewrite length_insert. lia.
Qed.

Lemma generateSortLinks_length order headers sorting m :
  length (generateSortLinks order headers sorting m) = length headers.
Proof.
  unfold generateSortLinks. destruct sorting as [s |].
  - destruct (Sorting.Enabled s); cbn [negb].
    + by rewrite sortLinksLoop_length, length_replicate.
    + apply length_replicate.
  - apply length_replicate.
Qed.

(** C10.  For every list of headers and every sorting configuration, nil
    and disabled included, generateSortLinks returns as many links as there
    are headers, so does the slice RenderHTML hands to the template, and a
    lookup at the position of any header succeeds. *)
Theorem C10_sort_links_in_bounds order headers :
  (forall sorting m,
     length (generateSortLinks order headers sorting m) = length headers) /\
  (forall options info,
     length (RenderHTML_sortLinks order headers options info)
     = length headers) /\
  (forall options info i header,
     headers !! i = Some header ->
     is_Some (RenderHTML_sortLinks order headers options info !! i)).
Proof.
  assert (Hlen : forall options info,
    length (RenderHTML_sortLinks order headers options info) = length headers).
  { intros options info. unfold RenderHTML_sortLinks.
    destruct (Sorting options) as [s |]; [| apply length_replicate].
    destruct (Sorting.Enabled s); [| apply length_replicate].
    apply generateSortLinks_length. }
  split; [intros; apply generateSortLinks_length |]. split; [done |].
  intros options info i header Hi. apply lookup_lt_is_Some.
  rewrite Hlen. by eapply lookup_lt_Some.
Qed.

Lemma sortQueryString_shape s header visit :
  sortQueryString s header visit
  = sortParamOf s ++ "=" ++ header ++ "&" ++ orderParamOf s ++ "="
    ++ toggledOrder s header
    ++ String.concat ""
         (List.map ampPair
            (List.filter
               (fun kv => negb (String.eqb (fst kv) (sortParamOf s))
                          && negb (String.eqb (fst kv) (orderParamOf s))
                          && negb (String.eqb (fst kv) "page"))
               visit)).
Proof.
  unfold sortQueryString. cbn [app].
  rewrite (preserved_query _ visit), Join_cons.
  cbn [List.map]. rewrite concat_nosep_cons.
  unfold fmt.Sprint_pair. cbn [String.concat].
  rewrite !append_assoc. reflexivity.
Qed.

Lemma toggledOrder_spec s header :
  (header = Sorting.SortBy s /\ Sorting.SortOrder s = "asc"
   -> toggledOrder s header = "desc") /\
  (~ (header = Sorting.SortBy s /\ Sorting.SortOrder s = "asc")
   -> toggledOrder s header = "asc").
Proof.
  unfold toggledOrder.
  destruct (String.eqb_spec (Sorting.SortBy s) header);
    destruct (String.eqb_spec (Sorting.SortOrder s) "asc");
    cbn [andb]; split; intros H; try done; try (destruct H; congruence).
  all: exfalso; apply H; by split.
Qed.

(** C3.  With sorting enabled, the link of the column [C] at position [i]
    is the base URL followed by [sortParam=C&orderParam=ord] and then only
    preserved pairs, none of which names the order or the sort parameter;
    [ord] is [desc] when [C] is the active SortBy and SortOrder is [asc],
    and [asc] in every other case. *)
Theorem C3_sort_link_order order headers s m i C :
  Sorting.Enabled s = true ->
  headers !! i = Some C ->
  exists (ord : string) (kept : list (string * string)),
    generateSortLinks order headers (Some s) m !! i
    = Some (composeURL (Sorting.BaseURL s)
              (sortParamOf s ++ "=" ++ C ++ "&" ++ orderParamOf s ++ "="
               ++ ord ++ String.concat "" (List.map ampPair kept))) /\
    Forall (fun kv => fst kv <> sortParamOf s /\ fst kv <> orderParamOf s)
           kept /\
    (C = Sorting.SortBy s /\ Sorting.SortOrder s = "asc" -> ord = "desc") /\
    (~ (C = Sorting.SortBy s /\ Sorting.SortOrder s = "asc") -> ord = "asc").
Proof.
  intros He Hi. eexists (toggledOrder s C), _. split; [| split].
  - unfold generateSortLinks. rewrite He. cbn [negb].
    rewrite (sortLinksLoop_lookup order s m headers 0 _ i C Hi)
      by (rewrite length_replicate; lia).
    by rewrite sortQueryString_shape.
  - apply List.Forall_forall. intros kv Hin.
    apply List.filter_In in Hin as [_ Hkeep].
    destruct (String.eqb_spec (fst kv) (sortParamOf s));
      destruct (String.eqb_spec (fst kv) (orderParamOf s)); done.
  - apply toggledOrder_spec.
Qed.

(** ** Preservation of query parameters by the page links *)

Lemma composeURL_prefix baseURL :
  exists prefix : string,
    forall queryString, composeURL baseURL queryString = prefix ++ queryString.
Proof.
  unfold composeURL. destruct (String.eqb baseURL "").
  - by exists "?".
  - destruct (strings.Contains baseURL qmark).
    + exists (baseURL ++ "&"). intros. by rewrite append_assoc.
    + exists (baseURL ++ "?"). intros. by rewrite append_assoc.
Qed.

Lemma generateURL_shape baseURL queryParam visit page :
  generateURL baseURL queryParam visit page
  = composeURL baseURL
      (queryParam ++ "=" ++ fmt.Sprintd page
       ++ String.concat ""
            (List.map ampPair
               (List.filter
                  (fun kv => negb (String.eqb (fst kv) queryParam)) visit))).
Proof.
  unfold generateURL. rewrite (preserved_query _ visit), Join_cons.
  cbn [List.map String.concat]. unfold fmt.Sprint_pair_d.
  rewrite !append_assoc. reflexivity.
Qed.

(** Preserved pairs all start with [&]. *)
Lemma ampPairs_start (l : list (string * string)) :
  String.concat "" (List.map ampPair l) = ""
  \/ exists rest : string, String.concat "" (List.map ampPair l) = "&" ++ rest.
Proof.
  destruct l as [| kv l]; [by left | right].
  cbn [List.map]. rewrite concat_nosep_cons. unfold ampPair at 1.
  rewrite append_assoc. eauto.
Qed.

Lemma ampPairs_carry (l : list (string * string)) key value (before : string) :
  In (key, value) l ->
  carriesPair (before ++ String.concat "" (List.map ampPair l)) key value.
Proof.
  intros Hin. apply List.in_split in Hin as (xs & ys & ->).
  rewrite List.map_app, concat_nosep_app. cbn [List.map].
  rewrite concat_nosep_cons.
  exists (before ++ String.concat "" (List.map ampPair xs)),
         (String.concat "" (List.map ampPair ys)).
  split; [by rewrite !append_assoc | apply ampPairs_start].
Qed.

Lemma generateURL_carries baseURL queryParam visit page
    (m : gmap string string) key value :
  visit ≡ₚ map_to_list m ->
  m !! key = Some value ->
  key <> queryParam ->
  carriesPair (generateURL baseURL queryParam visit page) key value.
Proof.
  intros Hperm Hm Hne. rewrite generateURL_shape.
  destruct (composeURL_prefix baseURL) as [prefix ->].
  rewrite <- !append_assoc. apply ampPairs_carry.
  apply List.filter_In. split.
  - apply list_elem_of_In. rewrite Hperm. by apply elem_of_map_to_list.
  - cbn. by destruct (String.eqb_spec key queryParam).
Qed.

Lemma pageLoop_urls (P : string -> Prop) url cp end_ :
  (forall k page, P (url k page)) ->
  forall fuel i k items k',
    pageLoop fuel url cp i end_ k = Some (items, k') ->
    Forall P (navURLs items).
Proof.
  intros HP. induction fuel as [| fuel IH]; intros i k items k' Hrun; [done |].
  cbn [pageLoop] in Hrun. destruct (i <=? end_).
  - destruct (i =? cp).
    + destruct (pageLoop fuel url cp (add i 1) end_ k)
        as [[rest k''] |] eqn:Hrest; [| done].
      injection Hrun as <- <-. cbn. by eapply IH.
    + destruct (pageLoop fuel url cp (add i 1) end_ (S k))
        as [[rest k''] |] eqn:Hrest; [| done].
      injection Hrun as <- <-. cbn. constructor; [apply HP | by eapply IH].
  - injection Hrun as <- <-. constructor.
Qed.

Lemma navURLs_app xs ys : navURLs (xs ++ ys) = (navURLs xs ++ navURLs ys)%list.
Proof. unfold navURLs. apply flat_map_app. Qed.

Lemma generatePaginationItems_urls (P : string -> Prop) order fuel info
    pagination m items :
  (forall k page,
     P (generateURL (Pagination.BaseURL pagination) (pageParam pagination)
                    (order k (map_to_list m)) page)) ->
  generatePaginationItems order fuel info pagination m = Some items ->
  Forall P (navURLs items).
Proof.
  intros HP. unfold generatePaginationItems.
  destruct (pageWindow info) as [start end_].
  destruct (PaginationInfo.CurrentPage info >? 1);
    match goal with |- context [pageLoop fuel ?u ?c start end_ ?k] =>
      destruct (pageLoop fuel u c start end_ k) as [[pages k'] |] eqn:Hrun
    end; try done;
    intros [= <-];
    apply (pageLoop_urls P _ _ _ HP) in Hrun;
    change (?x :: ?l ++ ?r)%list with ([x] ++ l ++ r)%list;
    rewrite !navURLs_app; repeat apply Forall_app_2; try done;
    try (destruct (PaginationInfo.CurrentPage info
                     <? PaginationInfo.TotalPages info));
    cbn; repeat constructor; apply HP.
Qed.

(** C4.  When the current query parameters hold entries for [search] and
    [sort_by] and neither is the page parameter, every URL the closure
    generateURL can build, and so every previous, next and numbered link
    that generatePaginationHTML writes, carries both [search=value] and
    [sort_by=value] unchanged, whatever order the map is visited in. *)
Theorem C4_page_links_preserve order pagination
    (m : gmap string string) searchValue sortValue :
  range_ok order ->
  m !! "search" = Some searchValue ->
  m !! "sort_by" = Some sortValue ->
  pageParam pagination <> "search" ->
  pageParam pagination <> "sort_by" ->
  (forall k page,
     let url := generateURL (Pagination.BaseURL pagination)
                            (pageParam pagination)
                            (order k (map_to_list m)) page in
     carriesPair url "search" searchValue /\
     carriesPair url "sort_by" sortValue) /\
  (forall fuel info items,
     generatePaginationItems order fuel info pagination m = Some items ->
     Forall (fun url => carriesPair url "search" searchValue /\
                        carriesPair url "sort_by" sortValue)
            (navURLs items)).
Proof.
  intros Hord Hsearch Hsort Hne1 Hne2.
  assert (Hall : forall k page,
    carriesPair (generateURL (Pagination.BaseURL pagination)
                   (pageParam pagination) (order k (map_to_list m)) page)
                "search" searchValue /\
    carriesPair (generateURL (Pagination.BaseURL pagination)
                   (pageParam pagination) (order k (map_to_list m)) page)
                "sort_by" sortValue).
  { intros k page.
    split; eapply generateURL_carries; eauto; apply Hord. }
  split; [exact Hall |].
  intros fuel info items Hitems.
  by eapply generatePaginationItems_urls; [| exact Hitems].
Qed.

(** ** The parameters RenderHTML passes to the page links *)

Lemma RenderHTML_paginationParams_search options pagination info search :
  Search options = Some search ->
  Search.Enabled search = true ->
  Search.SearchTerm search <> "" ->
  RenderHTML_paginationParams options pagination info
    !! searchParamOf search
  = Some (Search.SearchTerm search).
Proof.
  intros Hs He Hterm. unfold RenderHTML_paginationParams, withSearch.
  rewrite Hs, He.
  destruct (String.eqb_spec (Search.SearchTerm search) ""); [done |].
  cbn [negb andb]. apply lookup_insert_eq.
Qed.

Lemma RenderHTML_paginationParams_sort_by options pagination info sorting :
  Sorting options = Some sorting ->
  Sorting.Enabled sorting = true ->
  Sorting.SortBy sorting <> "" ->
  (forall search, Search options = Some search ->
                  searchParamOf search <> "sort_by") ->
  RenderHTML_paginationParams options pagination info !! "sort_by"
  = Some (Sorting.SortBy sorting).
Proof.
  intros Hs He Hby Hsearch. unfold RenderHTML_paginationParams, withSearch.
  rewrite Hs, He.
  destruct (String.eqb_spec (Sorting.SortBy sorting) ""); [done |].
  cbn [negb].
  set (base := <["sort_by" := Sorting.SortBy sorting]>
                 (parseQueryParams (Pagination.BaseURL pagination))).
  assert (Hbase : base !! "sort_by" = Some (Sorting.SortBy sorting))
    by apply lookup_insert_eq.
  set (withOrder := if negb (String.eqb (Sorting.SortOrder sorting) "")
                    then <["sort_order" := Sorting.SortOrder sorting]> base
                    else base).
  assert (Horder : withOrder !! "sort_by" = Some (Sorting.SortBy sorting)).
  { subst withOrder. destruct (negb _); [| done].
    by rewrite lookup_insert_ne. }
  set (withSize := if PaginationInfo.PageSize info >? 0
                   then <["page_size" :=
                            fmt.Sprintd (PaginationInfo.PageSize info)]>
                          withOrder
                   else withOrder).
  assert (Hsize : withSize !! "sort_by" = Some (Sorting.SortBy sorting)).
  { subst withSize. destruct (_ >? _); [| done].
    by rewrite lookup_insert_ne. }
  destruct (Search options) as [search |]; [| done].
  destruct (Search.Enabled search && _); [| done].
  rewrite lookup_insert_ne; [done |]. by apply Hsearch.
Qed.

(** With search and sorting active, every page link RenderHTML has written
    carries the search term and the sort column. *)
Lemma RenderHTML_page_links_preserve order fuel options pagination info
    sorting search items :
  range_ok order ->
  Sorting options = Some sorting ->
  Sorting.Enabled sorting = true ->
  Sorting.SortBy sorting <> "" ->
  Search options = Some search ->
  Search.Enabled search = true ->
  Search.SearchTerm search <> "" ->
  searchParamOf search <> "sort_by" ->
  pageParam pagination <> searchParamOf search ->
  pageParam pagination <> "sort_by" ->
  generatePaginationItems order fuel info pagination
    (RenderHTML_paginationParams options pagination info) = Some items ->
  Forall (fun url =>
            carriesPair url (searchParamOf search) (Search.SearchTerm search)
            /\ carriesPair url "sort_by" (Sorting.SortBy sorting))
         (navURLs items).
Proof.
  intros Hord Hs He Hby Hq Hqe Hterm Hne Hp1 Hp2 Hitems.
  eapply generatePaginationItems_urls; [| exact Hitems].
  intros k page. split; eapply generateURL_carries; try apply Hord.
  - by eapply RenderHTML_paginationParams_search.
  - congruence.
  - eapply RenderHTML_paginationParams_sort_by; try done.
    intros search' Hq'. congruence.
  - congruence.
Qed.

(** ** Concrete runs *)

Lemma listedOrder_ok : range_ok listedOrder.
Proof. intros k l. reflexivity. Qed.

Lemma reversedOrder_ok : range_ok reversedOrder.
Proof. intros k l. symmetry. apply Permutation_rev. Qed.

Lemma C3_sort_link_order_witness :
  let s := Sorting.mk true "Name" "asc" "/users" "" "" in
  let m : gmap string string := <["page" := "3"]> (<["page_size" := "25"]> ∅) in
  Sorting.Enabled s = true /\
  ["ID"; "Name"] !! 1%nat = Some "Name" /\
  exists (ord : string) (kept : list (string * string)),
    generateSortLinks reversedOrder ["ID"; "Name"] (Some s) m !! 1%nat
    = Some (composeURL (Sorting.BaseURL s)
              (sortParamOf s ++ "=" ++ "Name" ++ "&" ++ orderParamOf s ++ "="
               ++ ord ++ String.concat "" (List.map ampPair kept))) /\
    Forall (fun kv => fst kv <> sortParamOf s /\ fst kv <> orderParamOf s)
           kept /\
    ("Name" = Sorting.SortBy s /\ Sorting.SortOrder s = "asc"
     -> ord = "desc") /\
    (~ ("Name" = Sorting.SortBy s /\ Sorting.SortOrder s = "asc")
     -> ord = "asc").
Proof.
  cbv zeta. split; [reflexivity |]. split; [reflexivity |].
  apply (C3_sort_link_order reversedOrder ["ID"; "Name"]
           (Sorting.mk true "Name" "asc" "/users" "" "")
           (<["page" := "3"]> (<["page_size" := "25"]> ∅)) 1 "Name");
    reflexivity.
Defined.

Lemma C4_page_links_preserve_witness :
  let p := pagination_of 10 2 120 in
  let info := PaginationInfo.mk 2 12 120 10 11 20 in
  let m : gmap string string :=
    <["search" := "ann"]> (<["sort_by" := "Name"]> (<["page" := "2"]> ∅)) in
  range_ok reversedOrder /\
  m !! "search" = Some "ann" /\
  m !! "sort_by" = Some "Name" /\
  pageParam p <> "search" /\
  pageParam p <> "sort_by" /\
  exists items,
    generatePaginationItems reversedOrder 6 info p m = Some items /\
    length (navURLs items) = 6%nat /\
    Forall (fun url => carriesPair url "search" "ann" /\
                       carriesPair url "sort_by" "Name")
           (navURLs items).
Proof.
  cbv zeta.
  split; [apply reversedOrder_ok |].
  split; [reflexivity |]. split; [reflexivity |].
  split; [discriminate |]. split; [discriminate |].
  eexists. split; [vm_compute; reflexivity |]. split; [reflexivity |].
  destruct (C4_page_links_preserve reversedOrder (pagination_of 10 2 120)
              (<["search" := "ann"]>
                 (<["sort_by" := "Name"]> (<["page" := "2"]> ∅)))
              "ann" "Name") as [_ Hitems];
    [apply reversedOrder_ok | reflexivity | reflexivity
    | discriminate | discriminate |].
  apply (Hitems 6%nat (PaginationInfo.mk 2 12 120 10 11 20)).
  vm_compute. reflexivity.
Defined.

(** ** Normalisation of query inputs *)

Lemma Atoi_is_int s v : strconv.Atoi s = Some v -> is_int v.
Proof.
  unfold strconv.Atoi, is_int.
  destruct (match s with
            | String "+" r => (false, r)
            | String "-" r => (true, r)
            | _ => (false, s)
            end) as [neg body].
  destruct body as [| a body]; [done |].
  destruct (strconv.digits 0 (String a body)) as [n |]; [| done].
  destruct (Z.leb_spec int_min (if neg then - n else n));
    destruct (Z.leb_spec (if neg then - n else n) int_max);
    cbn [andb]; intros [= <-]; lia.
Qed.

Lemma ParsePageFromQuery_loop queryString paramName :
  ParsePageFromQuery queryString paramName
  = firstPage (if String.eqb paramName "" then "page" else paramName)
              (queryPairs queryString).
Proof.
  unfold ParsePageFromQuery, queryPairs.
  by destruct (String.eqb queryString "").
Qed.

Lemma ParseSortFromQuery_loop queryString sortParam orderParam :
  ParseSortFromQuery queryString sortParam orderParam
  = fold_left
      (sortStep (if String.eqb sortParam "" then "sort_by" else sortParam)
                (if String.eqb orderParam "" then "sort_order"
                 else orderParam))
      (queryPairs queryString) ("", "asc").
Proof.
  unfold ParseSortFromQuery, queryPairs.
  by destruct (String.eqb queryString "").
Qed.

Lemma firstPage_range paramName params :
  1 <= firstPage paramName params <= int_max.
Proof.
  assert (Hb : int_max = 2 ^ 63 - 1) by reflexivity.
  induction params as [| param rest IH]; cbn [firstPage]; [lia |].
  destruct (keyValue param) as [[key value] |]; [| done].
  destruct (String.eqb key paramName); [| done].
  destruct (strconv.Atoi value) as [page |] eqn:Hatoi; [| done].
  destruct (Z.gtb_spec page 0); [| done].
  apply Atoi_is_int in Hatoi. unfold is_int in Hatoi. lia.
Qed.

Lemma firstPage_default paramName params :
  Forall notAPage
    (flat_map
       (fun pair =>
          match keyValue pair with
          | Some (key, value) =>
              if String.eqb key paramName then [value] else []
          | None => []
          end)
       params) ->
  firstPage paramName params = 1.
Proof.
  induction params as [| param rest IH]; cbn [firstPage flat_map]; [done |].
  intros Hall. apply Forall_app in Hall as [Hhere Hrest].
  destruct (keyValue param) as [[key value] |]; [| by apply IH].
  destruct (String.eqb key paramName); [| by apply IH].
  apply Forall_cons_1 in Hhere as [Hbad _]. unfold notAPage in Hbad.
  destruct (strconv.Atoi value) as [page |]; [| by apply IH].
  destruct (Z.gtb_spec page 0); [lia | by apply IH].
Qed.

(** The order is only ever assigned [desc]. *)
Lemma sortStep_order sortParam orderParam sortBy sortOrder param :
  snd (sortStep sortParam orderParam (sortBy, sortOrder) param) = sortOrder
  \/ snd (sortStep sortParam orderParam (sortBy, sortOrder) param) = "desc".
Proof.
  unfold sortStep. destruct (keyValue param) as [[key value] |]; [| by left].
  destruct (String.eqb key sortParam); [by left |].
  destruct (String.eqb key orderParam); [| by left].
  destruct (String.eqb value "desc"); [by right | by left].
Qed.

Lemma sortLoop_order sortParam orderParam params :
  forall state,
    snd (fold_left (sortStep sortParam orderParam) params state) = snd state
    \/ snd (fold_left (sortStep sortParam orderParam) params state) = "desc".
Proof.
  induction params as [| param rest IH]; intros [sortBy sortOrder];
    cbn [fold_left]; [by left |].
  destruct (IH (sortStep sortParam orderParam (sortBy, sortOrder) param))
    as [-> | ->]; [| by right].
  apply sortStep_order.
Qed.

Lemma sortLoop_stays_asc sortParam orderParam params :
  Forall (fun value => value <> "desc")
    (flat_map
       (fun pair =>
          match keyValue pair with
          | Some (key, value) =>
              if String.eqb key orderParam then [value] else []
          | None => []
          end)
       params) ->
  forall sortBy,
    snd (fold_left (sortStep sortParam orderParam) params (sortBy, "asc"))
    = "asc".
Proof.
  induction params as [| param rest IH]; intros Hall sortBy;
    cbn [fold_left flat_map] in *; [done |].
  apply Forall_app in Hall as [Hhere Hrest].
  unfold sortStep at 2.
  destruct (keyValue param) as [[key value] |]; [| by apply IH].
  destruct (String.eqb key sortParam); [by apply IH |].
  destruct (String.eqb key orderParam); [| by apply IH].
  apply Forall_cons_1 in Hhere as [Hne _].
  destruct (String.eqb_spec value "desc"); [done | by apply IH].
Qed.

(** C9.  ParsePageFromQuery returns an [int] that is at least 1, and
    returns 1 when no value given to the page parameter is a positive
    number (the parameter is missing, or each of its values is not a
    number, zero or negative); ParseSortFromQuery returns the order [asc]
    or [desc], and [asc] when no value given to the order parameter is
    [desc].  Both are total functions of their arguments. *)
Theorem C9_query_inputs_normalized queryString paramName sortParam orderParam :
  1 <= ParsePageFromQuery queryString paramName <= int_max /\
  (Forall notAPage
     (paramValues (if String.eqb paramName "" then "page" else paramName)
                  queryString) ->
   ParsePageFromQuery queryString paramName = 1) /\
  (snd (ParseSortFromQuery queryString sortParam orderParam) = "asc" \/
   snd (ParseSortFromQuery queryString sortParam orderParam) = "desc") /\
  (Forall (fun value => value <> "desc")
     (paramValues (if String.eqb orderParam "" then "sort_order"
                   else orderParam) queryString) ->
   snd (ParseSortFromQuery queryString sortParam orderParam) = "asc").
Proof.
  rewrite ParsePageFromQuery_loop, ParseSortFromQuery_loop.
  split; [apply firstPage_range |].
  split; [apply firstPage_default |].
  split; [apply (sortLoop_order _ _ _ ("", "asc")) |].
  intros Hall. by apply sortLoop_stays_asc.
Qed.

Lemma C9_query_inputs_normalized_witness :
  ParsePageFromQuery "?page=-3&page=abc&page=0&sort_order=up" "" = 1 /\
  snd (ParseSortFromQuery "?page=-3&page=abc&page=0&sort_order=up" "" "")
  = "asc".
Proof.
  destruct (C9_query_inputs_normalized
              "?page=-3&page=abc&page=0&sort_order=up" "" "" "")
    as (_ & Hpage & _ & Horder).
  split.
  - apply Hpage.
    replace (paramValues _ _) with ["-3"; "abc"; "0"]
      by (vm_compute; reflexivity).
    repeat constructor; vm_compute; congruence.
  - apply Horder.
    replace (paramValues _ _) with ["up"] by (vm_compute; reflexivity).
    repeat constructor. discriminate.
Defined.

(** ** parseQueryParams *)

Lemma Contains_cut s sep :
  strings.Contains s sep = match strings.cut s sep with
                           | Some _ => true
                           | None => false
                           end.
Proof.
  induction s as [| a s IH]; cbn [strings.Contains strings.cut]; [done |].
  destruct (Ascii.eqb a sep); [done |].
  rewrite IH. by destruct (strings.cut s sep) as [[before after] |].
Qed.

Lemma Split_cut s sep :
  strings.Split s sep = match strings.cut s sep with
                        | Some (before, after) =>
                            before :: strings.Split after sep
                        | None => [s]
                        end.
Proof.
  induction s as [| a s IH]; cbn [strings.Split strings.cut]; [done |].
  destruct (Ascii.eqb a sep); [done |].
  rewrite IH. by destruct (strings.cut s sep) as [[before after] |].
Qed.

Lemma TrimPrefix_without s sep :
  strings.Contains s sep = false -> strings.TrimPrefix s sep = s.
Proof.
  destruct s as [| a s]; [done |]. cbn [strings.Contains strings.TrimPrefix].
  by destruct (Ascii.eqb a sep).
Qed.

Lemma keyValue_cut pair : keyValue pair = strings.cut pair eq_sign.
Proof.
  unfold keyValue, strings.SplitN2. rewrite Contains_cut.
  by destruct (strings.cut pair eq_sign) as [[key value] |].
Qed.

Lemma parse_loop_cut (pairs : list string) (params : gmap string string) :
  fold_left
    (fun params pair =>
       match keyValue pair with
       | Some (key, value) => <[key := value]> params
       | None => params
       end)
    pairs params
  = fold_left
      (fun params pair =>
         match strings.cut pair eq_sign with
         | Some (key, value) => <[key := value]> params
         | None => params
         end)
      pairs params.
Proof.
  revert params. induction pairs as [| pair pairs IH]; intros params; [done |].
  cbn [fold_left]. by rewrite keyValue_cut, IH.
Qed.

(** On an input with at most one [?], parseQueryParams is the parser the
    specification describes. *)
Lemma parseQueryParams_one_qmark urlOrQuery :
  strings.Contains (afterFirstQmark urlOrQuery) qmark = false ->
  parseQueryParams urlOrQuery = parse_as_specified urlOrQuery.
Proof.
  unfold parse_as_specified, afterFirstQmark. intros Hrest.
  unfold parseQueryParams.
  destruct (String.eqb_spec urlOrQuery "") as [-> | Hne]; [done |].
  rewrite (Contains_cut urlOrQuery), (Split_cut urlOrQuery).
  destruct (strings.cut urlOrQuery qmark) as [[before after] |] eqn:Hcut.
  - rewrite (Split_cut after). pose proof Hrest as Hrest'.
    rewrite Contains_cut in Hrest'.
    destruct (strings.cut after qmark) as [[? ?] |] eqn:Hcut'; [done |].
    rewrite TrimPrefix_without by done.
    destruct (String.eqb_spec after "") as [-> | Hne']; [done |].
    apply parse_loop_cut.
  - rewrite TrimPrefix_without by done.
    destruct (String.eqb_spec urlOrQuery ""); [done |].
    apply parse_loop_cut.
Qed.

Lemma cut_pair key value sep :
  strings.Contains key sep = false ->
  strings.cut (key ++ String sep value) sep = Some (key, value).
Proof.
  induction key as [| a key IH]; intros Hkey.
  - rewrite append_nil_l. cbn [strings.cut]. by rewrite Ascii.eqb_refl.
  - cbn [strings.Contains] in Hkey. rewrite append_cons. cbn [strings.cut].
    destruct (Ascii.eqb a sep); [done |]. by rewrite IH.
Qed.

(** The last value given to a key is the one the loop leaves in the map. *)
Lemma parse_loop_last (pairs : list string) key value
    (params : gmap string string) :
  strings.Contains key eq_sign = false ->
  fold_left
    (fun params pair =>
       match strings.cut pair eq_sign with
       | Some (key, value) => <[key := value]> params
       | None => params
       end)
    (pairs ++ [key ++ "=" ++ value]) params !! key
  = Some value.
Proof.
  intros Hkey. rewrite fold_left_app. cbn [fold_left].
  change (key ++ "=" ++ value) with (key ++ String eq_sign value).
  by rewrite cut_pair, lookup_insert_eq.
Qed.

(** C6 at the failing input.  A URL whose query holds a second [?]: the
    source takes [strings.Split(url, "?")[1]], the text between the first
    and the second [?], so it keeps [redirect=/home] and loses everything
    behind the second [?]; parsing the entire remainder gives
    [redirect=/home?tab=2] and [search=ann]. *)
Theorem C6_second_qmark_truncates :
  let url := "/items?redirect=/home?tab=2&search=ann" in
  afterFirstQmark url = "redirect=/home?tab=2&search=ann" /\
  parseQueryParams url !! "redirect" = Some "/home" /\
  parseQueryParams url !! "search" = None /\
  parse_as_specified url !! "redirect" = Some "/home?tab=2" /\
  parse_as_specified url !! "search" = Some "ann" /\
  parseQueryParams url <> parse_as_specified url.
Proof.
  cbv zeta. repeat split; try (vm_compute; reflexivity).
  intros Heq.
  assert (H : parseQueryParams "/items?redirect=/home?tab=2&search=ann"
              !! "search" = Some "ann")
    by (rewrite Heq; vm_compute; reflexivity).
  vm_compute in H. discriminate H.
Qed.

(** ** Headers of a struct slice *)

Lemma Split_head_tagName tag :
  match strings.Split tag comma with
  | first :: _ => first
  | [] => ""
  end = tagName tag.
Proof.
  rewrite Split_cut. unfold tagName.
  by destruct (strings.cut tag comma) as [[name rest] |].
Qed.

Lemma extractHeaders_loop structType :
  forall headers,
    fold_left
      (fun headers field =>
         let tag := jsonTag field in
         if negb (String.eqb tag "") && negb (String.eqb tag "-") then
           let tagName :=
             match strings.Split tag comma with
             | first :: _ => first
             | [] => ""
             end in
           if negb (String.eqb tagName "") then (headers ++ [tagName])%list
           else (headers ++ [Name field])%list
         else (headers ++ [Name field])%list)
      structType headers
    = (headers ++ List.map fieldHeader structType)%list.
Proof.
  induction structType as [| field rest IH]; intros headers; cbn [fold_left].
  - by rewrite app_nil_r.
  - rewrite IH. cbv zeta. rewrite Split_head_tagName. unfold fieldHeader.
    cbn [List.map].
    destruct (String.eqb (jsonTag field) "");
      destruct (String.eqb (jsonTag field) "-");
      destruct (String.eqb (tagName (jsonTag field)) "");
      cbn [negb andb orb]; by rewrite <- app_assoc.
Qed.

(** The headers of a struct type are the headers of its fields, in
    declaration order. *)
Lemma extractHeadersFromStruct_fields structType :
  extractHeadersFromStruct structType = List.map fieldHeader structType.
Proof. apply (extractHeaders_loop structType []). Qed.

Lemma rowsOf_structs structType elems :
  structsOf structType elems ->
  forallb Exported structType = true ->
  exists rows, rowsOf elems = Some rows /\ length rows = length elems.
Proof.
  intros Hall Hexp. induction Hall as [| elem elems [values Helem] _ IH].
  - by exists [].
  - destruct IH as (rows & Hrows & Hlen).
    exists (values :: rows). cbn [rowsOf length]. unfold rowOf.
    rewrite Helem, Hexp, Hrows. by rewrite Hlen.
Qed.

(** C7 (as amended).  Without a typed collection RenderHTML renders the
    supplied headers and rows.  With a non-empty slice of structs whose
    fields are exported it renders one row per element and, when no
    headers are supplied, the headers of the struct's fields (the name in
    the json tag when the tag is present, is not [-] and names something,
    the field's own name otherwise) in declaration order; supplied headers,
    when there are any, replace the derived ones. *)
Theorem C7_headers_resolution data :
  (Data data = None ->
   RenderHTML_source data = Ok (Headers data, Rows data)) /\
  (forall d structType elems,
     Data data = Some d ->
     derefIfPtr d = VSlice elems ->
     elems <> [] ->
     structsOf structType elems ->
     forallb Exported structType = true ->
     exists rows,
       RenderHTML_source data
       = Ok (if (0 <? length (Headers data))%nat then Headers data
             else List.map fieldHeader structType, rows) /\
       length rows = length elems).
Proof.
  split.
  - intros Hnone. unfold RenderHTML_source. by rewrite Hnone.
  - intros d structType elems Hd Hslice Hne Hall Hexp.
    destruct (rowsOf_structs structType elems Hall Hexp) as (rows & Hrows & Hlen).
    exists rows. split; [| done].
    unfold RenderHTML_source, convertStructSliceToRows.
    rewrite Hd, Hslice. destruct elems as [| first rest]; [done |].
    apply Forall_cons_1 in Hall as [[values Hfirst] _].
    by rewrite Hfirst, Hrows, extractHeadersFromStruct_fields.
Qed.

Lemma C7_headers_resolution_witness :
  let person := [mkField "ID" "id,omitempty" true; mkField "Name" "" true;
                 mkField "Secret" "-" true] in
  let ann := VStruct person [VOther "1"; VOther "Ann"; VOther "x"] in
  let bob := VPtr (Some (VStruct person [VOther "2"; VOther "Bob"; VOther "y"])) in
  let data := mkData [] [] (Some (VPtr (Some (VSlice [ann; bob])))) 2
                     zeroOptions in
  exists rows,
    RenderHTML_source data = Ok (["id"; "Name"; "Secret"], rows) /\
    length rows = 2%nat.
Proof.
  cbv zeta.
  apply (proj2 (C7_headers_resolution
                  (mkData [] [] (Some (VPtr (Some (VSlice
                     [VStruct [mkField "ID" "id,omitempty" true;
                               mkField "Name" "" true;
                               mkField "Secret" "-" true]
                              [VOther "1"; VOther "Ann"; VOther "x"];
                      VPtr (Some (VStruct
                              [mkField "ID" "id,omitempty" true;
                               mkField "Name" "" true;
                               mkField "Secret" "-" true]
                              [VOther "2"; VOther "Bob"; VOther "y"]))]))))
                     2 zeroOptions))
           _ [mkField "ID" "id,omitempty" true; mkField "Name" "" true;
              mkField "Secret" "-" true] _ eq_refl eq_refl).
  - discriminate.
  - repeat constructor; eexists; reflexivity.
  - reflexivity.
Defined.

(** C7 as stated fails when headers are supplied next to a typed
    collection: RenderHTML then renders the supplied headers, not the ones
    derived from the struct. *)
Lemma C7_supplied_headers_counterexample :
  let person := [mkField "Name" "name" true; mkField "Age" "" true] in
  let people := VSlice [VStruct person [VOther "Ann"; VOther "41"]] in
  let data := mkData ["Full name"; "Years"] [] (Some people) 1 zeroOptions in
  extractHeadersFromStruct person = ["name"; "Age"] /\
  RenderHTML_source data
  = Ok (["Full name"; "Years"], [[VOther "Ann"; VOther "41"]]) /\
  RenderHTML_source data
  <> Ok (extractHeadersFromStruct person, [[VOther "Ann"; VOther "41"]]).
Proof.
  cbv zeta. split; [reflexivity |]. split; [reflexivity |].
  vm_compute. discriminate.
Qed.

(** ** Following sort links *)

Lemma Split_nonempty s sep : strings.Split s sep <> [].
Proof. rewrite Split_cut. by destruct (strings.cut s sep) as [[? ?] |]. Qed.

Lemma Split_app_sep x z sep :
  strings.Split (x ++ String sep z) sep
  = (strings.Split x sep ++ strings.Split z sep)%list.
Proof.
  induction x as [| a x IH].
  - rewrite append_nil_l. cbn [strings.Split app]. by rewrite Ascii.eqb_refl.
  - rewrite append_cons. cbn [strings.Split].
    destruct (Ascii.eqb a sep); [by rewrite IH |].
    rewrite IH. pose proof (Split_nonempty x sep).
    by destruct (strings.Split x sep).
Qed.

Lemma Split_without s sep :
  strings.Contains s sep = false -> strings.Split s sep = [s].
Proof.
  rewrite Contains_cut, Split_cut.
  by destruct (strings.cut s sep) as [[? ?] |].
Qed.

Lemma Contains_app x y sep :
  strings.Contains (x ++ y) sep
  = strings.Contains x sep || strings.Contains y sep.
Proof.
  induction x as [| a x IH]; [done |].
  rewrite append_cons. cbn [strings.Contains].
  by destruct (Ascii.eqb a sep).
Qed.

Lemma ampFree_pair key value :
  ampFree key -> ampFree value -> ampFree (fmt.Sprint_pair key value).
Proof.
  unfold ampFree, fmt.Sprint_pair. intros Hk Hv.
  by rewrite !Contains_app, Hk, Hv.
Qed.

(** A piece without [&] followed by preserved pairs without [&] splits
    back into that piece and the pairs. *)
Lemma Split_ampPairs kept :
  Forall (fun kv => ampFree (fst kv) /\ ampFree (snd kv)) kept ->
  forall x,
    ampFree x ->
    strings.Split (x ++ String.concat "" (List.map ampPair kept)) amp
    = x :: List.map (fun kv => fmt.Sprint_pair (fst kv) (snd kv)) kept.
Proof.
  induction 1 as [| kv kept [Hk Hv] _ IH]; intros x Hx.
  - cbn [List.map String.concat]. rewrite append_nil_r.
    by apply Split_without.
  - cbn [List.map]. rewrite concat_nosep_cons. unfold ampPair at 1.
    rewrite append_assoc.
    change ("&" ++ ?t) with (String amp t).
    rewrite Split_app_sep, (Split_without x) by done.
    rewrite IH by (by apply ampFree_pair). done.
Qed.

Lemma afterFirstQmark_composeURL baseURL queryString :
  strings.Contains baseURL qmark = false ->
  afterFirstQmark (composeURL baseURL queryString) = queryString.
Proof.
  intros Hbase. unfold afterFirstQmark, composeURL.
  destruct (String.eqb_spec baseURL "") as [-> | _].
  - change ("?" ++ queryString) with ("" ++ String qmark queryString).
    by rewrite cut_pair.
  - rewrite Hbase.
    change (baseURL ++ "?" ++ queryString)
      with (baseURL ++ String qmark queryString).
    by rewrite cut_pair.
Qed.

Lemma queryPairs_plain name rest :
  name <> "" ->
  strings.Contains name qmark = false ->
  queryPairs (name ++ rest) = strings.Split (name ++ rest) amp.
Proof.
  intros Hne Hq. destruct name as [| a name]; [done |].
  unfold queryPairs. rewrite append_cons. cbn [String.eqb].
  cbn [strings.Contains] in Hq. unfold strings.TrimPrefix.
  by destruct (Ascii.eqb a qmark).
Qed.

Lemma sortParamOf_nonempty s : sortParamOf s <> "".
Proof.
  unfold sortParamOf.
  by destruct (String.eqb_spec (Sorting.QueryParam s) "").
Qed.

Lemma toggledOrder_cases s header :
  toggledOrder s header = "asc" \/ toggledOrder s header = "desc".
Proof.
  unfold toggledOrder.
  destruct (String.eqb (Sorting.SortBy s) header
            && String.eqb (Sorting.SortOrder s) "asc"); auto.
Qed.

(** The pairs the server finds in the query of a sort link. *)
Lemma sortLink_queryPairs s header visit :
  plainName (sortParamOf s) ->
  ampFree (orderParamOf s) ->
  ampFree header ->
  Forall (fun kv => ampFree (fst kv) /\ ampFree (snd kv)) visit ->
  strings.Contains (Sorting.BaseURL s) qmark = false ->
  queryPairs (afterFirstQmark
                (composeURL (Sorting.BaseURL s)
                            (sortQueryString s header visit)))
  = fmt.Sprint_pair (sortParamOf s) header
    :: fmt.Sprint_pair (orderParamOf s) (toggledOrder s header)
    :: List.map (fun kv => fmt.Sprint_pair (fst kv) (snd kv))
         (List.filter
            (fun kv => negb (String.eqb (fst kv) (sortParamOf s))
                       && negb (String.eqb (fst kv) (orderParamOf s))
                       && negb (String.eqb (fst kv) "page"))
            visit).
Proof.
  intros (Hsa & _ & Hsq) Hop Hh Hvisit Hbase.
  rewrite afterFirstQmark_composeURL, sortQueryString_shape by done.
  rewrite queryPairs_plain by (done || apply sortParamOf_nonempty).
  set (kept := List.filter _ visit).
  assert (Hkept : Forall (fun kv => ampFree (fst kv) /\ ampFree (snd kv)) kept).
  { apply List.Forall_forall. intros kv Hin.
    apply List.filter_In in Hin as [Hin _].
    by eapply List.Forall_forall in Hvisit. }
  replace (sortParamOf s ++ "=" ++ header ++ "&" ++ orderParamOf s ++ "="
           ++ toggledOrder s header ++ String.concat "" (List.map ampPair kept))
    with (fmt.Sprint_pair (sortParamOf s) header
          ++ String amp
               (fmt.Sprint_pair (orderParamOf s) (toggledOrder s header)
                ++ String.concat "" (List.map ampPair kept)))
    by (unfold fmt.Sprint_pair; rewrite !append_assoc; reflexivity).
  rewrite Split_app_sep, Split_without by (by apply ampFree_pair).
  rewrite Split_ampPairs; [done | done |].
  apply ampFree_pair; [done |].
  by destruct (toggledOrder_cases s header) as [-> | ->].
Qed.

Lemma keyValue_pair key value :
  strings.Contains key eq_sign = false ->
  keyValue (fmt.Sprint_pair key value) = Some (key, value).
Proof.
  intros Hkey. rewrite keyValue_cut.
  change (fmt.Sprint_pair key value) with (key ++ String eq_sign value).
  by apply cut_pair.
Qed.

(** When the key itself holds the separator, so does the value that the
    cut leaves. *)
Lemma cut_value_has_sep key value sep before after :
  strings.Contains key sep = true ->
  strings.cut (key ++ String sep value) sep = Some (before, after) ->
  strings.Contains after sep = true.
Proof.
  revert before. induction key as [| a key IH]; intros before Hkey Hcut;
    [done |].
  rewrite append_cons in Hcut. cbn [strings.cut strings.Contains] in *.
  destruct (Ascii.eqb a sep).
  - injection Hcut as _ <-. rewrite Contains_app. cbn [strings.Contains].
    rewrite Ascii.eqb_refl. by destruct (strings.Contains key sep).
  - destruct (strings.cut (key ++ String sep value) sep)
      as [[before' after'] |] eqn:Hrest; [| done].
    injection Hcut as _ <-. by eapply IH.
Qed.

(** A preserved pair never reads as [orderParam=desc]. *)
Lemma preserved_pair_not_desc orderParam key value :
  strings.Contains orderParam eq_sign = false ->
  key <> orderParam ->
  Forall (fun value => value <> "desc")
    match keyValue (fmt.Sprint_pair key value) with
    | Some (key', value') =>
        if String.eqb key' orderParam then [value'] else []
    | None => []
    end.
Proof.
  intros Hop Hne.
  destruct (strings.Contains key eq_sign) eqn:Hkey.
  - rewrite keyValue_cut.
    change (fmt.Sprint_pair key value) with (key ++ String eq_sign value).
    destruct (strings.cut (key ++ String eq_sign value) eq_sign)
      as [[before after] |] eqn:Hcut; [| constructor].
    destruct (String.eqb before orderParam); [| constructor].
    apply (cut_value_has_sep _ _ _ _ _ Hkey) in Hcut.
    repeat constructor. intros ->. done.
  - rewrite keyValue_pair by done.
    destruct (String.eqb_spec key orderParam); [done | constructor].
Qed.

(** Once a pair reads [orderParam=desc] the order is [desc] for good. *)
Lemma sortLoop_desc sortParam orderParam params param :
  sortParam <> orderParam ->
  In param params ->
  keyValue param = Some (orderParam, "desc") ->
  forall state,
    snd (fold_left (sortStep sortParam orderParam) params state) = "desc".
Proof.
  intros Hne Hin Hkv.
  induction params as [| p rest IH]; intros [sortBy sortOrder]; [done |].
  cbn [fold_left]. destruct Hin as [-> | Hin]; [| by apply IH].
  unfold sortStep at 2. rewrite Hkv.
  destruct (String.eqb_spec orderParam sortParam); [congruence |].
  rewrite String.eqb_refl. cbn [String.eqb Ascii.eqb Bool.eqb].
  by destruct (sortLoop_order sortParam orderParam rest (sortBy, "desc")).
Qed.

Lemma visit_ampFree order k (m : gmap string string) :
  range_ok order ->
  (forall key value, m !! key = Some value -> ampFree key /\ ampFree value) ->
  Forall (fun kv => ampFree (fst kv) /\ ampFree (snd kv))
         (order k (map_to_list m)).
Proof.
  intros Hord Hm. apply List.Forall_forall. intros [key value] Hin.
  apply Hm. apply elem_of_map_to_list. rewrite <- (Hord k).
  by apply list_elem_of_In.
Qed.

(** C8 (as amended).  Let the column name and the preserved keys and
    values hold no [&], the two parameter names be different and hold none
    of [&], [=], [?], and the base URL hold no [?].  Starting from
    [(SortBy = C, SortOrder = asc)], the server that follows the link of
    [C] reads the order [desc], which is not the original order; following
    the link of [C] generated from the state it has read, it reads [asc]
    again. *)
Theorem C8_sort_toggle_two_cycle order1 order2 (m1 m2 : gmap string string)
    headers i C baseURL queryParam orderParam :
  let s := Sorting.mk true C "asc" baseURL queryParam orderParam in
  range_ok order1 -> range_ok order2 ->
  plainName (sortParamOf s) -> plainName (orderParamOf s) ->
  sortParamOf s <> orderParamOf s ->
  ampFree C ->
  (forall key value, m1 !! key = Some value -> ampFree key /\ ampFree value) ->
  (forall key value, m2 !! key = Some value -> ampFree key /\ ampFree value) ->
  strings.Contains baseURL qmark = false ->
  headers !! i = Some C ->
  exists link1 link2,
    generateSortLinks order1 headers (Some s) m1 !! i = Some link1 /\
    snd (followSortLink s link1) = "desc" /\
    snd (followSortLink s link1) <> Sorting.SortOrder s /\
    generateSortLinks order2 headers
      (Some (withSortState s (followSortLink s link1))) m2 !! i = Some link2 /\
    snd (followSortLink s link2) = "asc".
Proof.
  intros s Hord1 Hord2 Hsp Hop Hne HC Hm1 Hm2 Hbase Hi.
  assert (Hopa : ampFree (orderParamOf s)) by apply Hop.
  assert (Hope : strings.Contains (orderParamOf s) eq_sign = false) by apply Hop.
  assert (Hspe : strings.Contains (sortParamOf s) eq_sign = false) by apply Hsp.
  (* first toggle *)
  assert (Hl1 : generateSortLinks order1 headers (Some s) m1 !! i
                = Some (composeURL baseURL
                          (sortQueryString s C (order1 i (map_to_list m1))))).
  { unfold generateSortLinks. cbn [Sorting.Enabled s negb].
    apply (sortLinksLoop_lookup order1 s m1 headers 0 _ i C Hi).
    rewrite length_replicate. lia. }
  assert (Hdesc : snd (followSortLink s
                         (composeURL baseURL
                            (sortQueryString s C (order1 i (map_to_list m1)))))
                  = "desc").
  { unfold followSortLink. rewrite ParseSortFromQuery_loop.
    change (if String.eqb (Sorting.QueryParam s) "" then "sort_by"
            else Sorting.QueryParam s) with (sortParamOf s).
    change (if String.eqb (Sorting.OrderParam s) "" then "sort_order"
            else Sorting.OrderParam s) with (orderParamOf s).
    rewrite (sortLink_queryPairs s C) by (done || by apply visit_ampFree).
    apply (sortLoop_desc _ _ _
             (fmt.Sprint_pair (orderParamOf s) (toggledOrder s C))); [done | |].
    - right. by left.
    - rewrite keyValue_pair by done. do 2 f_equal.
      unfold toggledOrder. cbn [Sorting.SortBy Sorting.SortOrder s].
      by rewrite String.eqb_refl. }
  set (link1 := composeURL baseURL
                  (sortQueryString s C (order1 i (map_to_list m1)))) in *.
  set (s' := withSortState s (followSortLink s link1)).
  (* second toggle *)
  assert (Hasc : toggledOrder s' C = "asc").
  { unfold toggledOrder, s'. cbn [withSortState Sorting.SortOrder].
    rewrite Hdesc. change (String.eqb "desc" "asc") with false.
    by rewrite andb_false_r. }
  exists link1, (composeURL baseURL
                   (sortQueryString s' C (order2 i (map_to_list m2)))).
  split; [done |]. split; [done |]. split; [by rewrite Hdesc |]. split.
  { unfold generateSortLinks. cbn [Sorting.Enabled s' withSortState s negb].
    apply (sortLinksLoop_lookup order2 s' m2 headers 0 _ i C Hi).
    rewrite length_replicate. lia. }
  unfold followSortLink. rewrite ParseSortFromQuery_loop.
  change (if String.eqb (Sorting.QueryParam s) "" then "sort_by"
          else Sorting.QueryParam s) with (sortParamOf s').
  change (if String.eqb (Sorting.OrderParam s) "" then "sort_order"
          else Sorting.OrderParam s) with (orderParamOf s').
  change baseURL with (Sorting.BaseURL s') at 1.
  rewrite (sortLink_queryPairs s' C) by (done || by apply visit_ampFree).
  apply sortLoop_stays_asc. rewrite Hasc. cbn [flat_map].
  change (sortParamOf s') with (sortParamOf s).
  change (orderParamOf s') with (orderParamOf s).
  rewrite !keyValue_pair by done.
  destruct (String.eqb_spec (sortParamOf s) (orderParamOf s)); [done |].
  rewrite String.eqb_refl. cbn [app].
  constructor; [done |].
  apply Forall_flat_map, List.Forall_forall. intros p Hin.
  apply List.in_map_iff in Hin as ([key value] & <- & Hin).
  apply List.filter_In in Hin as [_ Hkeep]. cbn [fst snd] in *.
  apply preserved_pair_not_desc; [done |].
  destruct (String.eqb_spec key (orderParamOf s)); [| done].
  by rewrite andb_false_r in Hkeep.
Qed.

Lemma ampFree_entries (m : gmap string string) :
  forallb (fun kv => negb (strings.Contains (fst kv) amp)
                     && negb (strings.Contains (snd kv) amp))
          (map_to_list m) = true ->
  forall key value, m !! key = Some value -> ampFree key /\ ampFree value.
Proof.
  intros Hall key value Hm. rewrite forallb_forall in Hall.
  apply elem_of_map_to_list, list_elem_of_In, Hall in Hm. cbn [fst snd] in Hm.
  unfold ampFree.
  by destruct (strings.Contains key amp), (strings.Contains value amp).
Qed.

Lemma C8_sort_toggle_two_cycle_witness :
  let s := Sorting.mk true "Name" "asc" "/users" "" "" in
  let m1 : gmap string string :=
    <["page" := "3"]> (<["page_size" := "25"]> (<["search" := "ann"]> ∅)) in
  let m2 : gmap string string := <["page_size" := "25"]> ∅ in
  exists link1 link2,
    generateSortLinks reversedOrder ["ID"; "Name"] (Some s) m1 !! 1%nat
    = Some link1 /\
    snd (followSortLink s link1) = "desc" /\
    snd (followSortLink s link1) <> Sorting.SortOrder s /\
    generateSortLinks listedOrder ["ID"; "Name"]
      (Some (withSortState s (followSortLink s link1))) m2 !! 1%nat
    = Some link2 /\
    snd (followSortLink s link2) = "asc".
Proof.
  cbv zeta.
  apply (C8_sort_toggle_two_cycle reversedOrder listedOrder
           (<["page" := "3"]> (<["page_size" := "25"]> (<["search" := "ann"]> ∅)))
           (<["page_size" := "25"]> ∅)
           ["ID"; "Name"] 1 "Name" "/users" "" "").
  - apply reversedOrder_ok.
  - apply listedOrder_ok.
  - repeat split; reflexivity.
  - repeat split; reflexivity.
  - discriminate.
  - reflexivity.
  - apply ampFree_entries. vm_compute. reflexivity.
  - apply ampFree_entries. vm_compute. reflexivity.
  - reflexivity.
  - reflexivity.
Defined.

(** C8 as stated fails for a column whose name holds [&]: links are built
    without any escaping, so the name [x&sort_order=desc] adds a pair of
    its own to every link of that column.  The first link is read as
    [(x, desc)]; the link generated from that state asks for [asc], but
    ParseSortFromQuery meets the injected [sort_order=desc] first and only
    ever assigns [desc]: the order read after two toggles is [desc]. *)
Lemma C8_ampersand_column_counterexample :
  let C := "x&sort_order=desc" in
  let s := Sorting.mk true C "asc" "/t" "" "" in
  let link1 := "/t?sort_by=x&sort_order=desc&sort_order=desc" in
  let link2 := "/t?sort_by=x&sort_order=desc&sort_order=asc" in
  generateSortLinks listedOrder [C] (Some s) ∅ !! 0%nat = Some link1 /\
  followSortLink s link1 = ("x", "desc") /\
  generateSortLinks listedOrder [C]
    (Some (withSortState s (followSortLink s link1))) ∅ !! 0%nat
  = Some link2 /\
  followSortLink s link2 = ("x", "desc") /\
  snd (followSortLink s link2) <> "asc".
Proof.
  cbv zeta. repeat split; try (vm_compute; reflexivity).
  vm_compute. discriminate.
Qed.

(** * Further properties *)

(** ** The row window of calculatePagination *)

(** Every field of the result, when pagination is enabled, there is at
    least one row and [totalRows + pageSize - 1] does not wrap. *)
Lemma calculatePagination_fields cnt p :
  Pagination.Enabled p = true ->
  1 <= Pagination.PageSize p ->
  1 <= effectiveTotalRows cnt p ->
  effectiveTotalRows cnt p + Pagination.PageSize p - 1 <= int_max ->
  let rows := effectiveTotalRows cnt p in
  let size := Pagination.PageSize p in
  let pages := ceil_div rows size in
  let page := Z.min (Z.max 1 (Pagination.CurrentPage p)) pages in
  calculatePagination cnt (Some p)
  = PaginationInfo.mk page pages rows size
      ((page - 1) * size + 1) (Z.min (page * size) rows).
Proof.
  intros He Hps Hrows Hmax rows size pages page.
  assert (Hb : int_max = 2 ^ 63 - 1) by reflexivity.
  assert (Hm : int_min = - 2 ^ 63) by reflexivity.
  pose proof (ceil_div_spec rows size ltac:(lia)) as Hceil.
  pose proof (ceil_div_pos rows size Hrows ltac:(lia)) as Hpos.
  fold pages in Hceil, Hpos.
  assert (Hpage : 1 <= page <= pages) by lia.
  assert (H1 : 0 <= (page - 1) * size < rows) by nia.
  assert (H2 : 1 <= page * size <= int_max) by nia.
  unfold calculatePagination. rewrite He.
  destruct (Z.leb_spec (Pagination.PageSize p) 0); [lia |].
  cbn [negb orb]. fold (effectiveTotalRows cnt p). fold rows size.
  rewrite totalPages_no_wrap by lia. fold pages.
  replace (if (if Pagination.CurrentPage p <? 1 then 1
               else Pagination.CurrentPage p) >? pages
           then pages
           else if Pagination.CurrentPage p <? 1 then 1
                else Pagination.CurrentPage p) with page.
  2:{ subst page. destruct (Z.ltb_spec (Pagination.CurrentPage p) 1);
        match goal with |- context [?a >? ?b] =>
          destruct (Z.gtb_spec a b) end; lia. }
  unfold add, mul, sub.
  rewrite (wrap_id (page - 1)) by (unfold is_int; lia).
  rewrite (wrap_id ((page - 1) * size)) by (unfold is_int; lia).
  rewrite (wrap_id ((page - 1) * size + 1)) by (unfold is_int; lia).
  rewrite (wrap_id (page * size)) by (unfold is_int; lia).
  f_equal. destruct (Z.gtb_spec (page * size) rows); lia.
Qed.

(** X1.  With pagination enabled, at least one row and no wrap-around,
    the window of the current page lies inside the rows, starts right
    behind the pages before it, is never empty and never longer than the
    page size; every page but the last is full and the last one ends at
    the last row. *)
Theorem row_window_bounds cnt p :
  Pagination.Enabled p = true ->
  1 <= Pagination.PageSize p ->
  1 <= effectiveTotalRows cnt p ->
  effectiveTotalRows cnt p + Pagination.PageSize p - 1 <= int_max ->
  let info := calculatePagination cnt (Some p) in
  let first := PaginationInfo.StartRow info in
  let last := PaginationInfo.EndRow info in
  1 <= first <= last /\ last <= PaginationInfo.TotalRows info /\
  first = (PaginationInfo.CurrentPage info - 1) * Pagination.PageSize p + 1 /\
  last - first + 1 <= Pagination.PageSize p /\
  (PaginationInfo.CurrentPage info < PaginationInfo.TotalPages info ->
   last - first + 1 = Pagination.PageSize p) /\
  (PaginationInfo.CurrentPage info = PaginationInfo.TotalPages info ->
   last = PaginationInfo.TotalRows info).
Proof.
  intros He Hps Hrows Hmax.
  rewrite (calculatePagination_fields cnt p He Hps Hrows Hmax).
  cbv zeta. cbn [PaginationInfo.StartRow PaginationInfo.EndRow
                 PaginationInfo.TotalRows PaginationInfo.CurrentPage
                 PaginationInfo.TotalPages].
  pose proof (ceil_div_spec (effectiveTotalRows cnt p) (Pagination.PageSize p)
                ltac:(lia)) as Hceil.
  pose proof (ceil_div_pos (effectiveTotalRows cnt p) (Pagination.PageSize p)
                Hrows ltac:(lia)) as Hpos.
  set (pages := ceil_div _ _) in *.
  set (page := Z.min (Z.max 1 (Pagination.CurrentPage p)) pages).
  assert (Hpage : 1 <= page <= pages) by lia.
  repeat split; try nia.
Qed.

Lemma row_window_bounds_witness :
  let p := pagination_of 10 5 47 in
  let info := calculatePagination 7 (Some p) in
  PaginationInfo.StartRow info = 41 /\ PaginationInfo.EndRow info = 47 /\
  1 <= PaginationInfo.StartRow info <= PaginationInfo.EndRow info.
Proof.
  cbv zeta.
  pose proof (row_window_bounds 7 (pagination_of 10 5 47)) as H.
  split; [reflexivity |]. split; [reflexivity |].
  apply H; vm_compute; congruence.
Defined.

(** X2.  Consecutive pages tile the rows: for two requests that differ
    only in asking for page [c] and page [c + 1], both existing pages, the
    window of the second starts at the row behind the end of the first. *)
Theorem consecutive_windows_tile cnt p p' :
  Pagination.Enabled p = true ->
  Pagination.Enabled p' = true ->
  1 <= Pagination.PageSize p ->
  Pagination.PageSize p' = Pagination.PageSize p ->
  Pagination.TotalCount p' = Pagination.TotalCount p ->
  1 <= effectiveTotalRows cnt p ->
  effectiveTotalRows cnt p + Pagination.PageSize p - 1 <= int_max ->
  1 <= Pagination.CurrentPage p ->
  Pagination.CurrentPage p' = Pagination.CurrentPage p + 1 ->
  Pagination.CurrentPage p'
    <= PaginationInfo.TotalPages (calculatePagination cnt (Some p)) ->
  PaginationInfo.StartRow (calculatePagination cnt (Some p'))
  = PaginationInfo.EndRow (calculatePagination cnt (Some p)) + 1.
Proof.
  intros He He' Hps Hps' Htc Hrows Hmax Hc Hc' Hlast.
  assert (Hrows' : effectiveTotalRows cnt p' = effectiveTotalRows cnt p)
    by (unfold effectiveTotalRows; by rewrite Htc).
  rewrite (calculatePagination_fields cnt p He Hps Hrows Hmax) in *.
  rewrite (calculatePagination_fields cnt p' He') by (rewrite ?Hps', ?Hrows'; lia).
  cbv zeta in *. cbn [PaginationInfo.StartRow PaginationInfo.EndRow
                      PaginationInfo.TotalPages] in *.
  rewrite Hps', Hrows', Hc' in *.
  pose proof (ceil_div_spec (effectiveTotalRows cnt p) (Pagination.PageSize p)
                ltac:(lia)) as Hceil.
  set (pages := ceil_div _ _) in *. nia.
Qed.

Lemma consecutive_windows_tile_witness :
  PaginationInfo.StartRow
    (calculatePagination 7 (Some (pagination_of 10 3 47)))
  = PaginationInfo.EndRow
      (calculatePagination 7 (Some (pagination_of 10 2 47))) + 1.
Proof.
  apply (consecutive_windows_tile 7 (pagination_of 10 2 47)
                                  (pagination_of 10 3 47));
    vm_compute; congruence.
Defined.

(** ** Offsets and limits for the database *)

(** X3.  The rows [OFFSET offset LIMIT limit] selects are the window of
    the current page: the offset is one less than StartRow and addresses
    an existing row, and the window ends at [offset + limit] or at the
    last row, whichever comes first. *)
Theorem offset_limit_select_window cnt p :
  Pagination.Enabled p = true ->
  1 <= Pagination.PageSize p ->
  1 <= effectiveTotalRows cnt p ->
  effectiveTotalRows cnt p + Pagination.PageSize p - 1 <= int_max ->
  let info := calculatePagination cnt (Some p) in
  let offset :=
    CalculateDatabaseOffset (PaginationInfo.CurrentPage info)
                            (Pagination.PageSize p) in
  let limit := CalculateDatabaseLimit (Pagination.PageSize p) in
  0 <= offset < PaginationInfo.TotalRows info /\
  PaginationInfo.StartRow info = offset + 1 /\
  PaginationInfo.EndRow info
  = Z.min (offset + limit) (PaginationInfo.TotalRows info).
Proof.
  intros He Hps Hrows Hmax.
  rewrite (calculatePagination_fields cnt p He Hps Hrows Hmax).
  cbv zeta. cbn [PaginationInfo.StartRow PaginationInfo.EndRow
                 PaginationInfo.TotalRows PaginationInfo.CurrentPage].
  assert (Hb : int_max = 2 ^ 63 - 1) by reflexivity.
  assert (Hm : int_min = - 2 ^ 63) by reflexivity.
  pose proof (ceil_div_spec (effectiveTotalRows cnt p) (Pagination.PageSize p)
                ltac:(lia)) as Hceil.
  pose proof (ceil_div_pos (effectiveTotalRows cnt p) (Pagination.PageSize p)
                Hrows ltac:(lia)) as Hpos.
  set (pages := ceil_div _ _) in *.
  set (page := Z.min (Z.max 1 (Pagination.CurrentPage p)) pages).
  assert (Hpage : 1 <= page <= pages) by lia.
  assert (H1 : 0 <= (page - 1) * Pagination.PageSize p
               < effectiveTotalRows cnt p) by nia.
  unfold CalculateDatabaseOffset, CalculateDatabaseLimit.
  destruct (Z.ltb_spec page 1); [lia |].
  destruct (Z.leb_spec (Pagination.PageSize p) 0); [lia |].
  unfold mul, sub. rewrite (wrap_id (page - 1)) by (unfold is_int; lia).
  rewrite (wrap_id ((page - 1) * Pagination.PageSize p))
    by (unfold is_int; lia).
  repeat split; try lia.
Qed.

Lemma offset_limit_select_window_witness :
  let p := pagination_of 10 3 47 in
  let info := calculatePagination 7 (Some p) in
  CalculateDatabaseOffset (PaginationInfo.CurrentPage info) 10 = 20 /\
  PaginationInfo.StartRow info
  = CalculateDatabaseOffset (PaginationInfo.CurrentPage info)
                            (Pagination.PageSize p) + 1.
Proof.
  cbv zeta. split; [reflexivity |].
  apply (offset_limit_select_window 7 (pagination_of 10 3 47));
    vm_compute; congruence.
Defined.

(** ** Results that fit on one page *)

Lemma totalPages_of cnt p :
  Pagination.Enabled p = true ->
  1 <= Pagination.PageSize p ->
  0 <= effectiveTotalRows cnt p ->
  effectiveTotalRows cnt p + Pagination.PageSize p - 1 <= int_max ->
  PaginationInfo.TotalPages (calculatePagination cnt (Some p))
  = ceil_div (effectiveTotalRows cnt p) (Pagination.PageSize p).
Proof.
  intros He Hps Hrows Hmax.
  destruct (calculatePagination_enabled cnt p He Hps) as (_ & -> & _).
  by apply totalPages_no_wrap.
Qed.

(** X4.  When all rows fit on one page (no rows at all included), the
    database renderer writes no pagination controls, whatever the fuel,
    the visiting order and the requested page; the info line, when asked
    for, is the one of generatePaginationInfoHTML, which reads
    [No records found] exactly when there are no rows. *)
Theorem one_page_has_no_controls order fuel cnt options p :
  Pagination options = Some p ->
  Pagination.Enabled p = true ->
  1 <= Pagination.PageSize p ->
  0 <= effectiveTotalRows cnt p <= Pagination.PageSize p ->
  effectiveTotalRows cnt p + Pagination.PageSize p - 1 <= int_max ->
  let info := calculatePagination cnt (Some p) in
  RenderHTML_pagination order fuel cnt options
  = Some (info, "",
          if Pagination.ShowInfo p then generatePaginationInfoHTML info
          else "") /\
  (generatePaginationInfoHTML info
   = "<div class=" ++ dq ++ "pagination-info" ++ dq
       ++ ">No records found</div>"
   <-> effectiveTotalRows cnt p = 0).
Proof.
  intros Hp He Hps [Hrows Hfit] Hmax info.
  assert (Hpages : PaginationInfo.TotalPages info <= 1).
  { subst info. rewrite totalPages_of by done.
    pose proof (ceil_div_spec (effectiveTotalRows cnt p)
                  (Pagination.PageSize p) ltac:(lia)). nia. }
  assert (Hr : PaginationInfo.TotalRows info = effectiveTotalRows cnt p).
  { subst info. by destruct (calculatePagination_enabled cnt p He Hps) as (-> & _). }
  split.
  - unfold RenderHTML_pagination. rewrite Hp, He. fold info.
    unfold generatePaginationHTML.
    destruct (Z.leb_spec (PaginationInfo.TotalPages info) 1); [| lia].
    by destruct (Pagination.ShowControls p).
  - unfold generatePaginationInfoHTML. rewrite Hr.
    destruct (Z.eqb_spec (effectiveTotalRows cnt p) 0) as [Hz | Hnz].
    + done.
    + split; [| done]. intros Heq.
      apply String.app_inj, String.app_inj, String.app_inj in Heq.
      discriminate Heq.
Qed.

Lemma one_page_has_no_controls_witness :
  let data := CreatePaginatedData (Some (VSlice [])) 0 "/users" "page=4" 10 in
  exists info,
    RenderHTML_pagination reversedOrder 0 0 (Options data)
    = Some (info, "",
            "<div class=" ++ dq ++ "pagination-info" ++ dq
              ++ ">No records found</div>").
Proof.
  cbv zeta. eexists.
  destruct (one_page_has_no_controls reversedOrder 0 0
              (Options (CreatePaginatedData (Some (VSlice [])) 0 "/users"
                                            "page=4" 10))
              (Pagination.mk true 10 4 true true false [] "/users" "page"
                             true 0)) as [Hrun _];
    [reflexivity | reflexivity | vm_compute; congruence
    | vm_compute; split; congruence | vm_compute; congruence |].
  exact Hrun.
Defined.

(** ** The in-memory renderer *)

(** The in-memory calculatePagination is the database one for a
    configuration without a total count. *)
Lemma InMemory_calculatePagination_database totalRows p :
  InMemory.calculatePagination totalRows (Some p)
  = calculatePagination totalRows
      (Some (Pagination.mk (Pagination.Enabled p) (Pagination.PageSize p)
               (Pagination.CurrentPage p) (Pagination.ShowControls p)
               (Pagination.ShowInfo p) (Pagination.ShowPageSizer p)
               (Pagination.PageSizeOptions p) (Pagination.BaseURL p)
               (Pagination.QueryParam p) (Pagination.PreserveQuery p) 0)).
Proof. reflexivity. Qed.

Lemma InMemory_calculatePagination_fields totalRows p :
  Pagination.Enabled p = true ->
  1 <= Pagination.PageSize p ->
  1 <= totalRows ->
  totalRows + Pagination.PageSize p - 1 <= int_max ->
  let size := Pagination.PageSize p in
  let pages := ceil_div totalRows size in
  let page := Z.min (Z.max 1 (Pagination.CurrentPage p)) pages in
  InMemory.calculatePagination totalRows (Some p)
  = PaginationInfo.mk page pages totalRows size
      ((page - 1) * size + 1) (Z.min (page * size) totalRows).
Proof.
  intros He Hps Hrows Hmax. rewrite InMemory_calculatePagination_database.
  by rewrite calculatePagination_fields.
Qed.

(** The page paginateRows cuts out of a non-empty table. *)
Lemma paginateRows_window {A : Type} (rows : list A) p :
  rows <> [] ->
  Pagination.Enabled p = true ->
  1 <= Pagination.PageSize p ->
  Z.of_nat (length rows) + Pagination.PageSize p - 1 <= int_max ->
  let size := Pagination.PageSize p in
  let pages := ceil_div (Z.of_nat (length rows)) size in
  let page := Z.min (Z.max 1 (Pagination.CurrentPage p)) pages in
  InMemory.paginateRows rows (Some p)
  = Ok (take (Z.to_nat size) (drop (Z.to_nat ((page - 1) * size)) rows)).
Proof.
  intros Hne He Hps Hmax size pages page.
  assert (Hlen : 1 <= Z.of_nat (length rows))
    by (destruct rows; [done | cbn [length]; lia]).
  assert (Hb : int_max = 2 ^ 63 - 1) by reflexivity.
  assert (Hm : int_min = - 2 ^ 63) by reflexivity.
  pose proof (ceil_div_spec (Z.of_nat (length rows)) size ltac:(lia)) as Hceil.
  pose proof (ceil_div_pos (Z.of_nat (length rows)) size Hlen ltac:(lia)).
  fold pages in Hceil, H.
  assert (Hpage : 1 <= page <= pages) by lia.
  assert (H1 : 0 <= (page - 1) * size < Z.of_nat (length rows)) by nia.
  unfold InMemory.paginateRows. rewrite He.
  destruct (Z.leb_spec (Pagination.PageSize p) 0); [lia |].
  cbn [negb orb].
  rewrite (InMemory_calculatePagination_fields _ p He Hps Hlen Hmax).
  fold size pages page.
  cbn [PaginationInfo.StartRow PaginationInfo.EndRow].
  unfold sub. replace ((page - 1) * size + 1 - 1) with ((page - 1) * size) by lia.
  rewrite (wrap_id ((page - 1) * size)) by (unfold is_int; lia).
  destruct (Z.geb_spec ((page - 1) * size) (Z.of_nat (length rows))); [lia |].
  destruct (Z.gtb_spec (Z.min (page * size) (Z.of_nat (length rows)))
                       (Z.of_nat (length rows))); [lia |].
  unfold InMemory.slice.
  destruct (Z.leb_spec 0 ((page - 1) * size)); [| lia].
  destruct (Z.leb_spec ((page - 1) * size)
              (Z.min (page * size) (Z.of_nat (length rows)))); [| lia].
  destruct (Z.leb_spec (Z.min (page * size) (Z.of_nat (length rows)))
              (Z.of_nat (length rows))); [| lia].
  cbn [andb]. f_equal.
  set (rest := drop (Z.to_nat ((page - 1) * size)) rows).
  assert (Hrest : length rest
                  = Z.to_nat (Z.of_nat (length rows) - (page - 1) * size))
    by (subst rest; rewrite length_drop; lia).
  destruct (Z.le_gt_cases (page * size) (Z.of_nat (length rows))).
  - f_equal. lia.
  - rewrite !take_ge; [done | lia | lia].
Qed.

(** X5.  On a non-empty table the in-memory paginateRows never panics: it
    returns the rows of the clamped current page, the [pageSize] rows
    behind the pages before it (fewer on the last page), at least one and
    at most [pageSize] of them. *)
Theorem paginateRows_page {A : Type} (rows : list A) p :
  rows <> [] ->
  Pagination.Enabled p = true ->
  1 <= Pagination.PageSize p ->
  Z.of_nat (length rows) + Pagination.PageSize p - 1 <= int_max ->
  let size := Pagination.PageSize p in
  let pages := ceil_div (Z.of_nat (length rows)) size in
  let page := Z.min (Z.max 1 (Pagination.CurrentPage p)) pages in
  let shown := take (Z.to_nat size) (drop (Z.to_nat ((page - 1) * size)) rows) in
  InMemory.paginateRows rows (Some p) = Ok shown /\
  (1 <= length shown)%nat /\ Z.of_nat (length shown) <= size.
Proof.
  intros Hne He Hps Hmax size pages page shown.
  split; [by apply paginateRows_window |].
  assert (Hlen : 1 <= Z.of_nat (length rows))
    by (destruct rows; [done | cbn [length]; lia]).
  pose proof (ceil_div_spec (Z.of_nat (length rows)) size ltac:(lia)) as Hceil.
  pose proof (ceil_div_pos (Z.of_nat (length rows)) size Hlen ltac:(lia)).
  fold pages in Hceil, H.
  assert (Hpage : 1 <= page <= pages) by lia.
  assert (H1 : 0 <= (page - 1) * size < Z.of_nat (length rows)) by nia.
  subst shown. rewrite length_take, length_drop. lia.
Qed.

Lemma paginateRows_page_witness :
  InMemory.paginateRows ["a"; "b"; "c"; "d"; "e"; "f"; "g"]
                        (Some (pagination_of 3 9 0))
  = Ok ["g"].
Proof.
  apply (paginateRows_page ["a"; "b"; "c"; "d"; "e"; "f"; "g"]
                           (pagination_of 3 9 0));
    [discriminate | reflexivity | vm_compute; congruence
    | vm_compute; congruence].
Defined.

(** X6.  On an empty table with pagination enabled the in-memory renderer
    panics: calculatePagination answers page 0 and a start row of
    [1 - pageSize], so paginateRows slices [rows[-pageSize:0]].  This holds
    for every page size and requested page, for explicit empty rows and
    for an empty typed slice. *)
Theorem paginateRows_empty_panics (data : InMemory.TableData) p :
  Pagination (InMemory.Options data) = Some p ->
  Pagination.Enabled p = true ->
  1 <= Pagination.PageSize p <= int_max ->
  (InMemory.Data data = None /\ InMemory.Rows data = []) \/
  (exists d, InMemory.Data data = Some d /\ derefIfPtr d = VSlice []) ->
  InMemory.paginateRows (@nil (list Value)) (Some p) = Panicked /\
  InMemory.RenderHTML_rows data = Panicked.
Proof.
  intros Hp He [Hps Hmax] Hempty.
  assert (Hb : int_max = 2 ^ 63 - 1) by reflexivity.
  assert (Hm : int_min = - 2 ^ 63) by reflexivity.
  assert (Hpanic : InMemory.paginateRows (@nil (list Value)) (Some p)
                   = Panicked).
  { unfold InMemory.paginateRows. rewrite He.
    destruct (Z.leb_spec (Pagination.PageSize p) 0); [lia |].
    cbn [negb orb length]. unfold InMemory.calculatePagination.
    rewrite He.
    destruct (Z.leb_spec (Pagination.PageSize p) 0); [lia |].
    cbn [negb orb PaginationInfo.StartRow PaginationInfo.EndRow].
    assert (Hpages : div (sub (add (Z.of_nat 0) (Pagination.PageSize p)) 1)
                         (Pagination.PageSize p) = 0).
    { rewrite totalPages_no_wrap by (cbn; lia).
      apply ceil_div_unique; cbn; lia. }
    rewrite Hpages.
    replace (if (if Pagination.CurrentPage p <? 1 then 1
                 else Pagination.CurrentPage p) >? 0
             then 0
             else if Pagination.CurrentPage p <? 1 then 1
                  else Pagination.CurrentPage p) with 0
      by (destruct (Z.ltb_spec (Pagination.CurrentPage p) 1);
          match goal with |- context [?a >? ?b] =>
            destruct (Z.gtb_spec a b) end; lia).
    change (sub 0 1) with (-1). change (mul 0 (Pagination.PageSize p)) with 0.
    change (Z.of_nat 0) with 0. change (0 >? 0) with false. cbv iota.
    assert (Hstart : sub (add (mul (-1) (Pagination.PageSize p)) 1) 1
                     = - Pagination.PageSize p).
    { unfold sub, add, mul.
      rewrite (wrap_id (-1 * Pagination.PageSize p)) by (unfold is_int; lia).
      rewrite (wrap_id (-1 * Pagination.PageSize p + 1))
        by (unfold is_int; lia).
      rewrite wrap_id by (unfold is_int; lia). lia. }
    rewrite Hstart.
    destruct (Z.geb_spec (- Pagination.PageSize p) 0); [lia |].
    unfold InMemory.slice.
    by destruct (Z.leb_spec 0 (- Pagination.PageSize p)); [lia |]. }
  split; [done |].
  unfold InMemory.RenderHTML_rows. rewrite Hp.
  destruct Hempty as [[-> ->] | (d & -> & Hd)].
  - by rewrite Hpanic.
  - unfold convertStructSliceToRows. rewrite Hd.
    destruct (0 <? length (InMemory.Headers data))%nat; by rewrite Hpanic.
Qed.

Lemma paginateRows_empty_panics_witness :
  InMemory.RenderHTML_rows
    (InMemory.CreatePaginatedData (Some (VSlice [])) "/users" "page=2" 10)
  = Panicked.
Proof.
  apply (paginateRows_empty_panics
           (InMemory.CreatePaginatedData (Some (VSlice [])) "/users"
                                         "page=2" 10)
           (Pagination.mk true 10 2 true true false [] "/users" "page"
                          true 0)).
  - reflexivity.
  - reflexivity.
  - vm_compute. split; congruence.
  - right. by exists (VSlice []).
Defined.

(** Cutting a list into chunks of [size] and gluing them again. *)
Lemma concat_chunks {A : Type} (size : nat) :
  (0 < size)%nat ->
  forall (count : nat) (l : list A),
    (length l <= count * size)%nat ->
    concat (List.map (fun j => take size (drop (j * size) l)) (seq 0 count))
    = l.
Proof.
  intros Hsize. induction count as [| count IH]; intros l Hlen.
  - destruct l as [| a l]; [done |]. cbn [length] in Hlen. lia.
  - cbn [seq List.map concat]. rewrite <- seq_shift, List.map_map.
    change (0 * size)%nat with 0%nat. rewrite drop_0.
    transitivity (take size l ++ drop size l)%list; [| apply take_drop].
    f_equal.
    etransitivity; [| apply (IH (drop size l)); rewrite length_drop; lia].
    f_equal. apply List.map_ext. intros j.
    rewrite drop_drop. reflexivity.
Qed.

(** X7.  Rendering page 1, page 2, ... up to the last page with SetPage
    shows every row exactly once and in order: every page renders without
    error, and the pages glued together are the rows of the table. *)
Theorem pages_cover_rows (data : InMemory.TableData) p :
  InMemory.Data data = None ->
  InMemory.Rows data <> [] ->
  Pagination (InMemory.Options data) = Some p ->
  Pagination.Enabled p = true ->
  1 <= Pagination.PageSize p ->
  Z.of_nat (length (InMemory.Rows data)) + Pagination.PageSize p - 1
    <= int_max ->
  let pages := ceil_div (Z.of_nat (length (InMemory.Rows data)))
                        (Pagination.PageSize p) in
  let shown (page : Z) :=
    match InMemory.RenderHTML_rows (InMemory.SetPage data page) with
    | Ok (_, rows) => rows
    | _ => []
    end in
  Forall (fun page =>
            exists rows,
              InMemory.RenderHTML_rows (InMemory.SetPage data page)
              = Ok (InMemory.Headers data, rows))
         (seqZ 1 pages) /\
  concat (List.map shown (seqZ 1 pages)) = InMemory.Rows data.
Proof.
  intros Hd Hne Hp He Hps Hmax pages shown.
  set (rows := InMemory.Rows data) in *.
  set (size := Pagination.PageSize p) in *.
  assert (Hlen : 1 <= Z.of_nat (length rows))
    by (destruct rows; [done | cbn [length]; lia]).
  pose proof (ceil_div_spec (Z.of_nat (length rows)) size ltac:(lia)) as Hceil.
  pose proof (ceil_div_pos (Z.of_nat (length rows)) size Hlen ltac:(lia)).
  fold pages in Hceil, H.
  assert (Hrun : forall page,
    1 <= page <= pages ->
    InMemory.RenderHTML_rows (InMemory.SetPage data page)
    = Ok (InMemory.Headers data,
          take (Z.to_nat size) (drop (Z.to_nat ((page - 1) * size)) rows))).
  { intros page Hpage. unfold InMemory.RenderHTML_rows, InMemory.SetPage.
    rewrite Hp. cbn [InMemory.Data InMemory.Headers InMemory.Rows
                     InMemory.Options Pagination].
    rewrite Hd. fold rows.
    match goal with |- context [InMemory.paginateRows rows (Some ?q)] =>
      rewrite (paginateRows_window rows q Hne He Hps Hmax) end.
    cbn [Pagination.PageSize Pagination.CurrentPage]. fold size pages.
    by replace (Z.min (Z.max 1 page) pages) with page by lia. }
  split.
  - apply Forall_forall. intros page Hin. apply elem_of_seqZ in Hin.
    eexists. apply Hrun. lia.
  - unfold seqZ.
    change (List.map shown ((fun i => Z.of_nat i + 1) <$> ?l))
      with (List.map shown (List.map (fun i => Z.of_nat i + 1) l)).
    rewrite List.map_map.
    rewrite (List.map_ext_in _
               (fun j => take (Z.to_nat size)
                           (drop (j * Z.to_nat size) rows))).
    + apply concat_chunks; [lia |]. nia.
    + intros j Hj. apply in_seq in Hj. unfold shown.
      rewrite Hrun by lia. do 2 f_equal. nia.
Qed.

Lemma pages_cover_rows_witness :
  let data :=
    InMemory.mkTable ["n"] [[VOther "1"]; [VOther "2"]; [VOther "3"]] None
      (mkOptions "" "" false false false ""
                 (Some (pagination_of 2 1 0)) None None) in
  concat
    (List.map
       (fun page =>
          match InMemory.RenderHTML_rows (InMemory.SetPage data page) with
          | Ok (_, rows) => rows
          | _ => []
          end)
       (seqZ 1 (ceil_div 3 2)))
  = [[VOther "1"]; [VOther "2"]; [VOther "3"]].
Proof.
  cbv zeta.
  apply (pages_cover_rows
           (InMemory.mkTable ["n"] [[VOther "1"]; [VOther "2"]; [VOther "3"]]
              None
              (mkOptions "" "" false false false ""
                         (Some (pagination_of 2 1 0)) None None))
           (pagination_of 2 1 0));
    [reflexivity | discriminate | reflexivity | reflexivity
    | vm_compute; congruence | vm_compute; congruence].
Defined.

(** ** Printing and reading numbers *)

Lemma digits_of_uint_acc d :
  forall acc : positive,
    strconv.digits (Z.pos acc) (NilEmpty.string_of_uint d)
    = Some (Z.pos (Pos.of_uint_acc d acc)).
Proof.
  induction d; intros acc; cbn [NilEmpty.string_of_uint strconv.digits];
    [reflexivity | ..];
    match goal with
    | |- context [strconv.digit ?c] =>
        let v := eval vm_compute in (strconv.digit c) in
        change (strconv.digit c) with v
    end;
    cbv iota; cbn [Pos.of_uint_acc]; rewrite <- IHd; f_equal; lia.
Qed.

Lemma digits_of_uint d :
  strconv.digits 0 (NilEmpty.string_of_uint d)
  = Some (Z.of_N (Pos.of_uint d)).
Proof.
  induction d; cbn [NilEmpty.string_of_uint strconv.digits Pos.of_uint];
    [reflexivity | ..];
    match goal with
    | |- context [strconv.digit ?c] =>
        let v := eval vm_compute in (strconv.digit c) in
        change (strconv.digit c) with v
    end;
    cbv iota;
    [exact IHd | ..];
    match goal with
    | |- strconv.digits ?z _ = _ =>
        let v := eval vm_compute in z in change z with v
    end; apply digits_of_uint_acc.
Qed.

Lemma string_of_uint_head d :
  d <> Decimal.Nil ->
  exists a s,
    NilEmpty.string_of_uint d = String a s /\
    a <> "+"%char /\ a <> "-"%char.
Proof.
  destruct d; [done | ..]; intros _; do 2 eexists;
    (split; [reflexivity | split; discriminate]).
Qed.

Lemma Atoi_digits s a t :
  s = String a t -> a <> "+"%char -> a <> "-"%char ->
  strconv.Atoi s
  = match strconv.digits 0 s with
    | Some n => if (int_min <=? n) && (n <=? int_max) then Some n else None
    | None => None
    end.
Proof.
  intros -> Hplus Hminus. unfold strconv.Atoi.
  destruct (Ascii.ascii_dec a "+") as [-> | _]; [done |].
  destruct (Ascii.ascii_dec a "-") as [-> | _]; [done |].
  destruct a as [[] [] [] [] [] [] [] []]; try reflexivity; congruence.
Qed.

(** What [fmt.Sprintf("%d", n)] prints, [strconv.Atoi] reads back. *)
Lemma Atoi_Sprintd n : is_int n -> strconv.Atoi (fmt.Sprintd n) = Some n.
Proof.
  intros [Hlo Hhi]. unfold fmt.Sprintd.
  destruct n as [| p | p]; [reflexivity | |].
  - cbn [Z.to_int NilZero.string_of_int].
    pose proof (DecimalPos.Unsigned.to_uint_nonnil p) as Hnil.
    assert (Hs : NilZero.string_of_uint (Pos.to_uint p)
                 = NilEmpty.string_of_uint (Pos.to_uint p))
      by (by destruct (Pos.to_uint p)).
    rewrite Hs.
    destruct (string_of_uint_head _ Hnil) as (a & s & Hstr & Hp & Hm).
    rewrite (Atoi_digits _ a s Hstr Hp Hm), digits_of_uint.
    rewrite DecimalPos.Unsigned.of_to. cbn [Z.of_N].
    destruct (Z.leb_spec int_min (Z.pos p)); [| lia].
    by destruct (Z.leb_spec (Z.pos p) int_max); [| lia].
  - cbn [Z.to_int NilZero.string_of_int].
    pose proof (DecimalPos.Unsigned.to_uint_nonnil p) as Hnil.
    assert (Hs : NilZero.string_of_uint (Pos.to_uint p)
                 = NilEmpty.string_of_uint (Pos.to_uint p))
      by (by destruct (Pos.to_uint p)).
    rewrite Hs.
    destruct (string_of_uint_head _ Hnil) as (a & s & Hstr & _ & _).
    unfold strconv.Atoi. rewrite Hstr, <- Hstr, digits_of_uint.
    rewrite DecimalPos.Unsigned.of_to. cbn [Z.of_N].
    change (- Z.pos p) with (Z.neg p).
    destruct (Z.leb_spec int_min (Z.neg p)); [| lia].
    by destruct (Z.leb_spec (Z.neg p) int_max); [| lia].
Qed.

(** A printed number holds digits and at most a leading minus sign. *)
Lemma string_of_uint_without d sep :
  strconv.digit sep = None ->
  strings.Contains (NilEmpty.string_of_uint d) sep = false.
Proof.
  intros Hsep.
  induction d; cbn [NilEmpty.string_of_uint strings.Contains];
    [reflexivity | ..];
    match goal with
    | |- (if Ascii.eqb ?c sep then _ else _) = _ =>
        destruct (Ascii.eqb_spec c sep) as [<- | _];
          [discriminate Hsep | exact IHd]
    end.
Qed.

Lemma Sprintd_without n sep :
  strconv.digit sep = None -> sep <> "-"%char ->
  strings.Contains (fmt.Sprintd n) sep = false.
Proof.
  intros Hsep Hminus. unfold fmt.Sprintd.
  assert (Hu : forall d, strings.Contains (NilZero.string_of_uint d) sep
                         = false).
  { intros d. destruct d; [| apply (string_of_uint_without _ sep Hsep) ..].
    apply (string_of_uint_without (Decimal.D0 Decimal.Nil) sep Hsep). }
  destruct n as [| p | p]; cbn [Z.to_int NilZero.string_of_int]; [apply Hu ..|].
  cbn [strings.Contains].
  destruct (Ascii.eqb_spec "-"%char sep) as [<- | _]; [done | apply Hu].
Qed.

(** ** Following page links *)

Lemma pageParam_nonempty p : pageParam p <> "".
Proof.
  unfold pageParam. by destruct (String.eqb_spec (Pagination.QueryParam p) "").
Qed.

(** The pairs of a query string that starts with one [&]-free piece. *)
Lemma Split_first_piece first kept :
  ampFree first ->
  exists others,
    strings.Split (first ++ String.concat "" (List.map ampPair kept)) amp
    = first :: others.
Proof.
  intros Hfirst. destruct (ampPairs_start kept) as [-> | [rest ->]].
  - exists []. rewrite append_nil_r. by apply Split_without.
  - exists (strings.Split rest amp).
    change ("&" ++ rest) with (String amp rest).
    by rewrite Split_app_sep, Split_without.
Qed.

Lemma plain_number_pair name n :
  plainName name ->
  ampFree (name ++ "=" ++ fmt.Sprintd n) /\
  strings.Contains (name ++ "=" ++ fmt.Sprintd n) qmark = false.
Proof.
  intros (Ha & _ & Hq). unfold ampFree.
  rewrite !Contains_app, Ha, Hq, !Sprintd_without by done. done.
Qed.

(** Following a page link leads to the page it was built for: when
    the page parameter holds none of [&], [=], [?] and the base URL no
    [?], ParsePageFromQuery reads [page] back from the link of [page], for
    every page from 1 up and whatever parameters the link preserves. *)
Lemma generateURL_followed p visit page :
  plainName (pageParam p) ->
  strings.Contains (Pagination.BaseURL p) qmark = false ->
  1 <= page <= int_max ->
  followPageLink p
    (generateURL (Pagination.BaseURL p) (pageParam p) visit page)
  = page.
Proof.
  intros Hname Hbase Hpage. unfold followPageLink.
  rewrite generateURL_shape, afterFirstQmark_composeURL by done.
  rewrite ParsePageFromQuery_loop.
  change (if String.eqb (Pagination.QueryParam p) "" then "page"
          else Pagination.QueryParam p) with (pageParam p).
  rewrite queryPairs_plain by (apply pageParam_nonempty || apply Hname).
  rewrite <- !append_assoc, (append_assoc (pageParam p)).
  destruct (Split_first_piece (pageParam p ++ "=" ++ fmt.Sprintd page)
              (List.filter (fun kv => negb (String.eqb (fst kv) (pageParam p)))
                           visit)) as [others ->];
    [by apply plain_number_pair |].
  cbn [firstPage].
  change (pageParam p ++ "=" ++ fmt.Sprintd page)
    with (fmt.Sprint_pair (pageParam p) (fmt.Sprintd page)).
  rewrite keyValue_pair by apply Hname. rewrite String.eqb_refl.
  rewrite Atoi_Sprintd by (unfold is_int, int_min; lia).
  by destruct (Z.gtb_spec page 0); [| lia].
Qed.

(** What the page loop writes, item by item. *)
Lemma pageLoop_items (Q : NavItem -> Prop) url cp lo end_ :
  end_ < int_max ->
  (forall k i, lo <= i <= end_ -> i <> cp -> Q (PageLink (url k i) i)) ->
  Q (PageActive cp) ->
  forall fuel i k items k',
    lo <= i -> int_min <= i ->
    pageLoop fuel url cp i end_ k = Some (items, k') ->
    Forall Q items.
Proof.
  intros Hend Hlink Hactive.
  assert (Hb : int_max = 2 ^ 63 - 1) by reflexivity.
  assert (Hm : int_min = - 2 ^ 63) by reflexivity.
  induction fuel as [| fuel IH]; intros i k items k' Hlo Hmin Hrun; [done |].
  cbn [pageLoop] in Hrun. destruct (Z.leb_spec i end_) as [Hle | Hgt].
  - unfold add in Hrun. rewrite (wrap_id (i + 1)) in Hrun
      by (unfold is_int; lia).
    destruct (Z.eqb_spec i cp) as [-> | Hne].
    + destruct (pageLoop fuel url cp (cp + 1) end_ k)
        as [[rest k''] |] eqn:Hrest; [| done].
      injection Hrun as <- <-. constructor; [done |].
      eapply IH; [| | exact Hrest]; lia.
    + destruct (pageLoop fuel url cp (i + 1) end_ (S k))
        as [[rest k''] |] eqn:Hrest; [| done].
      injection Hrun as <- <-. constructor; [apply Hlink; lia |].
      eapply IH; [| | exact Hrest]; lia.
  - injection Hrun as <- <-. constructor.
Qed.

Lemma pageNumbers_In items i :
  In i (pageNumbers items) ->
  In (PageActive i) items \/ exists url, In (PageLink url i) items.
Proof.
  unfold pageNumbers. rewrite in_flat_map. intros (item & Hin & Hi).
  destruct item; cbn in Hi; try done; destruct Hi as [<- | []]; eauto.
Qed.

(** X8.  The controls of a valid pagination state do what they show.  For
    [2 <= TotalPages <= int_max - 2] and [1 <= CurrentPage <= TotalPages]
    (what calculatePagination returns when there are rows), with a page
    parameter free of [&], [=], [?] and a base URL without [?]:
    Previous is a link exactly when there is a page before the current
    one and leads there, Next likewise; every numbered link leads to the
    page of its number, which exists; and the current page is among the
    numbered items, as plain text and not as a link. *)
Theorem nav_items_lead_to_their_pages order fuel info p m :
  (6 <= fuel)%nat ->
  2 <= PaginationInfo.TotalPages info <= int_max - 2 ->
  1 <= PaginationInfo.CurrentPage info <= PaginationInfo.TotalPages info ->
  plainName (pageParam p) ->
  strings.Contains (Pagination.BaseURL p) qmark = false ->
  exists items,
    generatePaginationItems order fuel info p m = Some items /\
    Forall (navItemLeads p (PaginationInfo.CurrentPage info)
                         (PaginationInfo.TotalPages info)) items /\
    In (PageActive (PaginationInfo.CurrentPage info)) items.
Proof.
  intros Hfuel [Htp Hmax] [Hcp1 Hcp2] Hname Hbase.
  assert (Hb : int_max = 2 ^ 63 - 1) by reflexivity.
  assert (Hm : int_min = - 2 ^ 63) by reflexivity.
  set (cp := PaginationInfo.CurrentPage info) in *.
  set (tp := PaginationInfo.TotalPages info) in *.
  assert (Hwin : exists s e, pageWindow info = (s, e) /\
                 1 <= s /\ s <= cp <= e /\ e <= tp /\ e - s + 1 <= 5).
  { destruct (Z.le_gt_cases tp 5).
    - exists 1, tp. rewrite pageWindow_small by done.
      split; [reflexivity | lia].
    - pose proof (pageWindow_large info ltac:(fold tp; lia)
                    ltac:(fold tp; lia)
                    ltac:(fold cp; lia)) as Hw.
      cbv zeta in Hw. fold cp tp in Hw.
      eexists _, _. split; [exact Hw |]. lia. }
  destruct Hwin as (s & e & Hw & Hs & Hse & He & Hlen).
  destruct (generatePaginationItems_numbers order fuel info p m s e Hw)
    as (items & Hitems & Hnum); [lia .. |].
  exists items. split; [done |].
  assert (Hfollow : forall k page,
    1 <= page <= int_max ->
    followPageLink p
      (generateURL (Pagination.BaseURL p) (pageParam p)
                   (order k (map_to_list m)) page) = page)
    by (intros; by apply generateURL_followed).
  assert (Hall : Forall (navItemLeads p cp tp) items).
  { revert Hitems. unfold generatePaginationItems. rewrite Hw. fold cp tp.
    destruct (Z.gtb_spec cp 1) as [Hprev | Hprev];
      match goal with |- context [pageLoop fuel ?u cp s e ?k] =>
        destruct (pageLoop fuel u cp s e k) as [[pages k'] |] eqn:Hrun
      end; try done; intros [= <-];
      (apply (pageLoop_items (navItemLeads p cp tp) _ cp s e) in Hrun;
       [| lia
        | intros k i Hi Hne; cbn [navItemLeads];
          split; [done |]; split; [lia |]; apply Hfollow; lia
        | reflexivity | lia | lia]);
      constructor;
      try (apply Forall_app_2; [done |]; constructor; [| constructor]);
      cbn [navItemLeads]; try lia.
    - split; [lia |]. unfold sub. rewrite wrap_id by (unfold is_int; lia).
      apply Hfollow. lia.
    - destruct (Z.ltb_spec cp tp); cbn [navItemLeads]; [| lia].
      split; [done |]. unfold add. rewrite wrap_id by (unfold is_int; lia).
      apply Hfollow. lia.
    - destruct (Z.ltb_spec cp tp); cbn [navItemLeads]; [| lia].
      split; [done |]. unfold add. rewrite wrap_id by (unfold is_int; lia).
      apply Hfollow. lia. }
  split; [done |].
  assert (Hin : In cp (pageNumbers items)).
  { rewrite Hnum. apply list_elem_of_In, elem_of_seqZ. lia. }
  apply pageNumbers_In in Hin as [Hin | [url Hin]]; [done |].
  rewrite List.Forall_forall in Hall. apply Hall in Hin.
  cbn [navItemLeads] in Hin. by destruct Hin.
Qed.

Lemma nav_items_lead_to_their_pages_witness :
  let info := PaginationInfo.mk 2 12 120 10 11 20 in
  let p := pagination_of 10 2 120 in
  let m : gmap string string := <["search" := "ann"]> (<["page" := "2"]> ∅) in
  exists items,
    generatePaginationItems reversedOrder 6 info p m = Some items /\
    Forall (navItemLeads p 2 12) items /\
    In (PageActive 2) items.
Proof.
  cbv zeta.
  apply (nav_items_lead_to_their_pages reversedOrder 6
           (PaginationInfo.mk 2 12 120 10 11 20) (pagination_of 10 2 120)
           (<["search" := "ann"]> (<["page" := "2"]> ∅))).
  - lia.
  - vm_compute. split; congruence.
  - vm_compute. split; congruence.
  - repeat split; reflexivity.
  - reflexivity.
Defined.

(** ** Reading generated links back with parseQueryParams *)

Lemma parse_loop_pairs (l : list (string * string)) :
  Forall (fun kv => strings.Contains (fst kv) eq_sign = false) l ->
  forall params : gmap string string,
    fold_left
      (fun params pair =>
         match strings.cut pair eq_sign with
         | Some (key, value) => <[key := value]> params
         | None => params
         end)
      (List.map (fun kv => fmt.Sprint_pair (fst kv) (snd kv)) l) params
    = fold_left (fun params kv => <[fst kv := snd kv]> params) l params.
Proof.
  induction 1 as [| kv l Hkey _ IH]; intros params; [done |].
  cbn [List.map fold_left].
  change (fmt.Sprint_pair (fst kv) (snd kv))
    with (fst kv ++ String eq_sign (snd kv)).
  by rewrite cut_pair, IH.
Qed.

Lemma insert_loop_list_to_map (l : list (string * string)) :
  forall params : gmap string string,
    fold_left (fun params kv => <[fst kv := snd kv]> params) l params
    = list_to_map (reverse l) ∪ params.
Proof.
  induction l as [| [key value] l IH]; intros params.
  - cbn. by rewrite (left_id_L ∅ (∪)).
  - cbn [fold_left fst snd]. rewrite IH, reverse_cons, list_to_map_app.
    cbn [list_to_map foldr fst snd].
    rewrite <- (assoc_L (∪)). f_equal.
    rewrite insert_union_singleton_l.
    by rewrite insert_empty.
Qed.

(** The value the loop leaves for a key that the pairs give one value. *)
Lemma insert_loop_lookup_Some (l : list (string * string)) key value :
  In (key, value) l ->
  (forall value', In (key, value') l -> value' = value) ->
  fold_left (fun params kv => <[fst kv := snd kv]> params) l
            (∅ : gmap string string) !! key
  = Some value.
Proof.
  intros Hin Hfun. rewrite insert_loop_list_to_map, lookup_union_l'.
  - apply elem_of_list_to_map_1'.
    + intros y Hy. symmetry. apply Hfun, list_elem_of_In.
      by apply elem_of_reverse.
    + by apply elem_of_reverse, list_elem_of_In.
  - exists value. apply elem_of_list_to_map_1'.
    + intros y Hy. symmetry. apply Hfun, list_elem_of_In.
      by apply elem_of_reverse.
    + by apply elem_of_reverse, list_elem_of_In.
Qed.

Lemma insert_loop_lookup_None (l : list (string * string)) key :
  (forall value, ~ In (key, value) l) ->
  fold_left (fun params kv => <[fst kv := snd kv]> params) l
            (∅ : gmap string string) !! key
  = None.
Proof.
  intros Hnot. rewrite insert_loop_list_to_map, lookup_union_r.
  - apply lookup_empty.
  - apply not_elem_of_list_to_map_1. intros Hin.
    apply list_elem_of_fmap in Hin as ([k v] & -> & Hin).
    rewrite elem_of_reverse, list_elem_of_In in Hin. exact (Hnot v Hin).
Qed.

Lemma Join_pairs (first : string * string) (others : list (string * string)) :
  strings.Join
    (List.map (fun kv => fmt.Sprint_pair (fst kv) (snd kv)) (first :: others))
    "&"
  = fmt.Sprint_pair (fst first) (snd first)
    ++ String.concat "" (List.map ampPair others).
Proof. cbn [List.map]. by rewrite Join_cons, List.map_map. Qed.

Lemma ampPairs_without (l : list (string * string)) sep :
  sep <> amp -> sep <> eq_sign ->
  Forall (fun kv => strings.Contains (fst kv) sep = false /\
                    strings.Contains (snd kv) sep = false) l ->
  strings.Contains (String.concat "" (List.map ampPair l)) sep = false.
Proof.
  intros Hamp Heq. induction 1 as [| kv l [Hk Hv] _ IH]; [done |].
  cbn [List.map]. rewrite concat_nosep_cons, Contains_app, IH.
  unfold ampPair, fmt.Sprint_pair.
  rewrite !Contains_app, Hk, Hv. cbn [strings.Contains orb].
  destruct (Ascii.eqb_spec "&"%char sep); [by subst |].
  by destruct (Ascii.eqb_spec "="%char sep); [subst |].
Qed.

(** A key and a value as the links can carry them without damage. *)
Lemma parse_link baseURL (first : string * string)
    (others : list (string * string)) :
  strings.Contains baseURL qmark = false ->
  Forall (fun kv => plainName (fst kv) /\ ampFree (snd kv) /\
                    strings.Contains (snd kv) qmark = false)
         (first :: others) ->
  parseQueryParams
    (composeURL baseURL
       (strings.Join
          (List.map (fun kv => fmt.Sprint_pair (fst kv) (snd kv))
                    (first :: others)) "&"))
  = fold_left (fun params kv => <[fst kv := snd kv]> params)
              (first :: others) ∅.
Proof.
  intros Hbase Hall.
  assert (Hfirst : plainName (fst first) /\ ampFree (snd first) /\
                   strings.Contains (snd first) qmark = false)
    by (by apply Forall_cons_1 in Hall as [? _]).
  assert (Hothers : Forall (fun kv => plainName (fst kv) /\ ampFree (snd kv) /\
                      strings.Contains (snd kv) qmark = false) others)
    by (by apply Forall_cons_1 in Hall as [_ ?]).
  destruct Hfirst as ((Hfa & Hfe & Hfq) & Hva & Hvq).
  rewrite parseQueryParams_one_qmark.
  - unfold parse_as_specified. rewrite afterFirstQmark_composeURL by done.
    rewrite Join_pairs, Split_ampPairs.
    + rewrite <- parse_loop_pairs; [done |].
      eapply Forall_impl; [exact Hall |]. by intros kv ((_ & ? & _) & _).
    + eapply Forall_impl; [exact Hothers |]. by intros kv ((? & _) & ? & _).
    + by apply ampFree_pair.
  - rewrite afterFirstQmark_composeURL by done.
    rewrite Join_pairs, Contains_app, ampPairs_without; try done.
    + unfold fmt.Sprint_pair. by rewrite !Contains_app, Hfq, Hvq.
    + eapply Forall_impl; [exact Hothers |].
      by intros kv ((_ & _ & ?) & _ & ?).
Qed.

(** The entries a filtering range loop keeps. *)
Lemma kept_entries order k (m : gmap string string) (keep : string -> bool)
    key value :
  range_ok order ->
  In (key, value)
     (List.filter (fun kv => keep (fst kv)) (order k (map_to_list m)))
  <-> m !! key = Some value /\ keep key = true.
Proof.
  intros Hord. rewrite List.filter_In, <- list_elem_of_In, (Hord k).
  by rewrite elem_of_map_to_list.
Qed.

(** X9.  A page link reads back as the current parameters with the page
    set: for keys free of [&], [=], [?], values free of [&] and [?] and a
    base URL without [?], parseQueryParams of the link of [page] is the
    map of current parameters with the page parameter bound to [page],
    whatever order the map was visited in. *)
Theorem page_link_parses_back order k p (m : gmap string string) page :
  range_ok order ->
  strings.Contains (Pagination.BaseURL p) qmark = false ->
  plainName (pageParam p) ->
  carriedIntact m ->
  parseQueryParams
    (generateURL (Pagination.BaseURL p) (pageParam p)
                 (order k (map_to_list m)) page)
  = <[pageParam p := fmt.Sprintd page]> m.
Proof.
  intros Hord Hbase Hname Hm.
  set (keep := fun key => negb (String.eqb key (pageParam p))).
  set (kept := List.filter (fun kv => keep (fst kv)) (order k (map_to_list m))).
  assert (Hurl : generateURL (Pagination.BaseURL p) (pageParam p)
                   (order k (map_to_list m)) page
                 = composeURL (Pagination.BaseURL p)
                     (strings.Join
                        (List.map (fun kv => fmt.Sprint_pair (fst kv) (snd kv))
                           ((pageParam p, fmt.Sprintd page) :: kept)) "&")).
  { unfold generateURL. by rewrite appendPreserved_spec. }
  rewrite Hurl, parse_link; [| done |].
  - apply map_eq. intros key.
    destruct (decide (key = pageParam p)) as [-> | Hne].
    + rewrite lookup_insert_eq. apply insert_loop_lookup_Some; [by left |].
      intros value' [[= <-] | Hin]; [done |].
      apply kept_entries in Hin as [_ Hkeep]; [| done].
      unfold keep in Hkeep. by rewrite String.eqb_refl in Hkeep.
    + rewrite lookup_insert_ne by done.
      destruct (m !! key) as [value |] eqn:Hkey.
      * apply insert_loop_lookup_Some.
        -- right. apply kept_entries; [done |]. split; [done |].
           unfold keep. by destruct (String.eqb_spec key (pageParam p)).
        -- intros value' [[= ? ?] | Hin]; [done |].
           apply kept_entries in Hin as [Hin _]; [| done]. congruence.
      * apply insert_loop_lookup_None.
        intros value [[= ? ?] | Hin]; [done |].
        apply kept_entries in Hin as [Hin _]; [| done]. congruence.
  - constructor.
    + cbn [fst snd]. split; [done |]. unfold ampFree.
      by rewrite !Sprintd_without.
    + apply List.Forall_forall. intros [key value] Hin.
      apply kept_entries in Hin as [Hin _]; [| done]. by apply Hm.
Qed.

Lemma carriedIntact_entries (m : gmap string string) :
  forallb (fun kv => negb (strings.Contains (fst kv) amp)
                     && negb (strings.Contains (fst kv) eq_sign)
                     && negb (strings.Contains (fst kv) qmark)
                     && negb (strings.Contains (snd kv) amp)
                     && negb (strings.Contains (snd kv) qmark))
          (map_to_list m) = true ->
  carriedIntact m.
Proof.
  intros Hall key value Hm. rewrite forallb_forall in Hall.
  apply elem_of_map_to_list, list_elem_of_In, Hall in Hm. cbn [fst snd] in Hm.
  unfold plainName, ampFree.
  by destruct (strings.Contains key amp), (strings.Contains key eq_sign),
       (strings.Contains key qmark), (strings.Contains value amp),
       (strings.Contains value qmark).
Qed.

Lemma page_link_parses_back_witness :
  parseQueryParams
    (generateURL "/users" "p"
       (reversedOrder 4%nat
          (map_to_list (<["p" := "3"]> (<["search" := "ann"]> ∅)))) 7)
  = <["p" := fmt.Sprintd 7]> (<["p" := "3"]> (<["search" := "ann"]> ∅)).
Proof.
  apply (page_link_parses_back reversedOrder 4
           (Pagination.mk true 10 3 true true false [] "/users" "p" true 95)
           (<["p" := "3"]> (<["search" := "ann"]> ∅)) 7).
  - apply reversedOrder_ok.
  - reflexivity.
  - repeat split; reflexivity.
  - apply carriedIntact_entries. vm_compute. reflexivity.
Defined.

(** What a filtering range loop over the map adds to the parameters read
    so far. *)
Lemma kept_loop_lookup order k (m : gmap string string) (keep : string -> bool)
    (acc : gmap string string) key :
  range_ok order ->
  fold_left (fun params kv => <[fst kv := snd kv]> params)
            (List.filter (fun kv => keep (fst kv)) (order k (map_to_list m)))
            acc !! key
  = if keep key
    then match m !! key with Some value => Some value | None => acc !! key end
    else acc !! key.
Proof.
  intros Hord. rewrite insert_loop_list_to_map.
  destruct (keep key) eqn:Hkeep; [destruct (m !! key) as [value |] eqn:Hm |].
  - apply lookup_union_Some_l, elem_of_list_to_map_1'.
    + intros y Hy. rewrite elem_of_reverse, list_elem_of_In in Hy.
      apply kept_entries in Hy as [Hy _]; [| done]. congruence.
    + rewrite elem_of_reverse, list_elem_of_In. by apply kept_entries.
  - apply lookup_union_r, not_elem_of_list_to_map_1. intros Hin.
    apply list_elem_of_fmap in Hin as ([key' value] & Heq & Hin).
    cbn in Heq. subst key'.
    rewrite elem_of_reverse, list_elem_of_In in Hin.
    apply kept_entries in Hin as [Hin _]; [| done]. congruence.
  - apply lookup_union_r, not_elem_of_list_to_map_1. intros Hin.
    apply list_elem_of_fmap in Hin as ([key' value] & Heq & Hin).
    cbn in Heq. subst key'.
    rewrite elem_of_reverse, list_elem_of_In in Hin.
    apply kept_entries in Hin as [_ Hin]; [| done]. congruence.
Qed.

Lemma kept_carried order k (m : gmap string string) (keep : string -> bool) :
  range_ok order ->
  carriedIntact m ->
  Forall (fun kv => plainName (fst kv) /\ ampFree (snd kv) /\
                    strings.Contains (snd kv) qmark = false)
         (List.filter (fun kv => keep (fst kv)) (order k (map_to_list m))).
Proof.
  intros Hord Hm. apply List.Forall_forall. intros [key value] Hin.
  apply kept_entries in Hin as [Hin _]; [| done]. by apply Hm.
Qed.

(** X10.  A sort link reads back as the current parameters with the page
    dropped and the sort column and the toggled order set: for parameter
    names free of [&], [=], [?], a column name and parameter values free
    of [&] and [?] and a base URL without [?], parseQueryParams of the link
    of the column at position [i] is the map of current parameters without
    [page], with the sort parameter bound to the column and the order
    parameter to the toggled order. *)
Theorem sort_link_parses_back order headers s (m : gmap string string) i C :
  range_ok order ->
  Sorting.Enabled s = true ->
  headers !! i = Some C ->
  strings.Contains (Sorting.BaseURL s) qmark = false ->
  plainName (sortParamOf s) ->
  plainName (orderParamOf s) ->
  ampFree C ->
  strings.Contains C qmark = false ->
  carriedIntact m ->
  exists link,
    generateSortLinks order headers (Some s) m !! i = Some link /\
    parseQueryParams link
    = <[orderParamOf s := toggledOrder s C]>
        (<[sortParamOf s := C]> (delete "page" m)).
Proof.
  intros Hord He Hi Hbase Hsp Hop HC HCq Hm. eexists. split.
  - unfold generateSortLinks. rewrite He. cbn [negb].
    by rewrite (sortLinksLoop_lookup order s m headers 0 _ i C Hi)
      by (rewrite length_replicate; lia).
  - cbn [Nat.add].
    set (keep := fun key => negb (String.eqb key (sortParamOf s))
                            && negb (String.eqb key (orderParamOf s))
                            && negb (String.eqb key "page")).
    set (kept := List.filter (fun kv => keep (fst kv))
                             (order i (map_to_list m))).
    assert (Hq : sortQueryString s C (order i (map_to_list m))
                 = strings.Join
                     (List.map (fun kv => fmt.Sprint_pair (fst kv) (snd kv))
                        ((sortParamOf s, C)
                         :: (orderParamOf s, toggledOrder s C) :: kept)) "&").
    { unfold sortQueryString. cbn [app]. by rewrite appendPreserved_spec. }
    rewrite Hq, parse_link; [| done |].
    + cbn [fold_left fst snd]. apply map_eq. intros key.
      unfold kept. rewrite kept_loop_lookup by done. unfold keep.
      destruct (String.eqb_spec key (orderParamOf s)) as [-> | Hno].
      { rewrite andb_false_r. cbn [andb]. by rewrite !lookup_insert_eq. }
      rewrite !(lookup_insert_ne _ (orderParamOf s)) by done.
      destruct (String.eqb_spec key (sortParamOf s)) as [-> | Hns].
      { cbn [negb andb]. by rewrite !lookup_insert_eq. }
      rewrite !(lookup_insert_ne _ (sortParamOf s)) by done.
      destruct (String.eqb_spec key "page") as [-> | Hnp]; cbn [negb andb].
      { by rewrite lookup_delete_eq, lookup_empty. }
      rewrite lookup_delete_ne, lookup_empty by done.
      by destruct (m !! key).
    + constructor; [| constructor].
      * done.
      * cbn [fst snd]. split; [done |].
        unfold toggledOrder.
        by destruct (String.eqb (Sorting.SortBy s) C
                     && String.eqb (Sorting.SortOrder s) "asc").
      * by apply kept_carried.
Qed.

Lemma sort_link_parses_back_witness :
  exists link,
    generateSortLinks reversedOrder ["ID"; "Name"]
      (Some (Sorting.mk true "Name" "asc" "/users" "" ""))
      (<["page" := "3"]> (<["search" := "ann"]> ∅)) !! 1%nat
    = Some link /\
    parseQueryParams link
    = <["sort_order" := "desc"]>
        (<["sort_by" := "Name"]>
           (delete "page" (<["page" := "3"]> (<["search" := "ann"]> ∅)))).
Proof.
  apply (sort_link_parses_back reversedOrder ["ID"; "Name"]
           (Sorting.mk true "Name" "asc" "/users" "" "")
           (<["page" := "3"]> (<["search" := "ann"]> ∅)) 1 "Name").
  - apply reversedOrder_ok.
  - reflexivity.
  - reflexivity.
  - reflexivity.
  - repeat split; reflexivity.
  - repeat split; reflexivity.
  - reflexivity.
  - reflexivity.
  - apply carriedIntact_entries. vm_compute. reflexivity.
Defined.

(** X11.  A page-size link reads back as the current parameters with the
    size set and the page back at 1: under the same conditions on names,
    values and base URL, parseQueryParams of the link of [size] is the map
    of current parameters with [page_size] bound to [size] and [page] to
    [1]. *)
Theorem page_size_link_parses_back order k baseURL (m : gmap string string)
    size :
  range_ok order ->
  strings.Contains baseURL qmark = false ->
  carriedIntact m ->
  parseQueryParams (pageSizeURL baseURL (order k (map_to_list m)) size)
  = <["page" := "1"]> (<["page_size" := fmt.Sprintd size]> m).
Proof.
  intros Hord Hbase Hm.
  set (keep := fun key => negb (String.eqb key "page")
                          && negb (String.eqb key "page_size")).
  set (kept := List.filter (fun kv => keep (fst kv))
                           (order k (map_to_list m))).
  assert (Hurl : pageSizeURL baseURL (order k (map_to_list m)) size
                 = composeURL baseURL
                     (strings.Join
                        (List.map (fun kv => fmt.Sprint_pair (fst kv) (snd kv))
                           (("page_size", fmt.Sprintd size)
                            :: ("page", "1") :: kept)) "&")).
  { unfold pageSizeURL. cbn [app]. by rewrite appendPreserved_spec. }
  rewrite Hurl, parse_link; [| done |].
  - cbn [fold_left fst snd]. apply map_eq. intros key.
    unfold kept. rewrite kept_loop_lookup by done. unfold keep.
    destruct (String.eqb_spec key "page") as [-> | Hnp].
    { cbn [negb andb]. by rewrite !lookup_insert_eq. }
    rewrite !(lookup_insert_ne _ "page") by done.
    destruct (String.eqb_spec key "page_size") as [-> | Hns].
    { cbn [negb andb]. by rewrite !lookup_insert_eq. }
    rewrite !(lookup_insert_ne _ "page_size") by done.
    cbn [negb andb]. rewrite lookup_empty. by destruct (m !! key).
  - constructor; [| constructor].
    + cbn [fst snd]. split; [done |]. unfold ampFree.
      by rewrite !Sprintd_without.
    + done.
    + by apply kept_carried.
Qed.

Lemma page_size_link_parses_back_witness :
  parseQueryParams
    (pageSizeURL "/users"
       (reversedOrder 2%nat
          (map_to_list (<["page" := "3"]> (<["search" := "ann"]> ∅)))) 25)
  = <["page" := "1"]>
      (<["page_size" := fmt.Sprintd 25]>
         (<["page" := "3"]> (<["search" := "ann"]> ∅))).
Proof.
  apply (page_size_link_parses_back reversedOrder 2 "/users"
           (<["page" := "3"]> (<["search" := "ann"]> ∅)) 25).
  - apply reversedOrder_ok.
  - reflexivity.
  - apply carriedIntact_entries. vm_compute. reflexivity.
Defined.

(** ** The links of the search form *)

Lemma Split_pieces_without s sep c :
  strings.Contains s c = false ->
  Forall (fun piece => strings.Contains piece c = false) (strings.Split s sep).
Proof.
  induction s as [| a s IH]; cbn [strings.Contains strings.Split]; intros Hs.
  - by constructor.
  - destruct (Ascii.eqb a c) eqn:Hac; [done |]. specialize (IH Hs).
    destruct (Ascii.eqb a sep); [by constructor |].
    destruct (strings.Split s sep) as [| piece pieces].
    + constructor; [| done]. cbn [strings.Contains]. by rewrite Hac.
    + apply Forall_cons_1 in IH as [Hp Hps].
      constructor; [| done]. cbn [strings.Contains]. by rewrite Hac.
Qed.

(** A text without [?] and without [=] holds no parameter. *)
Lemma parse_plain s :
  strings.Contains s qmark = false ->
  strings.Contains s eq_sign = false ->
  parseQueryParams s = ∅.
Proof.
  intros Hq He.
  assert (Hafter : afterFirstQmark s = s).
  { unfold afterFirstQmark. rewrite Contains_cut in Hq.
    by destruct (strings.cut s qmark) as [[? ?] |]. }
  rewrite parseQueryParams_one_qmark by (by rewrite Hafter).
  unfold parse_as_specified. rewrite Hafter.
  generalize (Split_pieces_without s amp eq_sign He).
  generalize (∅ : gmap string string).
  induction (strings.Split s amp) as [| piece pieces IH]; intros acc Hall;
    [done |].
  apply Forall_cons_1 in Hall as [Hp Hps]. cbn [fold_left].
  rewrite Contains_cut in Hp.
  destruct (strings.cut piece eq_sign) as [[? ?] |]; [done |]. by apply IH.
Qed.

Lemma TrimSuffix_last s c : TrimSuffix (s ++ String c "") c = s.
Proof.
  induction s as [| a s IH].
  - rewrite append_nil_l. cbn. by rewrite Ascii.eqb_refl.
  - rewrite append_cons. destruct (s ++ String c "") as [| b t] eqn:Hs.
    + destruct s; rewrite ?append_nil_l, ?append_cons in Hs; discriminate.
    + change (TrimSuffix (String a (String b t)) c)
        with (String a (TrimSuffix (String b t) c)).
      by rewrite IH.
Qed.

Lemma TrimSuffix_without s suffix c :
  strings.Contains s c = false ->
  strings.Contains (TrimSuffix s suffix) c = false.
Proof.
  induction s as [| a s IH]; [done |]. cbn [strings.Contains].
  destruct (Ascii.eqb a c) eqn:Hac; [done |]. intros Hs.
  destruct s as [| b s].
  - cbn [TrimSuffix]. destruct (Ascii.eqb a suffix); [done |].
    cbn [strings.Contains]. by rewrite Hac.
  - change (TrimSuffix (String a (String b s)) suffix)
      with (String a (TrimSuffix (String b s) suffix)).
    cbn [strings.Contains]. rewrite Hac. by apply IH.
Qed.

Lemma composeURL_has_qmark baseURL queryString :
  strings.Contains baseURL qmark = false ->
  strings.Contains (composeURL baseURL queryString) qmark = true /\
  String.eqb (composeURL baseURL queryString) "" = false.
Proof.
  intros Hbase.
  assert (Hq : strings.Contains (composeURL baseURL queryString) qmark = true).
  { unfold composeURL. destruct (String.eqb baseURL ""); [done |].
    rewrite Hbase, Contains_app. cbn [strings.Contains].
    change ("?" ++ queryString) with (String qmark queryString).
    cbn [strings.Contains]. rewrite Ascii.eqb_refl. apply orb_true_r. }
  split; [done |].
  by destruct (composeURL baseURL queryString).
Qed.

Lemma Join_pairs_app (l1 l2 : list (string * string)) :
  l1 <> [] -> l2 <> [] ->
  strings.Join
    (List.map (fun kv => fmt.Sprint_pair (fst kv) (snd kv)) (l1 ++ l2)) "&"
  = strings.Join
      (List.map (fun kv => fmt.Sprint_pair (fst kv) (snd kv)) l1) "&"
    ++ "&"
    ++ strings.Join
         (List.map (fun kv => fmt.Sprint_pair (fst kv) (snd kv)) l2) "&".
Proof.
  destruct l1 as [| f1 o1]; [done |]. destruct l2 as [| f2 o2]; [done |].
  intros _ _. change ((f1 :: o1) ++ f2 :: o2)%list with (f1 :: (o1 ++ f2 :: o2))%list.
  rewrite !Join_pairs, List.map_app, concat_nosep_app.
  cbn [List.map]. rewrite concat_nosep_cons. unfold ampPair at 2.
  by rewrite !append_assoc.
Qed.

Lemma parse_link_list baseURL (l : list (string * string)) :
  l <> [] ->
  strings.Contains baseURL qmark = false ->
  Forall (fun kv => plainName (fst kv) /\ ampFree (snd kv) /\
                    strings.Contains (snd kv) qmark = false) l ->
  parseQueryParams
    (composeURL baseURL
       (strings.Join
          (List.map (fun kv => fmt.Sprint_pair (fst kv) (snd kv)) l) "&"))
  = fold_left (fun params kv => <[fst kv := snd kv]> params) l ∅.
Proof. destruct l; [done |]. intros _. apply parse_link. Qed.

Lemma kept_nil order k k' (m : gmap string string) (keep : string -> bool) :
  range_ok order ->
  List.filter (fun kv => keep (fst kv)) (order k (map_to_list m)) = [] ->
  List.filter (fun kv => keep (fst kv)) (order k' (map_to_list m)) = [].
Proof.
  intros Hord Hnil.
  destruct (List.filter _ (order k' _)) as [| [key value] rest] eqn:Hk';
    [done |].
  assert (Hin : In (key, value)
                   (List.filter (fun kv => keep (fst kv))
                                (order k' (map_to_list m))))
    by (rewrite Hk'; by left).
  apply kept_entries in Hin; [| done].
  apply (kept_entries order k) in Hin; [| done]. by rewrite Hnil in Hin.
Qed.

(** X12.  The links of the search form read back as the current parameters
    without the search term and the page: for a base URL free of [?] and
    [=] and parameters that links carry intact, parseQueryParams of the
    form's action URL and of the URL of its clear button both are the map
    of current parameters with the search parameter and [page] deleted,
    whether or not any parameter is left and although the clear URL names
    every kept parameter twice. *)
Theorem search_links_parse_back order s (m : gmap string string) :
  range_ok order ->
  strings.Contains (Search.BaseURL s) qmark = false ->
  strings.Contains (Search.BaseURL s) eq_sign = false ->
  carriedIntact m ->
  let entries := map_to_list m in
  let actionURL := searchActionURL s (order 0%nat entries) in
  parseQueryParams actionURL = delete "page" (delete (searchParamOf s) m) /\
  parseQueryParams (searchClearURL s actionURL (order 2%nat entries))
  = delete "page" (delete (searchParamOf s) m).
Proof.
  intros Hord Hq He Hm entries actionURL.
  unfold actionURL, searchClearURL, searchActionURL, entries.
  rewrite !appendPreserved_spec. cbn [app]. rewrite !length_map.
  set (kept0 := List.filter (fun kv => searchKeeps (searchParamOf s) (fst kv))
                            (order 0%nat (map_to_list m))).
  set (kept2 := List.filter (fun kv => searchKeeps (searchParamOf s) (fst kv))
                            (order 2%nat (map_to_list m))).
  set (pairs := List.map (fun kv => fmt.Sprint_pair (fst kv) (snd kv))).
  assert (Hlookup : forall kept (acc : gmap string string) key,
            (kept = kept0 \/ kept = kept2) ->
            fold_left (fun params kv => <[fst kv := snd kv]> params) kept acc
              !! key
            = if searchKeeps (searchParamOf s) key
              then match m !! key with
                   | Some value => Some value
                   | None => acc !! key
                   end
              else acc !! key).
  { intros kept acc key [-> | ->]; by apply kept_loop_lookup. }
  assert (Hrest : forall key,
            delete "page" (delete (searchParamOf s) m) !! key
            = if searchKeeps (searchParamOf s) key then m !! key else None).
  { intros key. unfold searchKeeps.
    destruct (String.eqb_spec key "page") as [-> | Hnp].
    { by rewrite andb_false_r, lookup_delete_eq. }
    rewrite lookup_delete_ne by done.
    destruct (String.eqb_spec key (searchParamOf s)) as [-> | Hns];
      cbn [negb andb].
    - by rewrite lookup_delete_eq.
    - by rewrite lookup_delete_ne. }
  destruct (decide (kept0 = [])) as [Hnil0 | Hcons0].
  - assert (Hnil2 : kept2 = []) by (by apply (kept_nil order 0%nat 2%nat)).
    assert (Hempty : delete "page" (delete (searchParamOf s) m) = ∅).
    { apply map_eq. intros key. rewrite Hrest, lookup_empty.
      destruct (searchKeeps (searchParamOf s) key) eqn:Hkeep; [| done].
      destruct (m !! key) as [value |] eqn:Hkey; [| done].
      assert (Hin : In (key, value) kept0) by (by apply kept_entries).
      by rewrite Hnil0 in Hin. }
    rewrite Hnil0, Hnil2, Hempty. cbn [length Nat.ltb Nat.leb].
    split; [by apply parse_plain |].
    destruct (String.eqb_spec (Search.BaseURL s) "") as [_ | _]; [done |].
    rewrite Hq. cbn [negb]. rewrite TrimSuffix_last.
    destruct (String.eqb (TrimSuffix (Search.BaseURL s) amp) ""); [done |].
    apply parse_plain; by apply TrimSuffix_without.
  - assert (Hcons2 : kept2 <> []).
    { intros Hnil2. apply Hcons0. by apply (kept_nil order 2%nat 0%nat). }
    assert (Hlen0 : (0 <? length kept0)%nat = true)
      by (destruct kept0; [done | reflexivity]).
    assert (Hlen2 : (0 <? length kept2)%nat = true)
      by (destruct kept2; [done | reflexivity]).
    rewrite Hlen0, Hlen2.
    destruct (composeURL_has_qmark (Search.BaseURL s)
                (strings.Join (pairs kept0) "&") Hq) as [Hhas Hnonempty].
    rewrite Hnonempty, Hhas. cbn [negb].
    split.
    + unfold pairs. rewrite parse_link_list; [| done | done |].
      * apply map_eq. intros key.
        rewrite Hlookup, Hrest, lookup_empty by (by left).
        destruct (searchKeeps (searchParamOf s) key); [| done].
        by destruct (m !! key).
      * by apply kept_carried.
    + destruct (composeURL_prefix (Search.BaseURL s)) as [prefix Hprefix].
      rewrite Hprefix, !append_assoc.
      change (String.append "&" (strings.Join (pairs kept2) "&"))
        with ("&" ++ strings.Join (pairs kept2) "&").
      unfold pairs. rewrite <- Join_pairs_app, <- Hprefix by done.
      rewrite parse_link_list; [| | done |].
      * apply map_eq. intros key.
        rewrite fold_left_app.
        rewrite (Hlookup kept2) by (by right).
        rewrite (Hlookup kept0) by (by left).
        rewrite Hrest, lookup_empty.
        destruct (searchKeeps (searchParamOf s) key); [| done].
        by destruct (m !! key).
      * by destruct kept0.
      * apply Forall_app. split; by apply kept_carried.
Qed.

Lemma search_links_parse_back_witness :
  let s := Search.mk true "ann" "Find" [] false "/users" "" 0 in
  let m : gmap string string :=
    <["page" := "3"]> (<["search" := "ann"]> (<["sort_by" := "Name"]> ∅)) in
  let entries := map_to_list m in
  let actionURL := searchActionURL s (reversedOrder 0%nat entries) in
  parseQueryParams actionURL = delete "page" (delete (searchParamOf s) m) /\
  parseQueryParams (searchClearURL s actionURL (reversedOrder 2%nat entries))
  = delete "page" (delete (searchParamOf s) m).
Proof.
  intros s m.
  apply (search_links_parse_back reversedOrder s m).
  - apply reversedOrder_ok.
  - reflexivity.
  - reflexivity.
  - apply carriedIntact_entries. vm_compute. reflexivity.
Defined.

(** ** Following page-size and sort links *)

Lemma ParsePageSizeFromQuery_loop queryString defaultPageSize :
  ParsePageSizeFromQuery queryString defaultPageSize
  = firstPageSize defaultPageSize (queryPairs queryString).
Proof.
  unfold ParsePageSizeFromQuery, queryPairs.
  by destruct (String.eqb queryString "").
Qed.

Lemma firstPage_absent name (l : list (string * string)) :
  Forall (fun kv => strings.Contains (fst kv) eq_sign = false /\
                    fst kv <> name) l ->
  firstPage name
    (List.map (fun kv => fmt.Sprint_pair (fst kv) (snd kv)) l) = 1.
Proof.
  induction 1 as [| kv l [Hkey Hne] _ IH]; [done |].
  cbn [List.map firstPage]. rewrite keyValue_pair by done.
  by destruct (String.eqb_spec (fst kv) name).
Qed.

Lemma two_pairs_query (a b rest : string) :
  strings.Join [a; b] "&" ++ rest = a ++ String amp (b ++ rest).
Proof.
  unfold strings.Join. cbn [String.concat]. by rewrite !append_assoc.
Qed.

(** Following a page-size link gives the chosen size and the first page,
    whatever the default and whatever parameters the link preserves. *)
Lemma pageSizeURL_readers baseURL visit size defaultPageSize :
  strings.Contains baseURL qmark = false ->
  1 <= size <= int_max ->
  ParsePageSizeFromQuery (afterFirstQmark (pageSizeURL baseURL visit size))
                         defaultPageSize = size /\
  ParsePageFromQuery (afterFirstQmark (pageSizeURL baseURL visit size))
                     "page" = 1.
Proof.
  intros Hbase Hsize. unfold pageSizeURL.
  cbn [app]. rewrite preserved_query, afterFirstQmark_composeURL by done.
  set (kept := List.filter _ visit).
  rewrite two_pairs_query, ParsePageSizeFromQuery_loop, ParsePageFromQuery_loop.
  rewrite (append_assoc "page_size="), (queryPairs_plain "page_size=") by done.
  rewrite <- (append_assoc "page_size="), Split_app_sep, Split_without
    by (by rewrite Contains_app, Sprintd_without).
  destruct (Split_first_piece "page=1" kept) as [others ->]; [done |].
  cbn [app firstPageSize firstPage].
  change ("page_size=" ++ fmt.Sprintd size)
    with (fmt.Sprint_pair "page_size" (fmt.Sprintd size)).
  rewrite keyValue_pair by done.
  rewrite Atoi_Sprintd by (unfold is_int, int_min; lia).
  split; [| reflexivity].
  cbn [String.eqb Ascii.eqb Bool.eqb].
  by destruct (Z.gtb_spec size 0); [| lia].
Qed.

(** X13.  Sorting by a column goes back to the first page: when neither
    the sort nor the order parameter is [page] and names, column and
    parameter values are ones links carry intact, ParsePageFromQuery reads
    page 1 from every sort link, whatever page the current parameters
    name. *)
Theorem sort_link_resets_page order headers s (m : gmap string string) i C :
  range_ok order ->
  Sorting.Enabled s = true ->
  headers !! i = Some C ->
  strings.Contains (Sorting.BaseURL s) qmark = false ->
  plainName (sortParamOf s) ->
  plainName (orderParamOf s) ->
  sortParamOf s <> "page" ->
  orderParamOf s <> "page" ->
  ampFree C ->
  carriedIntact m ->
  exists link,
    generateSortLinks order headers (Some s) m !! i = Some link /\
    ParsePageFromQuery (afterFirstQmark link) "page" = 1.
Proof.
  intros Hord He Hi Hbase Hsp Hop Hspp Hopp HC Hm. eexists. split.
  - unfold generateSortLinks. rewrite He. cbn [negb].
    by rewrite (sortLinksLoop_lookup order s m headers 0 _ i C Hi)
      by (rewrite length_replicate; lia).
  - cbn [Nat.add]. rewrite afterFirstQmark_composeURL by done.
    set (keep := fun key => negb (String.eqb key (sortParamOf s))
                            && negb (String.eqb key (orderParamOf s))
                            && negb (String.eqb key "page")).
    set (kept := List.filter (fun kv => keep (fst kv))
                             (order i (map_to_list m))).
    assert (Hq : sortQueryString s C (order i (map_to_list m))
                 = strings.Join
                     (List.map (fun kv => fmt.Sprint_pair (fst kv) (snd kv))
                        ((sortParamOf s, C)
                         :: (orderParamOf s, toggledOrder s C) :: kept)) "&").
    { unfold sortQueryString. cbn [app]. by rewrite appendPreserved_spec. }
    assert (Hkept : Forall (fun kv => plainName (fst kv) /\ ampFree (snd kv) /\
                              strings.Contains (snd kv) qmark = false) kept)
      by (by apply kept_carried).
    rewrite Hq, ParsePageFromQuery_loop, Join_pairs. cbn [fst snd String.eqb].
    change (fmt.Sprint_pair (sortParamOf s) C)
      with (sortParamOf s ++ String eq_sign C).
    rewrite append_assoc, queryPairs_plain
      by (apply sortParamOf_nonempty || apply Hsp).
    rewrite <- append_assoc.
    change (sortParamOf s ++ String eq_sign C)
      with (fmt.Sprint_pair (sortParamOf s) C).
    rewrite Split_ampPairs.
    + change (fmt.Sprint_pair (sortParamOf s) C
              :: List.map (fun kv => fmt.Sprint_pair (fst kv) (snd kv))
                   ((orderParamOf s, toggledOrder s C) :: kept))
        with (List.map (fun kv => fmt.Sprint_pair (fst kv) (snd kv))
                ((sortParamOf s, C)
                 :: (orderParamOf s, toggledOrder s C) :: kept)).
      apply firstPage_absent.
      constructor; [| constructor].
      * split; [apply Hsp | done].
      * split; [apply Hop | done].
      * apply List.Forall_forall. intros [key value] Hin.
        pose proof (proj1 (List.Forall_forall _ _) Hkept _ Hin)
          as ((_ & Hkey & _) & _).
        apply List.filter_In in Hin as [_ Hkeep]. cbn [fst snd] in *.
        split; [done |]. unfold keep in Hkeep.
        destruct (String.eqb_spec key "page"); [| done].
        by rewrite andb_false_r in Hkeep.
    + constructor.
      * cbn [fst snd]. split; [apply Hop |]. unfold ampFree, toggledOrder.
        by destruct (String.eqb (Sorting.SortBy s) C
                     && String.eqb (Sorting.SortOrder s) "asc").
      * eapply Forall_impl; [exact Hkept |].
        by intros kv ((? & _) & ? & _).
    + apply ampFree_pair; [apply Hsp | done].
Qed.

Lemma sort_link_resets_page_witness :
  exists link,
    generateSortLinks reversedOrder ["ID"; "Name"]
      (Some (Sorting.mk true "Name" "asc" "/users" "" ""))
      (<["page" := "3"]> (<["search" := "ann"]> ∅)) !! 0%nat
    = Some link /\
    ParsePageFromQuery (afterFirstQmark link) "page" = 1.
Proof.
  apply (sort_link_resets_page reversedOrder ["ID"; "Name"]
           (Sorting.mk true "Name" "asc" "/users" "" "")
           (<["page" := "3"]> (<["search" := "ann"]> ∅)) 0 "ID").
  - apply reversedOrder_ok.
  - reflexivity.
  - reflexivity.
  - reflexivity.
  - repeat split; reflexivity.
  - repeat split; reflexivity.
  - discriminate.
  - discriminate.
  - reflexivity.
  - apply carriedIntact_entries. vm_compute. reflexivity.
Defined.

(** ** From the query string to the rendered page *)

(** The page loop ends for every valid page of a count of pages that
    leaves room for the window arithmetic. *)
Lemma generatePaginationHTML_returns order fuel info pagination m :
  (6 <= fuel)%nat ->
  1 <= PaginationInfo.CurrentPage info <= PaginationInfo.TotalPages info ->
  PaginationInfo.TotalPages info <= int_max - 2 ->
  exists html,
    generatePaginationHTML order fuel info pagination m = Some html.
Proof.
  intros Hfuel Hcp Hmax.
  assert (Hb : int_max = 2 ^ 63 - 1) by reflexivity.
  assert (Hm : int_min = - 2 ^ 63) by reflexivity.
  unfold generatePaginationHTML.
  destruct (Z.leb_spec (PaginationInfo.TotalPages info) 1); [by eexists |].
  destruct (Z.leb_spec (PaginationInfo.TotalPages info) 5) as [Hsmall | Hbig].
  - destruct (generatePaginationItems_numbers order fuel info pagination m
                1 (PaginationInfo.TotalPages info)) as (items & -> & _);
      [by apply pageWindow_small | lia .. |].
    by eexists.
  - pose proof (pageWindow_large info Hbig ltac:(lia) ltac:(lia)) as Hw.
    cbv zeta in Hw.
    set (s := Z.min (Z.max (PaginationInfo.CurrentPage info - 2) 1)
                    (PaginationInfo.TotalPages info - 4)) in *.
    destruct (generatePaginationItems_numbers order fuel info pagination m
                s (s + 4)) as (items & -> & _); [done | lia .. |].
    by eexists.
Qed.

Lemma pagination_renders order fuel rowCount options p queryString :
  Pagination options = Some p ->
  Pagination.Enabled p = true ->
  Pagination.CurrentPage p = ParsePageFromQuery queryString "page" ->
  (6 <= fuel)%nat ->
  1 <= Pagination.PageSize p ->
  1 <= Pagination.TotalCount p ->
  Pagination.TotalCount p + Pagination.PageSize p <= int_max - 1 ->
  rendersPage queryString (Pagination.TotalCount p) (Pagination.PageSize p)
              (RenderHTML_pagination order fuel rowCount options).
Proof.
  intros Hp He Hpage Hfuel Hps Hcnt Hmax.
  assert (Hrows : effectiveTotalRows rowCount p = Pagination.TotalCount p).
  { unfold effectiveTotalRows.
    destruct (Z.eqb_spec (Pagination.TotalCount p) 0); [lia | done]. }
  pose proof (calculatePagination_fields rowCount p He Hps ltac:(lia)
                ltac:(lia)) as Hinfo.
  cbv zeta in Hinfo. rewrite Hrows in Hinfo.
  pose proof (ceil_div_pos (Pagination.TotalCount p) (Pagination.PageSize p)
                ltac:(lia) ltac:(lia)) as Hpos.
  pose proof (ceil_div_le (Pagination.TotalCount p) (Pagination.PageSize p)
                ltac:(lia) ltac:(lia)) as Hle.
  assert (Hlo : 1 <= ParsePageFromQuery queryString "page")
    by (rewrite ParsePageFromQuery_loop; apply firstPage_range).
  set (info := calculatePagination rowCount (Some p)) in *.
  assert (Hfields :
    PaginationInfo.TotalRows info = Pagination.TotalCount p /\
    PaginationInfo.TotalPages info
    = ceil_div (Pagination.TotalCount p) (Pagination.PageSize p) /\
    PaginationInfo.CurrentPage info
    = Z.min (ParsePageFromQuery queryString "page")
            (PaginationInfo.TotalPages info) /\
    1 <= PaginationInfo.CurrentPage info <= PaginationInfo.TotalPages info).
  { rewrite Hinfo. cbn [PaginationInfo.TotalRows PaginationInfo.TotalPages
                        PaginationInfo.CurrentPage].
    rewrite Hpage. repeat split; lia. }
  destruct Hfields as (Hr & Ht & Hc & Hrange).
  unfold rendersPage, RenderHTML_pagination. rewrite Hp, He. fold info.
  destruct (Pagination.ShowControls p).
  - destruct (generatePaginationHTML_returns order fuel info p
                (RenderHTML_paginationParams options p info) Hfuel Hrange
                ltac:(lia)) as [html ->].
    by eexists _, _, _.
  - by eexists _, _, _.
Qed.

(** X14.  Whatever the query string says, the data each constructor
    builds renders: with six units of fuel, a page size and a total count
    of at least 1 whose sum stays two below the largest [int], RenderHTML
    gets its pagination pieces, for [totalCount] rows on the integer
    ceiling of [totalCount / pageSize] pages, and the current page is the
    page ParsePageFromQuery reads, or the last page when that one lies
    behind it. *)
Theorem constructors_render_requested_page order fuel rowCount data
    totalCount baseURL queryString pageSize enableSorting enableSearch
    searchTerm :
  (6 <= fuel)%nat ->
  1 <= pageSize ->
  1 <= totalCount ->
  totalCount + pageSize <= int_max - 1 ->
  rendersPage queryString totalCount pageSize
    (RenderHTML_pagination order fuel rowCount
       (Options (CreatePaginatedData data totalCount baseURL queryString
                                     pageSize))) /\
  rendersPage queryString totalCount pageSize
    (RenderHTML_pagination order fuel rowCount
       (Options (CreatePaginatedDataWithSorting data totalCount baseURL
                   queryString pageSize enableSorting))) /\
  rendersPage queryString totalCount pageSize
    (RenderHTML_pagination order fuel rowCount
       (Options (CreatePaginatedDataWithSortingAndSearch data totalCount
                   baseURL queryString pageSize enableSorting enableSearch
                   searchTerm))).
Proof.
  intros Hfuel Hps Hcnt Hmax.
  unfold CreatePaginatedData, CreatePaginatedDataWithSorting,
    CreatePaginatedDataWithSortingAndSearch.
  destruct (ParseSortFromQuery queryString "sort_by" "sort_order")
    as [sortBy sortOrder].
  cbn [Options].
  repeat split;
    match goal with
    | |- rendersPage _ _ _ (RenderHTML_pagination _ _ _
           (mkOptions _ _ _ _ _ _ (Some ?p) _ _)) =>
        by apply (pagination_renders order fuel rowCount _ p queryString)
    end.
Qed.

Lemma constructors_render_requested_page_witness :
  rendersPage "page=99&sort_by=Name" 47 10
    (RenderHTML_pagination reversedOrder 6 10
       (Options (CreatePaginatedData None 47 "/users" "page=99&sort_by=Name"
                                     10))) /\
  rendersPage "page=99&sort_by=Name" 47 10
    (RenderHTML_pagination reversedOrder 6 10
       (Options (CreatePaginatedDataWithSorting None 47 "/users"
                   "page=99&sort_by=Name" 10 true))) /\
  rendersPage "page=99&sort_by=Name" 47 10
    (RenderHTML_pagination reversedOrder 6 10
       (Options (CreatePaginatedDataWithSortingAndSearch None 47 "/users"
                   "page=99&sort_by=Name" 10 true true "ann"))).
Proof.
  apply (constructors_render_requested_page reversedOrder 6 10 None 47
           "/users" "page=99&sort_by=Name" 10 true true "ann").
  - lia.
  - lia.
  - lia.
  - vm_compute. congruence.
Defined.

(** ** The outcomes of convertStructSliceToRows *)

Lemma rowsOf_Some elems rows :
  rowsOf elems = Some rows ->
  Forall2 (fun elem row =>
             exists fields,
               derefIfPtr elem = VStruct fields row /\
               forallb Exported fields = true)
          elems rows.
Proof.
  revert rows. induction elems as [| elem elems IH]; intros rows Hrows.
  - injection Hrows as <-. constructor.
  - cbn [rowsOf] in Hrows. unfold rowOf in Hrows.
    destruct (derefIfPtr elem) as [| | | fields values |] eqn:Helem; try done.
    destruct (forallb Exported fields) eqn:Hexp; [| done].
    destruct (rowsOf elems) as [rest |]; [| done].
    injection Hrows as <-. constructor; [by exists fields | by apply IH].
Qed.

Lemma rowsOf_None elems :
  rowsOf elems = None -> exists elem, In elem elems /\ rowOf elem = None.
Proof.
  induction elems as [| elem elems IH]; [done |]. cbn [rowsOf].
  destruct (rowOf elem) as [row |] eqn:Hrow.
  - destruct (rowsOf elems) as [rows |]; [done |]. intros _.
    destruct IH as (bad & Hin & Hbad); [done |]. exists bad. by split; [right |].
  - intros _. exists elem. by split; [left |].
Qed.

(** X15.  What each outcome of convertStructSliceToRows means.  A result:
    the data is (a pointer to) a slice and the rows are the field values
    of its elements, one row per element and in their order, each element
    (behind a pointer or not) a struct with only exported fields; an
    empty slice gives no headers.  An error: the data is not a slice, or
    the first element is not a struct.  A panic: the first element is a
    struct, but some element is not a struct or has an unexported
    field. *)
Theorem convertStructSliceToRows_outcomes data :
  match convertStructSliceToRows data with
  | Ok (headers, rows) =>
      exists elems,
        derefIfPtr data = VSlice elems /\
        Forall2 (fun elem row =>
                   exists fields,
                     derefIfPtr elem = VStruct fields row /\
                     forallb Exported fields = true)
                elems rows /\
        (elems = [] -> headers = [])
  | Err msg =>
      kindOf (derefIfPtr data) <> Slice \/
      exists first rest,
        derefIfPtr data = VSlice (first :: rest) /\
        kindOf (derefIfPtr first) <> Struct
  | Panicked =>
      exists first rest elem,
        derefIfPtr data = VSlice (first :: rest) /\
        kindOf (derefIfPtr first) = Struct /\
        In elem (first :: rest) /\ rowOf elem = None
  end.
Proof.
  unfold convertStructSliceToRows.
  destruct (derefIfPtr data) as [| target | elems | fields values | shown];
    try (by left).
  destruct elems as [| first rest].
  - exists []. split; [reflexivity | split; [constructor | done]].
  - destruct (derefIfPtr first) as [| | | structType values |] eqn:Hfirst;
      try (right; exists first, rest; by rewrite Hfirst).
    destruct (rowsOf (first :: rest)) as [rows |] eqn:Hrows.
    + exists (first :: rest).
      split; [reflexivity | split; [by apply rowsOf_Some | done]].
    + destruct (rowsOf_None _ Hrows) as (elem & Hin & Hbad).
      exists first, rest, elem. by rewrite Hfirst.
Qed.

(** ** ParsePageSizeFromQuery *)

(** X16.  ParsePageSizeFromQuery returns its default or a positive [int],
    the first positive number given to [page_size]; it returns the
    default, whatever that is, when no value given to [page_size] is a
    positive number. *)
Theorem ParsePageSizeFromQuery_normalized queryString defaultPageSize :
  (ParsePageSizeFromQuery queryString defaultPageSize = defaultPageSize \/
   1 <= ParsePageSizeFromQuery queryString defaultPageSize <= int_max) /\
  (Forall notAPage (paramValues "page_size" queryString) ->
   ParsePageSizeFromQuery queryString defaultPageSize = defaultPageSize).
Proof.
  rewrite ParsePageSizeFromQuery_loop. unfold paramValues.
  assert (Hb : int_max = 2 ^ 63 - 1) by reflexivity.
  induction (queryPairs queryString) as [| param rest [IHrange IHdef]];
    cbn [firstPageSize flat_map]; [by split; [left |] |].
  destruct (keyValue param) as [[key value] |]; [| done].
  destruct (String.eqb key "page_size"); [| done].
  destruct (strconv.Atoi value) as [pageSize |] eqn:Hatoi.
  - destruct (Z.gtb_spec pageSize 0).
    + split.
      * right. apply Atoi_is_int in Hatoi. unfold is_int in Hatoi. lia.
      * intros Hall. apply Forall_cons_1 in Hall as [Hbad _].
        unfold notAPage in Hbad. rewrite Hatoi in Hbad. lia.
    + split; [done |]. intros Hall.
      apply Forall_cons_1 in Hall as [_ Hall]. by apply IHdef.
  - split; [done |]. intros Hall.
    apply Forall_cons_1 in Hall as [_ Hall]. by apply IHdef.
Qed.

Lemma ParsePageSizeFromQuery_normalized_witness :
  (ParsePageSizeFromQuery "?page_size=0&page_size=x&page=3" (-5) = -5 \/
   1 <= ParsePageSizeFromQuery "?page_size=0&page_size=x&page=3" (-5)
     <= int_max) /\
  ParsePageSizeFromQuery "?page_size=0&page_size=x&page=3" (-5) = -5.
Proof.
  destruct (ParsePageSizeFromQuery_normalized
              "?page_size=0&page_size=x&page=3" (-5)) as [Hrange Hdef].
  split; [exact Hrange |]. apply Hdef.
  replace (paramValues "page_size" "?page_size=0&page_size=x&page=3")
    with ["0"; "x"] by (vm_compute; reflexivity).
  repeat constructor; vm_compute; congruence.
Defined.

(** ** Page links of the in-memory renderer *)

(** The in-memory link is the database link that preserves nothing. *)
Lemma InMemory_generateURL_composeURL baseURL queryParam page :
  InMemory.generateURL baseURL queryParam page
  = composeURL baseURL (queryParam ++ "=" ++ fmt.Sprintd page).
Proof. reflexivity. Qed.

Lemma firstPage_head name n rest :
  strings.Contains name eq_sign = false ->
  1 <= n <= int_max ->
  firstPage name (fmt.Sprint_pair name (fmt.Sprintd n) :: rest) = n.
Proof.
  intros Hname Hn. cbn [firstPage].
  rewrite keyValue_pair, String.eqb_refl by done.
  rewrite Atoi_Sprintd by (unfold is_int, int_min; lia).
  by destruct (Z.gtb_spec n 0); [| lia].
Qed.

(** X17.  Following a page link of the in-memory renderer leads to the
    page it was built for, when the page parameter holds none of [&],
    [=], [?] and the base URL no [?]. *)
Theorem InMemory_page_link_round_trip p page :
  plainName (pageParam p) ->
  strings.Contains (Pagination.BaseURL p) qmark = false ->
  1 <= page <= int_max ->
  followPageLink p
    (InMemory.generateURL (Pagination.BaseURL p) (pageParam p) page)
  = page.
Proof.
  intros Hname Hbase Hpage. unfold followPageLink.
  rewrite InMemory_generateURL_composeURL, afterFirstQmark_composeURL by done.
  rewrite ParsePageFromQuery_loop.
  change (if String.eqb (Pagination.QueryParam p) "" then "page"
          else Pagination.QueryParam p) with (pageParam p).
  rewrite queryPairs_plain by (apply pageParam_nonempty || apply Hname).
  rewrite Split_without by (by apply plain_number_pair).
  apply firstPage_head; [apply Hname | done].
Qed.

Lemma InMemory_page_link_round_trip_witness :
  followPageLink (InMemory.NewPaginationWithURL 10 2 "/users" "p")
    (InMemory.generateURL "/users" "p" 7)
  = 7.
Proof.
  apply (InMemory_page_link_round_trip
           (InMemory.NewPaginationWithURL 10 2 "/users" "p") 7).
  - repeat split; reflexivity.
  - reflexivity.
  - vm_compute. split; congruence.
Defined.

(** X18.  A base URL that already names a page keeps every in-memory page
    link on that page: when the base URL is [b?param=old] for a positive
    [old], the link of any page appends a second [param=page], and
    ParsePageFromQuery reads [old] from it. *)
Theorem InMemory_page_link_stale_base p b old page :
  plainName (pageParam p) ->
  strings.Contains b qmark = false ->
  1 <= old <= int_max ->
  Pagination.BaseURL p = b ++ "?" ++ pageParam p ++ "=" ++ fmt.Sprintd old ->
  followPageLink p
    (InMemory.generateURL (Pagination.BaseURL p) (pageParam p) page)
  = old.
Proof.
  intros Hname Hb Hold Hbase. unfold followPageLink, InMemory.generateURL.
  assert (Hq : strings.Contains (Pagination.BaseURL p) qmark = true).
  { rewrite Hbase, Contains_app.
    change ("?" ++ pageParam p ++ "=" ++ fmt.Sprintd old)
      with (String qmark (pageParam p ++ "=" ++ fmt.Sprintd old)).
    cbn [strings.Contains]. rewrite Ascii.eqb_refl. apply orb_true_r. }
  assert (Hne : String.eqb (Pagination.BaseURL p) "" = false)
    by (by destruct (Pagination.BaseURL p)).
  rewrite Hne, Hq, Hbase, !append_assoc.
  change ("?" ++ pageParam p ++ "=" ++ fmt.Sprintd old ++ "&" ++ pageParam p
          ++ "=" ++ fmt.Sprintd page)
    with (String qmark (pageParam p ++ "=" ++ fmt.Sprintd old ++ "&"
                        ++ pageParam p ++ "=" ++ fmt.Sprintd page)).
  unfold afterFirstQmark. rewrite cut_pair by done.
  rewrite ParsePageFromQuery_loop.
  change (if String.eqb (Pagination.QueryParam p) "" then "page"
          else Pagination.QueryParam p) with (pageParam p).
  rewrite queryPairs_plain by (apply pageParam_nonempty || apply Hname).
  rewrite <- (append_assoc "="), <- (append_assoc (pageParam p)).
  change ("&" ++ pageParam p ++ "=" ++ fmt.Sprintd page)
    with (String amp (pageParam p ++ "=" ++ fmt.Sprintd page)).
  rewrite Split_app_sep, Split_without by (by apply plain_number_pair).
  apply firstPage_head; [apply Hname | done].
Qed.

Lemma InMemory_page_link_stale_base_witness :
  followPageLink (InMemory.NewPaginationWithURL 10 2 "/users?page=2" "")
    (InMemory.generateURL "/users?page=2" "page" 7)
  = 2.
Proof.
  apply (InMemory_page_link_stale_base
           (InMemory.NewPaginationWithURL 10 2 "/users?page=2" "")
           "/users" 2 7).
  - repeat split; reflexivity.
  - reflexivity.
  - vm_compute. split; congruence.
  - reflexivity.
Defined.

(** ** The search term across page links *)

Lemma firstSearch_pairs searchParam (l : list (string * string)) term :
  Forall (fun kv => strings.Contains (fst kv) eq_sign = false) l ->
  In (searchParam, term) l ->
  (forall value, In (searchParam, value) l -> value = term) ->
  firstSearch searchParam
    (List.map (fun kv => fmt.Sprint_pair (fst kv) (snd kv)) l)
  = ReplaceAll term "+"%char " "%char.
Proof.
  induction 1 as [| [key value] l Hkey _ IH]; intros Hin Hfun; [done |].
  cbn [List.map firstSearch fst snd]. rewrite keyValue_pair by done.
  destruct (String.eqb_spec key searchParam) as [-> | Hne].
  - by rewrite (Hfun value) by (by left).
  - apply IH.
    + destruct Hin as [[= ? ?] | Hin]; [done | done].
    + intros value' Hin'. apply Hfun. by right.
Qed.

(** X19.  Paging keeps the search: when the current parameters, which
    links carry intact, bind the search parameter to [term], and the
    search parameter is not the page parameter, ParseSearchFromQuery reads
    from every page link the term with each [+] turned into a space,
    whatever order the parameters were visited in. *)
Theorem page_link_keeps_search order k p (m : gmap string string) page
    searchParam term :
  range_ok order ->
  strings.Contains (Pagination.BaseURL p) qmark = false ->
  plainName (pageParam p) ->
  carriedIntact m ->
  let name := if String.eqb searchParam "" then "search" else searchParam in
  name <> pageParam p ->
  m !! name = Some term ->
  ParseSearchFromQuery
    (afterFirstQmark
       (generateURL (Pagination.BaseURL p) (pageParam p)
                    (order k (map_to_list m)) page))
    searchParam
  = ReplaceAll term "+"%char " "%char.
Proof.
  intros Hord Hbase Hname Hm name Hne Hterm.
  set (keep := fun key => negb (String.eqb key (pageParam p))).
  set (kept := List.filter (fun kv => keep (fst kv)) (order k (map_to_list m))).
  assert (Hkept : Forall (fun kv => plainName (fst kv) /\ ampFree (snd kv) /\
                            strings.Contains (snd kv) qmark = false) kept)
    by (by apply kept_carried).
  assert (Hurl : generateURL (Pagination.BaseURL p) (pageParam p)
                   (order k (map_to_list m)) page
                 = composeURL (Pagination.BaseURL p)
                     (strings.Join
                        (List.map (fun kv => fmt.Sprint_pair (fst kv) (snd kv))
                           ((pageParam p, fmt.Sprintd page) :: kept)) "&")).
  { unfold generateURL. by rewrite appendPreserved_spec. }
  rewrite Hurl, afterFirstQmark_composeURL, Join_pairs by done.
  cbn [fst snd]. unfold ParseSearchFromQuery. fold name.
  assert (Hnonempty :
    String.eqb (fmt.Sprint_pair (pageParam p) (fmt.Sprintd page)
                ++ String.concat "" (List.map ampPair kept)) "" = false).
  { pose proof (pageParam_nonempty p) as Hp.
    unfold fmt.Sprint_pair. destruct (pageParam p); [done |].
    by rewrite !append_cons. }
  rewrite Hnonempty, Split_ampPairs.
  - change (fmt.Sprint_pair (pageParam p) (fmt.Sprintd page)
            :: List.map (fun kv => fmt.Sprint_pair (fst kv) (snd kv)) kept)
      with (List.map (fun kv => fmt.Sprint_pair (fst kv) (snd kv))
              ((pageParam p, fmt.Sprintd page) :: kept)).
    apply firstSearch_pairs.
    + constructor; [apply Hname |].
      eapply Forall_impl; [exact Hkept |]. by intros kv ((_ & ? & _) & _).
    + right. apply kept_entries; [done |]. split; [done |].
      unfold keep. by destruct (String.eqb_spec name (pageParam p)).
    + intros value [[= ? ?] | Hin]; [done |].
      apply kept_entries in Hin as [Hin _]; [| done]. congruence.
  - eapply Forall_impl; [exact Hkept |]. by intros kv ((? & _) & ? & _).
  - apply ampFree_pair; [apply Hname |]. unfold ampFree.
    by rewrite Sprintd_without.
Qed.

Lemma page_link_keeps_search_witness :
  ParseSearchFromQuery
    (afterFirstQmark
       (generateURL "/users" "page"
          (reversedOrder 1%nat
             (map_to_list (<["search" := "ann+lee"]>
                             (<["sort_by" := "Name"]> ∅)))) 4))
    ""
  = ReplaceAll "ann+lee" "+"%char " "%char.
Proof.
  apply (page_link_keeps_search reversedOrder 1
           (Pagination.mk true 10 3 true true false [] "/users" "" true 95)
           (<["search" := "ann+lee"]> (<["sort_by" := "Name"]> ∅)) 4 ""
           "ann+lee").
  - apply reversedOrder_ok.
  - reflexivity.
  - repeat split; reflexivity.
  - apply carriedIntact_entries. vm_compute. reflexivity.
  - discriminate.
  - reflexivity.
Defined.

(** ** The sort state across page links *)

Lemma sortLoop_pairs_fst sortParam orderParam (l : list (string * string))
    column :
  Forall (fun kv => strings.Contains (fst kv) eq_sign = false) l ->
  (forall value, In (sortParam, value) l -> value = column) ->
  forall state,
    fst state = column \/ In (sortParam, column) l ->
    fst (fold_left (sortStep sortParam orderParam)
           (List.map (fun kv => fmt.Sprint_pair (fst kv) (snd kv)) l) state)
    = column.
Proof.
  induction 1 as [| [key value] l Hkey _ IH]; intros Hfun [sortBy sortOrder] Hor.
  - by destruct Hor.
  - cbn [List.map fold_left fst snd]. apply IH.
    + intros value' Hin. apply Hfun. by right.
    + unfold sortStep. rewrite keyValue_pair by done.
      destruct (String.eqb_spec key sortParam) as [-> | Hne].
      * left. cbn [fst]. apply Hfun. by left.
      * assert (Hstate : fst (if String.eqb key orderParam
                              then if String.eqb value "desc"
                                   then (sortBy, "desc")
                                   else (sortBy, sortOrder)
                              else (sortBy, sortOrder)) = sortBy)
          by (by destruct (String.eqb key orderParam),
                   (String.eqb value "desc")).
        rewrite Hstate.
        destruct Hor as [Hst | [[= ? ?] | Hin]]; [by left | done | by right].
Qed.

Lemma sortLoop_pairs_snd sortParam orderParam (l : list (string * string))
    sortOrder sortBy :
  sortParam <> orderParam ->
  strings.Contains orderParam eq_sign = false ->
  In (orderParam, sortOrder) l ->
  (forall value, In (orderParam, value) l -> value = sortOrder) ->
  snd (fold_left (sortStep sortParam orderParam)
         (List.map (fun kv => fmt.Sprint_pair (fst kv) (snd kv)) l)
         (sortBy, "asc"))
  = if String.eqb sortOrder "desc" then "desc" else "asc".
Proof.
  intros Hne Hop Hin Hfun.
  destruct (String.eqb_spec sortOrder "desc") as [-> | Hnd].
  - apply (sortLoop_desc sortParam orderParam _
             (fmt.Sprint_pair orderParam "desc")); [done | |].
    + apply List.in_map_iff. by exists (orderParam, "desc").
    + by apply keyValue_pair.
  - apply sortLoop_stays_asc.
    apply Forall_flat_map, List.Forall_forall. intros pair Hpair.
    apply List.in_map_iff in Hpair as ([key value] & <- & Hkv).
    cbn [fst snd].
    destruct (String.eqb_spec key orderParam) as [-> | Hko].
    + rewrite keyValue_pair, String.eqb_refl by done.
      repeat constructor. by rewrite (Hfun value Hkv).
    + by apply preserved_pair_not_desc.
Qed.

(** X20.  Paging keeps the sort state: when the current parameters, which
    links carry intact, bind the sort parameter to [column] and the order
    parameter to [sortOrder], and sort, order and page parameter are three
    different names, ParseSortFromQuery reads from every page link the
    column and the order, [desc] when [sortOrder] is [desc] and [asc]
    otherwise. *)
Theorem page_link_keeps_sort order k p (m : gmap string string) page
    sortParam orderParam column sortOrder :
  range_ok order ->
  strings.Contains (Pagination.BaseURL p) qmark = false ->
  plainName (pageParam p) ->
  carriedIntact m ->
  let sortName := if String.eqb sortParam "" then "sort_by" else sortParam in
  let orderName :=
    if String.eqb orderParam "" then "sort_order" else orderParam in
  sortName <> orderName ->
  sortName <> pageParam p ->
  orderName <> pageParam p ->
  m !! sortName = Some column ->
  m !! orderName = Some sortOrder ->
  ParseSortFromQuery
    (afterFirstQmark
       (generateURL (Pagination.BaseURL p) (pageParam p)
                    (order k (map_to_list m)) page))
    sortParam orderParam
  = (column, if String.eqb sortOrder "desc" then "desc" else "asc").
Proof.
  intros Hord Hbase Hname Hm sortName orderName Hso Hsp Hop Hcol Hord'.
  set (keep := fun key => negb (String.eqb key (pageParam p))).
  set (kept := List.filter (fun kv => keep (fst kv)) (order k (map_to_list m))).
  assert (Hkept : Forall (fun kv => plainName (fst kv) /\ ampFree (snd kv) /\
                            strings.Contains (snd kv) qmark = false) kept)
    by (by apply kept_carried).
  assert (Hurl : generateURL (Pagination.BaseURL p) (pageParam p)
                   (order k (map_to_list m)) page
                 = composeURL (Pagination.BaseURL p)
                     (strings.Join
                        (List.map (fun kv => fmt.Sprint_pair (fst kv) (snd kv))
                           ((pageParam p, fmt.Sprintd page) :: kept)) "&")).
  { unfold generateURL. by rewrite appendPreserved_spec. }
  assert (Hkeys : Forall (fun kv => strings.Contains (fst kv) eq_sign = false)
                         ((pageParam p, fmt.Sprintd page) :: kept)).
  { constructor; [apply Hname |].
    eapply Forall_impl; [exact Hkept |]. by intros kv ((_ & ? & _) & _). }
  assert (Hin : forall name value,
            name <> pageParam p -> m !! name = Some value ->
            In (name, value) ((pageParam p, fmt.Sprintd page) :: kept) /\
            forall value',
              In (name, value') ((pageParam p, fmt.Sprintd page) :: kept) ->
              value' = value).
  { intros name value Hne Hval. split.
    - right. apply kept_entries; [done |]. split; [done |].
      unfold keep. by destruct (String.eqb_spec name (pageParam p)).
    - intros value' [[= ? ?] | Hin']; [done |].
      apply kept_entries in Hin' as [Hin' _]; [| done]. congruence. }
  destruct (Hin sortName column Hsp Hcol) as [Hcin Hcfun].
  destruct (Hin orderName sortOrder Hop Hord') as [Hoin Hofun].
  rewrite Hurl, afterFirstQmark_composeURL, Join_pairs by done.
  cbn [fst snd]. rewrite ParseSortFromQuery_loop.
  fold sortName orderName.
  change (fmt.Sprint_pair (pageParam p) (fmt.Sprintd page))
    with (pageParam p ++ String eq_sign (fmt.Sprintd page)).
  rewrite append_assoc, queryPairs_plain
    by (apply pageParam_nonempty || apply Hname).
  rewrite <- append_assoc.
  change (pageParam p ++ String eq_sign (fmt.Sprintd page))
    with (fmt.Sprint_pair (pageParam p) (fmt.Sprintd page)).
  rewrite Split_ampPairs.
  - change (fmt.Sprint_pair (pageParam p) (fmt.Sprintd page)
            :: List.map (fun kv => fmt.Sprint_pair (fst kv) (snd kv)) kept)
      with (List.map (fun kv => fmt.Sprint_pair (fst kv) (snd kv))
              ((pageParam p, fmt.Sprintd page) :: kept)).
    apply injective_projections.
    + cbn [fst]. apply sortLoop_pairs_fst; [done | done | by right].
    + cbn [snd]. apply sortLoop_pairs_snd; try done.
      destruct (Hm orderName sortOrder Hord') as ((_ & ? & _) & _). done.
  - eapply Forall_impl; [exact Hkept |]. by intros kv ((? & _) & ? & _).
  - apply ampFree_pair; [apply Hname |]. unfold ampFree.
    by rewrite Sprintd_without.
Qed.

Lemma page_link_keeps_sort_witness :
  ParseSortFromQuery
    (afterFirstQmark
       (generateURL "/users" "page"
          (reversedOrder 1%nat
             (map_to_list (<["sort_order" := "desc"]>
                             (<["sort_by" := "Name"]> ∅)))) 4))
    "" ""
  = ("Name", if String.eqb "desc" "desc" then "desc" else "asc").
Proof.
  apply (page_link_keeps_sort reversedOrder 1
           (Pagination.mk true 10 3 true true false [] "/users" "" true 95)
           (<["sort_order" := "desc"]> (<["sort_by" := "Name"]> ∅)) 4 "" ""
           "Name" "desc").
  - apply reversedOrder_ok.
  - reflexivity.
  - repeat split; reflexivity.
  - apply carriedIntact_entries. vm_compute. reflexivity.
  - discriminate.
  - discriminate.
  - discriminate.
  - reflexivity.
  - reflexivity.
Defined.

(** ** The options of the page-size control *)

(** X21.  Every option of the page-size control leads to its size on page
    1 and is marked as selected exactly when its size is the current page
    size: for a base URL without [?] and options from 1 up (the built-in
    10, 25, 50, 100 when none are configured), in the order of the
    options. *)
Theorem page_size_options_lead order p (m : gmap string string)
    defaultPageSize :
  strings.Contains (Pagination.BaseURL p) qmark = false ->
  Forall (fun size => 1 <= size <= int_max) (Pagination.PageSizeOptions p) ->
  Forall2
    (fun size item =>
       let '(url, selected, shown) := item in
       shown = size /\
       (selected = true <-> size = Pagination.PageSize p) /\
       ParsePageSizeFromQuery (afterFirstQmark url) defaultPageSize = size /\
       ParsePageFromQuery (afterFirstQmark url) "page" = 1)
    (pageSizeOptionsOf p)
    (pageSizeItems order p m O (pageSizeOptionsOf p)).
Proof.
  intros Hbase Hconfigured.
  assert (Hoptions : Forall (fun size => 1 <= size <= int_max)
                            (pageSizeOptionsOf p)).
  { unfold pageSizeOptionsOf.
    destruct (length (Pagination.PageSizeOptions p) =? 0)%nat; [| done].
    repeat constructor; vm_compute; congruence. }
  generalize O.
  induction Hoptions as [| size rest Hsize _ IH]; intros k;
    cbn [pageSizeItems]; constructor; [| apply IH].
  split; [done |]. split; [apply Z.eqb_eq |].
  by apply pageSizeURL_readers.
Qed.

Lemma page_size_options_lead_witness :
  Forall2
    (fun size item =>
       let '(url, selected, shown) := item in
       shown = size /\
       (selected = true <-> size = 25) /\
       ParsePageSizeFromQuery (afterFirstQmark url) 10 = size /\
       ParsePageFromQuery (afterFirstQmark url) "page" = 1)
    [10; 25; 50; 100]
    (pageSizeItems reversedOrder
       (Pagination.mk true 25 3 true true true [] "/users" "" true 95)
       (<["page" := "3"]> (<["search" := "ann"]> ∅)) O [10; 25; 50; 100]).
Proof.
  apply (page_size_options_lead reversedOrder
           (Pagination.mk true 25 3 true true true [] "/users" "" true 95)
           (<["page" := "3"]> (<["search" := "ann"]> ∅)) 10).
  - reflexivity.
  - constructor.
Defined.

(** ** ParseSearchFromQuery and the raw query *)

Lemma ReplaceAll_without s old new :
  old <> new -> strings.Contains (ReplaceAll s old new) old = false.
Proof.
  intros Hne. induction s as [| a s IH]; [done |].
  cbn [ReplaceAll strings.Contains]. rewrite IH.
  destruct (Ascii.eqb_spec a old) as [-> | Ha].
  - by destruct (Ascii.eqb_spec new old); [subst |].
  - by destruct (Ascii.eqb_spec a old).
Qed.

Lemma firstSearch_without searchParam params :
  strings.Contains (firstSearch searchParam params) "+"%char = false.
Proof.
  induction params as [| param rest IH]; [done |]. cbn [firstSearch].
  destruct (keyValue param) as [[key value] |]; [| done].
  destruct (String.eqb key searchParam); [| done].
  by apply ReplaceAll_without.
Qed.

(** X22.  ParseSearchFromQuery expects the raw query, without the [?]:
    from [name=term] it reads the term with each [+] turned into a space,
    but from [?name=term] it reads nothing, since it does not strip the
    [?] as the other readers do; and no result ever holds a [+]. *)
Theorem ParseSearchFromQuery_raw_query searchParam term :
  let name := if String.eqb searchParam "" then "search" else searchParam in
  plainName name ->
  ampFree term ->
  ParseSearchFromQuery (name ++ "=" ++ term) searchParam
  = ReplaceAll term "+"%char " "%char /\
  ParseSearchFromQuery ("?" ++ name ++ "=" ++ term) searchParam = "" /\
  forall rawQuery,
    strings.Contains (ParseSearchFromQuery rawQuery searchParam) "+"%char
    = false.
Proof.
  intros name (Ha & He & Hq) Hterm.
  assert (Hname : name <> "")
    by (unfold name; by destruct (String.eqb_spec searchParam "")).
  assert (Hpair : ampFree (name ++ String eq_sign term))
    by (by apply (ampFree_pair name term)).
  split; [| split].
  - unfold ParseSearchFromQuery. fold name.
    change (name ++ "=" ++ term) with (name ++ String eq_sign term).
    assert (Hne : String.eqb (name ++ String eq_sign term) "" = false).
    { destruct name; [done |]. by rewrite append_cons. }
    rewrite Hne, Split_without by done. cbn [firstSearch].
    change (name ++ String eq_sign term) with (fmt.Sprint_pair name term).
    by rewrite keyValue_pair, String.eqb_refl.
  - unfold ParseSearchFromQuery. fold name.
    change ("?" ++ name ++ "=" ++ term)
      with (String qmark name ++ String eq_sign term).
    rewrite append_cons. cbn [String.eqb].
    rewrite <- append_cons, Split_without.
    + cbn [firstSearch].
      change (String qmark name ++ String eq_sign term)
        with (fmt.Sprint_pair (String qmark name) term).
      rewrite keyValue_pair by (cbn [strings.Contains]; by rewrite He).
      destruct (String.eqb_spec (String qmark name) name) as [Heq | _];
        [| done].
      rewrite <- Heq in Hq. cbn [strings.Contains] in Hq.
      by rewrite Ascii.eqb_refl in Hq.
    + rewrite append_cons. cbn [strings.Contains].
      destruct (Ascii.eqb_spec qmark amp); [done | apply Hpair].
  - intros rawQuery. unfold ParseSearchFromQuery.
    destruct (String.eqb rawQuery ""); [done |]. apply firstSearch_without.
Qed.

Lemma ParseSearchFromQuery_raw_query_witness :
  ParseSearchFromQuery ("q" ++ "=" ++ "ann+lee") "q"
  = ReplaceAll "ann+lee" "+"%char " "%char /\
  ParseSearchFromQuery ("?" ++ "q" ++ "=" ++ "ann+lee") "q" = "" /\
  forall rawQuery,
    strings.Contains (ParseSearchFromQuery rawQuery "q") "+"%char = false.
Proof.
  apply (ParseSearchFromQuery_raw_query "q" "ann+lee").
  - repeat split; reflexivity.
  - reflexivity.
Defined.
